(** * AIF resume analysis pipeline: scorer, optimizer, parser fragments

    A shallow embedding of the rule-based core of the repository
    (backend/app/models/ats_scorer.py, optimizer.py, resume_parser.py,
    linkedin_generator.py and backend/app/utils/nlp_utils.py) together with
    the properties of it that the design document states.

    Conventions of the embedding.
    - A Python [str] is a [string]: a sequence of 8-bit characters.  Codes
      0..127 are ASCII with Python's classification ([str.isspace], [\w],
      [\d], case mapping).  Codes 128..255 stand for characters outside
      ASCII, by their Windows-1252 codes where a pattern or a literal of the
      code names one: 149 is the bullet glyph of the formatting check.  The
      embedding treats them as neither alphanumeric, nor white space, nor
      cased, which is Python's view of the bullet and of other symbols, not
      of letters.  A property that holds of Python for ASCII text only
      says so ([Str.isascii]).
    - A Python [float] is an exact rational ([Q]); [round(x, 1)] rounds to
      the nearest tenth, ties to even.
    - A Python [set] of strings is a [gset string]; [list(s)] is
      [elements s], whose order is fixed but unspecified, like Python's.
    - An operation that can raise ([/], [xs[0]]) returns a [result].
    - Dicts and lists that the optimizer copies or updates are objects in a
      store, held by reference; elsewhere the parsed resume is a record. *)

From Stdlib Require Import QArith Qround Lqa.
From stdpp Require Import base gmap sets list strings fin_maps sorting.
From Stdlib Require Import Ascii DecimalString.

Set Warnings "-clear-no-such-hyp".

(** ** Characters *)

Module Chr.

Definition code (c : ascii) : N := N_of_ascii c.

Definition between (lo hi : N) (c : ascii) : bool :=
  ((lo <=? code c) && (code c <=? hi))%N.

(** [str.isspace] and the class [\s] on code points below 128. *)
Definition isspace (c : ascii) : bool := between 9 13 c || between 28 32 c.

Definition isdigit (c : ascii) : bool := between 48 57 c.
Definition isupper (c : ascii) : bool := between 65 90 c.
Definition islower (c : ascii) : bool := between 97 122 c.
Definition isalpha (c : ascii) : bool := isupper c || islower c.

(** The class [\w]. *)
Definition isword (c : ascii) : bool :=
  isalpha c || isdigit c || (code c =? 95)%N.

Definition lower (c : ascii) : ascii :=
  if isupper c then ascii_of_N (code c + 32) else c.

Definition upper (c : ascii) : ascii :=
  if islower c then ascii_of_N (code c - 32) else c.

Definition eqb (a b : ascii) : bool := (code a =? code b)%N.

Definition newline : ascii := ascii_of_N 10.
Definition bullet : ascii := ascii_of_N 149.

End Chr.

(** ** The methods of [str] that the code calls *)

Module Str.

Fixpoint map (f : ascii → ascii) (s : string) : string :=
  match s with
  | EmptyString => EmptyString
  | String c t => String (f c) (map f t)
  end.

(** [s.isascii()] *)
Fixpoint isascii (s : string) : bool :=
  match s with
  | EmptyString => true
  | String c t => (Chr.code c <? 128)%N && isascii t
  end.

(** [s.lower()]: Python's on ASCII text; a character outside ASCII is left
    as it is. *)
Definition lower : string → string := map Chr.lower.

Fixpoint len (s : string) : nat :=
  match s with
  | EmptyString => 0
  | String _ t => S (len t)
  end.

Fixpoint take (n : nat) (s : string) : string :=
  match n, s with
  | S m, String c t => String c (take m t)
  | _, _ => EmptyString
  end.

Fixpoint startswith (p s : string) : bool :=
  match p, s with
  | EmptyString, _ => true
  | String a p', String b s' => Chr.eqb a b && startswith p' s'
  | String _ _, EmptyString => false
  end.

(** [needle in hay] *)
Fixpoint contains (needle hay : string) : bool :=
  startswith needle hay ||
  match hay with
  | EmptyString => false
  | String _ t => contains needle t
  end.

Fixpoint lstrip (s : string) : string :=
  match s with
  | EmptyString => EmptyString
  | String c t => if Chr.isspace c then lstrip t else s
  end.

Fixpoint rstrip (s : string) : string :=
  match s with
  | EmptyString => EmptyString
  | String c t =>
      match rstrip t with
      | EmptyString => if Chr.isspace c then EmptyString else String c EmptyString
      | r => String c r
      end
  end.

Definition strip (s : string) : string := rstrip (lstrip s).

(** [s.split(sep)] for a one-character separator: never the empty list. *)
Fixpoint split_on (sep : ascii) (s : string) : list string :=
  match s with
  | EmptyString => [EmptyString]
  | String c t =>
      if Chr.eqb c sep then EmptyString :: split_on sep t
      else match split_on sep t with
           | w :: ws => String c w :: ws
           | [] => [String c EmptyString]
           end
  end.

(** [s.split()]: the maximal runs of non-space characters. *)
Fixpoint split_ws_go (cur : option string) (s : string) : list string :=
  match s with
  | EmptyString => match cur with Some w => [w] | None => [] end
  | String c t =>
      if Chr.isspace c then
        match cur with
        | Some w => w :: split_ws_go None t
        | None => split_ws_go None t
        end
      else
        match cur with
        | Some w => split_ws_go (Some (w +:+ String c EmptyString)) t
        | None => split_ws_go (Some (String c EmptyString)) t
        end
  end.

Definition split (s : string) : list string := split_ws_go None s.

(** [sep.join(xs)] *)
Fixpoint join (sep : string) (xs : list string) : string :=
  match xs with
  | [] => EmptyString
  | [x] => x
  | x :: rest => x +:+ sep +:+ join sep rest
  end.

(** [s.capitalize()]: Python's on ASCII text; a character outside ASCII is
    left as it is. *)
Definition capitalize (s : string) : string :=
  match s with
  | EmptyString => EmptyString
  | String c t => String (Chr.upper c) (lower t)
  end.

(** [s.title()]: a cased character is upper-cased when the character before
    it is not cased, and lower-cased otherwise. *)
Fixpoint title_go (prev_cased : bool) (s : string) : string :=
  match s with
  | EmptyString => EmptyString
  | String c t =>
      String (if prev_cased then Chr.lower c else Chr.upper c)
             (title_go (Chr.isalpha c) t)
  end.

Definition title (s : string) : string := title_go false s.

(** [s.replace(old, new)] for a non-empty [old]: the occurrences are taken
    from the left and do not overlap. *)
Fixpoint replace_go (old new : string) (skip : nat) (s : string) : string :=
  match s with
  | EmptyString => EmptyString
  | String c t =>
      match skip with
      | S n => replace_go old new n t
      | O =>
          if startswith old s
          then new +:+ replace_go old new (Nat.pred (len old)) t
          else String c (replace_go old new 0 t)
      end
  end.

Definition replace (old new s : string) : string := replace_go old new 0 s.

(** [str(n)] for a natural number. *)
Definition of_nat (n : nat) : string := NilZero.string_of_uint (Nat.to_uint n).

End Str.


(** ** The fragment of [re] that the code uses

    A backtracking matcher in continuation-passing style: alternatives are
    tried in order, a greedy repetition takes as many characters as it can
    before it gives some back, a lazy one as few as it can.  Repetition is
    over a character class, which is all the patterns of the code need. *)

Module Re.

Inductive re : Type :=
| Eps                                   (* the empty pattern *)
| Cls (f : ascii → bool)                (* one character of a class *)
| Cat (a b : re)                        (* a b *)
| Alt (a b : re)                        (* a|b *)
| Rep (greedy : bool) (f : ascii → bool) (lo : nat) (hi : option nat)
                                        (* [f]{lo,hi} and [f]{lo,hi}? *)
| WordB                                 (* \b *)
| Bol                                   (* ^ *)
| Eol                                   (* $ *)
| Ahead (a : re).                       (* (?=a) *)

(** A position in the subject: the character before it and the text after. *)
Record cursor : Type := Cursor { before : option ascii; rest : string }.

Definition word_at (c : option ascii) : bool :=
  match c with Some x => Chr.isword x | None => false end.

Definition next (s : string) : option ascii :=
  match s with String c _ => Some c | EmptyString => None end.

Definition hi_pred (hi : option nat) : option nat :=
  match hi with Some n => Some (Nat.pred n) | None => None end.

Definition exhausted (hi : option nat) : bool :=
  match hi with Some O => true | _ => false end.

Definition or_else {A} (x y : option A) : option A :=
  match x with Some _ => x | None => y end.

Fixpoint rep_max (f : ascii → bool) (lo : nat) (hi : option nat)
    (prev : option ascii) (s : string) (k : cursor → option cursor)
    : option cursor :=
  let stop := match lo with O => k (Cursor prev s) | S _ => None end in
  match s with
  | String c t =>
      if f c && negb (exhausted hi)
      then or_else (rep_max f (Nat.pred lo) (hi_pred hi) (Some c) t k) stop
      else stop
  | EmptyString => stop
  end.

Fixpoint rep_min (f : ascii → bool) (lo : nat) (hi : option nat)
    (prev : option ascii) (s : string) (k : cursor → option cursor)
    : option cursor :=
  let stop := match lo with O => k (Cursor prev s) | S _ => None end in
  match s with
  | String c t =>
      if f c && negb (exhausted hi)
      then or_else stop (rep_min f (Nat.pred lo) (hi_pred hi) (Some c) t k)
      else stop
  | EmptyString => stop
  end.

Fixpoint run (r : re) (p : cursor) (k : cursor → option cursor)
    : option cursor :=
  match r with
  | Eps => k p
  | Cls f =>
      match rest p with
      | String c t => if f c then k (Cursor (Some c) t) else None
      | EmptyString => None
      end
  | Cat a b => run a p (λ q, run b q k)
  | Alt a b => or_else (run a p k) (run b p k)
  | Rep true f lo hi => rep_max f lo hi (before p) (rest p) k
  | Rep false f lo hi => rep_min f lo hi (before p) (rest p) k
  | WordB =>
      if xorb (word_at (before p)) (word_at (next (rest p))) then k p else None
  | Bol => match before p with None => k p | Some _ => None end
  | Eol =>
      match rest p with
      | EmptyString => k p
      | String c EmptyString => if Chr.eqb c Chr.newline then k p else None
      | _ => None
      end
  | Ahead a => match run a p Some with Some _ => k p | None => None end
  end.

(** The match that starts at [p], if any: the number of characters it
    consumes. *)
Definition match_len (r : re) (p : cursor) : option nat :=
  match run r p Some with
  | Some e => Some (Str.len (rest p) - Str.len (rest e))
  | None => None
  end.

(** The subject cut into matches and the characters between them, scanning
    from the left; a match is looked for where the previous one ended.  No
    pattern of the code matches the empty string; after an empty match the
    scan moves one character on. *)
Inductive tok : Type :=
| Hit (m : string)
| Gap (c : ascii).

Fixpoint scan (r : re) (skip : nat) (prev : option ascii) (s : string)
    : list tok :=
  match s with
  | EmptyString =>
      match skip, match_len r (Cursor prev s) with
      | O, Some _ => [Hit EmptyString]
      | _, _ => []
      end
  | String c t =>
      match skip with
      | S n => scan r n (Some c) t
      | O =>
          match match_len r (Cursor prev s) with
          | Some O => Hit EmptyString :: Gap c :: scan r 0 (Some c) t
          | Some (S n) => Hit (Str.take (S n) s) :: scan r n (Some c) t
          | None => Gap c :: scan r 0 (Some c) t
          end
      end
  end.

Definition tokens (r : re) (s : string) : list tok := scan r 0 None s.

Fixpoint hits (ts : list tok) : list string :=
  match ts with
  | [] => []
  | Hit m :: ts' => m :: hits ts'
  | Gap _ :: ts' => hits ts'
  end.

(** [re.findall(r, s)] for a pattern with at most one group, which then
    spans the pattern up to zero-width assertions, and
    [m.group() for m in re.finditer(r, s)]. *)
Definition findall (r : re) (s : string) : list string := hits (tokens r s).

(** [re.search(r, s)]: the text of the leftmost match. *)
Definition search (r : re) (s : string) : option string :=
  head (findall r s).

(** [re.match(r, s)]: a match at the start of [s] only. *)
Definition match_ (r : re) (s : string) : option nat :=
  match_len r (Cursor None s).

(** [re.sub(r, repl, s)] for a replacement without group references. *)
Fixpoint sub_go (repl : string) (ts : list tok) : string :=
  match ts with
  | [] => EmptyString
  | Hit _ :: ts' => repl +:+ sub_go repl ts'
  | Gap c :: ts' => String c (sub_go repl ts')
  end.

Definition sub (r : re) (repl s : string) : string := sub_go repl (tokens r s).

(** [re.split(r, s)] for a pattern without groups. *)
Fixpoint split_go (ts : list tok) : list string :=
  match ts with
  | [] => [EmptyString]
  | Hit _ :: ts' => EmptyString :: split_go ts'
  | Gap c :: ts' =>
      match split_go ts' with
      | w :: ws => String c w :: ws
      | [] => [String c EmptyString]
      end
  end.

Definition split (r : re) (s : string) : list string := split_go (tokens r s).

(** Pattern syntax.  A character under [re.IGNORECASE] matches the
    characters of the subject that agree with it after ASCII lower-casing,
    which are all that Python matches in an ASCII subject. *)
Definition chr (c : ascii) : re := Cls (Chr.eqb c).
Definition chr_i (c : ascii) : re := Cls (λ x, Chr.eqb (Chr.lower x) (Chr.lower c)).

Fixpoint lit (s : string) : re :=
  match s with
  | EmptyString => Eps
  | String c EmptyString => chr c
  | String c t => Cat (chr c) (lit t)
  end.

(** A literal under [re.IGNORECASE]. *)
Fixpoint lit_i (s : string) : re :=
  match s with
  | EmptyString => Eps
  | String c EmptyString => chr_i c
  | String c t => Cat (chr_i c) (lit_i t)
  end.

Fixpoint alts (rs : list re) : re :=
  match rs with
  | [] => Cls (λ _, false)
  | [r] => r
  | r :: rs' => Alt r (alts rs')
  end.

Fixpoint seq (rs : list re) : re :=
  match rs with
  | [] => Eps
  | [r] => r
  | r :: rs' => Cat r (seq rs')
  end.

Definition plus (f : ascii → bool) : re := Rep true f 1 None.
Definition star (f : ascii → bool) : re := Rep true f 0 None.
Definition any : ascii → bool := λ _, true.    (* [.] under re.DOTALL *)
Definition one_of (cs : string) : ascii → bool :=
  λ c, Str.contains (String c EmptyString) cs.

End Re.

(** ** Numbers and exceptions *)

Inductive exn : Type :=
| ZeroDivisionError
| IndexError
| KeyError
| TypeError.

Inductive result (A : Type) : Type :=
| Ok (a : A)
| Raise (e : exn).
Arguments Ok {A} a.
Arguments Raise {A} e.

Global Instance result_ret : MRet result := λ A a, Ok a.
Global Instance result_bind : MBind result := λ A B f m,
  match m with
  | Ok a => f a
  | Raise e => Raise e
  end.

Module Num.

Definition of_nat (n : nat) : Q := inject_Z (Z.of_nat n).

(** [a / b] *)
Definition div (a b : Q) : result Q :=
  if Qeq_bool b 0 then Raise ZeroDivisionError else Ok (a / b)%Q.

Definition min (a b : Q) : Q := if Qle_bool a b then a else b.
Definition max (a b : Q) : Q := if Qle_bool b a then a else b.

Definition ltb (a b : Q) : bool := negb (Qle_bool b a).
Definition leb (a b : Q) : bool := Qle_bool a b.

(** [round(x, 1)] *)
Definition round1 (x : Q) : Q :=
  let y := (x * 10)%Q in
  let n := Qfloor y in
  let up :=
    match (y - inject_Z n ?= 1 # 2)%Q with
    | Lt => false
    | Gt => true
    | Eq => Z.odd n
    end in
  (inject_Z (if up then n + 1 else n) / 10)%Q.

Fixpoint sum (xs : list Q) : Q :=
  match xs with
  | [] => 0
  | x :: rest => (x + sum rest)%Q
  end.

End Num.

(** [xs[i]] *)
Definition index {A} (xs : list A) (i : nat) : result A :=
  match xs !! i with
  | Some x => Ok x
  | None => Raise IndexError
  end.

(** ** Objects

    The dicts and lists that the optimizer copies and updates live in a
    store; a variable holds a reference, so that two names of one object see
    each other's updates.  Strings are immutable and are values. *)

Module Py.

Abbreviation loc := positive (only parsing).

Inductive value : Type :=
| VStr (s : string)
| VRef (l : loc).

Inductive object : Type :=
| Dict (items : gmap string value)
| List (items : list value).

Abbreviation heap := (gmap loc object) (only parsing).

(** A computation on the store that may raise. *)
Definition M (A : Type) : Type := heap → result (A * heap).

Definition ret {A} (a : A) : M A := λ h, Ok (a, h).

Definition bind {A B} (m : M A) (f : A → M B) : M B := λ h,
  match m h with
  | Ok (a, h') => f a h'
  | Raise e => Raise e
  end.

Definition raise {A} (e : exn) : M A := λ _, Raise e.

Definition lift {A} (r : result A) : M A := λ h,
  match r with
  | Ok a => Ok (a, h)
  | Raise e => Raise e
  end.

(** A new object, at a location not in use. *)
Definition alloc (o : object) : M loc := λ h,
  let l := fresh (dom h) in Ok (l, <[l := o]> h).

Definition as_str (v : value) : M string :=
  match v with VStr s => ret s | VRef _ => raise TypeError end.

Definition as_ref (v : value) : M loc :=
  match v with VRef l => ret l | VStr _ => raise TypeError end.

Definition get_dict (l : loc) : M (gmap string value) := λ h,
  match h !! l with
  | Some (Dict d) => Ok (d, h)
  | _ => Raise TypeError
  end.

Definition get_list (l : loc) : M (list value) := λ h,
  match h !! l with
  | Some (List vs) => Ok (vs, h)
  | _ => Raise TypeError
  end.

Definition store (l : loc) (o : object) : M unit := λ h, Ok ((), <[l := o]> h).

(** [d.copy()] *)
Definition dict_copy (l : loc) : M loc :=
  bind (get_dict l) (λ d, alloc (Dict d)).

(** [d[key]] *)
Definition dict_getitem (l : loc) (key : string) : M value :=
  bind (get_dict l) (λ d,
    match d !! key with
    | Some v => ret v
    | None => raise KeyError
    end).

(** [d.get(key, default)] *)
Definition dict_get (l : loc) (key : string) (otherwise : value) : M value :=
  bind (get_dict l) (λ d, ret (default otherwise (d !! key))).

(** [d[key] = v] *)
Definition dict_setitem (l : loc) (key : string) (v : value) : M unit :=
  bind (get_dict l) (λ d, store l (Dict (<[key := v]> d))).

(** [xs.copy()] *)
Definition list_copy (l : loc) : M loc :=
  bind (get_list l) (λ vs, alloc (List vs)).

(** [xs.append(v)] *)
Definition list_append (l : loc) (v : value) : M unit :=
  bind (get_list l) (λ vs, store l (List (vs ++ [v]))).

(** [xs.extend(ys)] *)
Definition list_extend (l l' : loc) : M unit :=
  bind (get_list l') (λ ws, bind (get_list l) (λ vs, store l (List (vs ++ ws)))).

(** The strings of a list of strings. *)
Fixpoint strings_of (vs : list value) : M (list string) :=
  match vs with
  | [] => ret []
  | v :: vs' =>
      bind (as_str v) (λ s, bind (strings_of vs') (λ ss, ret (s :: ss)))
  end.

End Py.

(** ** The parsed resume, as [ResumeParser.parse_resume] assembles it *)

Record job : Type := Job {
  title : string;
  company : string;
  dates : list string;
  description : list string
}.

Record degree : Type := Degree {
  degree_name : string;
  institution : string;
  degree_dates : list string;
  degree_details : list string
}.

Record project : Type := Project {
  project_name : string;
  project_description : list string
}.

Record person : Type := Person {
  name : option string;
  email : option string;
  phone : option string
}.

Record profile : Type := Profile {
  raw_text : string;
  skills : list string;
  experience : list job;
  education : list degree;
  projects : list project;
  personal_info : person;
  summary : string
}.

(** ** backend/app/utils/nlp_utils.py *)

Module NLPUtils.
Import Re.

Definition keep (c : ascii) : bool :=
  Chr.isword c || Chr.isspace c || one_of ".,!?;:" c.

Definition clean_text (text : string) : string :=
  (* Remove extra whitespace *)
  let text := sub (plus Chr.isspace) " " text in
  (* Remove special characters but keep basic punctuation *)
  let text := sub (Cls (λ c, negb (keep c))) "" text in
  Str.strip text.

End NLPUtils.

(** ** backend/app/models/ats_scorer.py *)

Record category : Type := Category {
  score : Q;
  max_score : Q;
  details : list string
}.

Record score_report : Type := ScoreReport {
  total_score : Q;
  breakdown : list (string * category)
}.

Module ATSScorer.
Import Re.

Definition weights : list (string * Q) :=
  [ ("skills_match", 0.35%Q); ("keywords", 0.25%Q); ("formatting", 0.15%Q);
    ("readability", 0.15%Q); ("grammar", 0.10%Q) ].

Definition action_verbs : list string :=
  ["managed"; "developed"; "implemented"; "led"; "created"; "optimized"].

(** [d[key]] guarded by [key in d], on a dict written as its item list. *)
Fixpoint lookup (key : string) (d : list (string * Q)) : option Q :=
  match d with
  | [] => None
  | (k, v) :: d' => if String.eqb k key then Some v else lookup key d'
  end.

Definition tech_skills : list string :=
  [ "python"; "java"; "javascript"; "typescript"; "c++"; "c#"; "go"; "rust";
    "sql"; "nosql"; "mongodb"; "postgresql"; "mysql";
    "react"; "angular"; "vue"; "django"; "flask"; "spring"; "node.js";
    "aws"; "azure"; "gcp"; "docker"; "kubernetes"; "jenkins"; "terraform";
    "machine learning"; "ai"; "data science"; "big data"; "tableau" ].

Definition _extract_skills_from_text (text : string) : list string :=
  let text_lower := Str.lower text in
  let skills : gset string :=
    foldl (λ skills skill,
             if Str.contains skill text_lower then skills ∪ {[skill]} else skills)
          ∅ tech_skills in
  elements skills.

Definition lowered (skills : list string) : gset string :=
  list_to_set (Str.lower <$> skills).

Definition _calculate_skills_match (skills : list string)
    (job_description : string) : result Q :=
  if String.eqb job_description "" then Ok 0%Q else
  let job_skills := _extract_skills_from_text job_description in
  match job_skills with
  | [] => Ok 0%Q
  | _ =>
      let matched_skills : gset string := lowered skills ∩ list_to_set job_skills in
      match_percentage ← Num.div (Num.of_nat (size matched_skills))
                                  (Num.of_nat (length job_skills));
      Ok (Num.min (match_percentage * 40) 40)
  end.

Definition percent (what : string) : re :=
  seq [lit what; plus Chr.isdigit; chr "%"].
Definition dollars (what : string) : re :=
  seq [lit what; chr "$"; plus Chr.isdigit].

Definition total_matches (patterns : list re) (text : string) : nat :=
  foldl (λ count pattern, count + length (findall pattern text)) 0 patterns.

Definition _calculate_keywords_score (text : string) : result Q :=
  let text_lower := Str.lower text in
  let found_verbs := filter (λ verb, Str.contains verb text_lower = true) action_verbs in
  share ← Num.div (Num.of_nat (length found_verbs)) (Num.of_nat (length action_verbs));
  let score := (0 + share * 10)%Q in
  let quant_patterns :=
    [ percent "increased by "; percent "reduced by "; dollars "saved ";
      percent "improved by "; dollars "managed " ] in
  let quant_count := total_matches quant_patterns text_lower in
  let score := (score + Num.min (Num.of_nat quant_count * 2) 10)%Q in
  Ok (Num.min score 20).

Definition required_sections : list string := ["experience"; "education"; "skills"].

Definition bullet_pattern : re :=
  seq [Bol; Cls (λ c, Chr.eqb c Chr.bullet || Chr.eqb c "-" || Chr.eqb c "*");
       Cls Chr.isspace].

Definition is_bullet_line (line : string) : Prop :=
  is_Some (match_ bullet_pattern (Str.strip line)).

Definition is_substantial (line : string) : Prop :=
  10 < Str.len (Str.strip line).

Global Instance is_bullet_line_dec line : Decision (is_bullet_line line).
Proof. unfold is_bullet_line. apply _. Defined.

Global Instance is_substantial_dec line : Decision (is_substantial line).
Proof. unfold is_substantial. apply _. Defined.

Definition bullet_ratio (text : string) : result Q :=
  let lines := Str.split_on Chr.newline text in
  let bullet_lines := filter is_bullet_line lines in
  Num.div (Num.of_nat (length bullet_lines))
          (Num.of_nat (Nat.max (length (filter is_substantial lines)) 1)).

Definition _calculate_formatting_score (parsed_data : profile) : result Q :=
  let score := 15%Q in
  let text := raw_text parsed_data in
  let text_lower := Str.lower text in
  let score :=
    foldl (λ score section,
             if Str.contains section text_lower then score else (score - 2)%Q)
          score required_sections in
  ratio ← bullet_ratio text;
  let score := if Num.ltb ratio 0.3 then (score - 2)%Q else score in
  let word_count := length (Str.split text) in
  let score :=
    if word_count <? 200 then (score - 2)%Q
    else if 800 <? word_count then (score - 2)%Q
    else score in
  Ok (Num.max score 0).

Definition sentence_end : re := plus (one_of ".!?").

Definition _calculate_readability_score (text : string) : result Q :=
  let sentences := split sentence_end text in
  let words := Str.split text in
  if (length sentences =? 0) || (length words =? 0) then Ok 0%Q else
  avg_sentence_length ← Num.div (Num.of_nat (length words))
                                 (Num.of_nat (length sentences));
  Ok (if Num.leb avg_sentence_length 15 then 15%Q
      else if Num.leb avg_sentence_length 20 then 12%Q
      else if Num.leb avg_sentence_length 25 then 8%Q
      else 5%Q).

Definition dq : string := String (ascii_of_N 34) EmptyString.

Definition i_token : re := seq [WordB; chr "i"; Cls Chr.isspace].
Definition their_token : re := seq [WordB; lit "their"; Cls Chr.isspace].

Definition common_errors : list (re * string) :=
  [ (i_token, "Lowercase " +:+ dq +:+ "I" +:+ dq +:+ " should be capitalized");
    (their_token, "Potential their/there/they're error") ].

Definition past_tense_pattern : re :=
  seq [WordB; alts (lit <$> ["managed"; "developed"; "created"; "led"]); WordB].
Definition present_tense_pattern : re :=
  seq [WordB; alts (lit <$> ["manage"; "develop"; "create"; "lead"]); WordB].

(** The tense check: a past-tense and a present-tense sample both occur. *)
Definition mixed_tenses (text : string) : bool :=
  let past_tense := length (findall past_tense_pattern (Str.lower text)) in
  let present_tense := length (findall present_tense_pattern (Str.lower text)) in
  (0 <? past_tense) && (0 <? present_tense).

Definition grammar_error_count (text : string) : nat :=
  let error_count :=
    foldl (λ count '(pattern, _), count + length (findall pattern (Str.lower text)))
          0 common_errors in
  if mixed_tenses text then error_count + 1 else error_count.

Definition _calculate_grammar_score (text : string) : Q :=
  let score := 10%Q in
  let error_count := grammar_error_count text in
  let score := (score - Num.min (Num.of_nat error_count * 0.5) 5)%Q in
  Num.max score 0.

Definition _get_skills_match_details (skills : list string)
    (job_description : string) : list string :=
  if negb (String.eqb job_description "") then
    let job_skills := _extract_skills_from_text job_description in
    let matched_skills : gset string := lowered skills ∩ list_to_set job_skills in
    let missing_skills : gset string := list_to_set job_skills ∖ lowered skills in
    let details :=
      [ "Matched " +:+ Str.of_nat (size matched_skills) +:+ " out of " +:+
        Str.of_nat (length job_skills) +:+ " required skills" ] in
    if decide (missing_skills = ∅) then details
    else details ++ ["Missing skills: " +:+ Str.join ", " (elements missing_skills)]
  else
    let details := ["Found " +:+ Str.of_nat (length skills) +:+ " skills in resume"] in
    if length skills <? 10
    then details ++ ["Consider adding more relevant skills"]
    else details.

Definition _get_keywords_details (text : string) : list string :=
  let text_lower := Str.lower text in
  let found_verbs := filter (λ verb, Str.contains verb text_lower = true) action_verbs in
  let details := ["Used " +:+ Str.of_nat (length found_verbs) +:+ " action verbs"] in
  let quant_patterns :=
    [ percent "increased by "; percent "reduced by "; dollars "saved ";
      percent "improved by " ] in
  let quant_count := total_matches quant_patterns text_lower in
  let details :=
    details ++ ["Found " +:+ Str.of_nat quant_count +:+ " quantifiable achievements"] in
  if quant_count <? 2
  then details ++ ["Add more quantifiable results (e.g., 'increased efficiency by 25%')"]
  else details.

Definition _get_formatting_details (parsed_data : profile) : result (list string) :=
  let text := raw_text parsed_data in
  let text_lower := Str.lower text in
  let missing_sections :=
    filter (λ section, Str.contains section text_lower = false) required_sections in
  let details :=
    match missing_sections with
    | [] => ["All essential sections present"]
    | _ => ["Missing sections: " +:+ Str.join ", " missing_sections]
    end in
  ratio ← bullet_ratio text;
  let details :=
    details ++ [if Num.ltb ratio 0.3
                then "Consider using more bullet points for readability"
                else "Good use of bullet points"] in
  let word_count := length (Str.split text) in
  Ok (details ++
      [if (300 <=? word_count) && (word_count <=? 600)
       then "Appropriate resume length"
       else if word_count <? 300
       then "Resume might be too short - add more details"
       else "Resume might be too long - consider condensing"]).

Definition _get_readability_details (text : string) : result (list string) :=
  let sentences := split sentence_end text in
  let words := Str.split text in
  if length sentences =? 0 then Ok ["Unable to analyze readability"] else
  avg_sentence_length ← Num.div (Num.of_nat (length words))
                                 (Num.of_nat (length sentences));
  Ok [if Num.leb avg_sentence_length 15 then "Excellent sentence length"
      else if Num.leb avg_sentence_length 20 then "Good sentence length"
      else if Num.leb avg_sentence_length 25 then "Consider shortening some sentences"
      else "Some sentences are too long - break them up"].

Definition _get_grammar_details (text : string) : list string :=
  let details := ["Basic grammar check passed"] in
  match search i_token text with
  | Some _ => details ++ ["Found lowercase 'I' - should be capitalized"]
  | None => details
  end.

Definition weighted_total (scores : list (string * Q)) : Q :=
  foldl Qplus 0%Q
    (omap (λ '(category, score),
             match lookup category weights with
             | Some weight => Some (score * weight)%Q
             | None => None
             end) scores).

Definition calculate_score (parsed_data : profile) (job_description : string)
    : result score_report :=
  skills_match ←
    (if negb (String.eqb job_description "")
     then _calculate_skills_match (skills parsed_data) job_description
     else
       skills_score ← Num.div (Num.of_nat (length (skills parsed_data))) 20;
       Ok (Num.min (skills_score * 40) 40));
  keywords ← _calculate_keywords_score (raw_text parsed_data);
  formatting ← _calculate_formatting_score parsed_data;
  readability ← _calculate_readability_score (raw_text parsed_data);
  let grammar := _calculate_grammar_score (raw_text parsed_data) in
  let scores :=
    [ ("skills_match", skills_match); ("keywords", keywords);
      ("formatting", formatting); ("readability", readability);
      ("grammar", grammar) ] in
  let total_score := weighted_total scores in
  (* Convert to 0-100 scale *)
  normalized ← Num.div total_score (foldl Qplus 0%Q weights.*2);
  let total_score := (normalized * 100)%Q in
  formatting_details ← _get_formatting_details parsed_data;
  readability_details ← _get_readability_details (raw_text parsed_data);
  Ok {| total_score := Num.round1 total_score;
        breakdown :=
          [ ("Skills Match",
             Category (Num.round1 skills_match) 40
               (_get_skills_match_details (skills parsed_data) job_description));
            ("Keywords",
             Category (Num.round1 keywords) 20
               (_get_keywords_details (raw_text parsed_data)));
            ("Formatting",
             Category (Num.round1 formatting) 15 formatting_details);
            ("Readability",
             Category (Num.round1 readability) 15 readability_details);
            ("Grammar",
             Category (Num.round1 grammar) 10
               (_get_grammar_details (raw_text parsed_data))) ] |}.

End ATSScorer.

(** ** backend/app/models/resume_parser.py: skills and summary *)

(** What the entity recogniser reports for a document: [ent.text] and
    [ent.label_] of each entity of [doc.ents]. *)
Definition entities : Type := list (string * string).

Module ResumeParser.
Import Re.

Definition word_list (words : list string) : re :=
  seq [WordB; alts (lit <$> words); WordB].

Definition _load_skill_patterns : list re :=
  [ (* Programming languages *)
    word_list ["python"; "java"; "javascript"; "typescript"; "c++"; "c#";
               "go"; "rust"; "swift"; "kotlin"; "r"; "sql"];
    (* Frameworks *)
    word_list ["react"; "angular"; "vue"; "django"; "flask"; "spring";
               "express"; "laravel"; "rails"; "tensorflow"; "pytorch"];
    (* Tools *)
    word_list ["docker"; "kubernetes"; "aws"; "azure"; "gcp"; "git";
               "jenkins"; "ansible"; "terraform"];
    (* Soft skills *)
    word_list ["leadership"; "communication"; "teamwork"; "problem-solving";
               "critical thinking"; "adaptability"] ].

(** The text of every match of every skill pattern, before title-casing. *)
Definition pattern_matches (text : string) : list string :=
  mjoin ((λ pattern, findall pattern (Str.lower text)) <$> _load_skill_patterns).

Definition string_le (a b : string) : Prop := String.leb a b = true.

Global Instance string_le_dec a b : Decision (string_le a b).
Proof. unfold string_le. apply _. Defined.

(** [sorted(xs)] *)
Definition sorted (xs : list string) : list string := merge_sort string_le xs.

Definition _extract_skills (doc : entities) (text : string) : list string :=
  (* Pattern matching *)
  let skills : gset string := list_to_set (Str.title <$> pattern_matches text) in
  (* NER-based extraction *)
  let skills :=
    foldl (λ skills '(ent_text, ent_label),
             if bool_decide (ent_label ∈ ["ORG"; "PRODUCT"; "TECH"])
             then skills ∪ {[ent_text]} else skills)
          skills doc in
  sorted (elements skills).

(** [keyword.*?(?=stop1|stop2|...|$)] under IGNORECASE and DOTALL. *)
Definition section_pattern (keyword : string) (stops : list string) : re :=
  seq [lit_i keyword; Rep false any 0 None;
       Ahead (alts ((lit_i <$> stops) ++ [Eol]))].

Definition summary_patterns : list re :=
  (λ keyword, section_pattern keyword ["experience"; "education"; "skills"])
    <$> ["summary"; "objective"; "profile"].

(** The first match of the first pattern that has one. *)
Fixpoint first_match (patterns : list re) (text : string) : option string :=
  match patterns with
  | [] => None
  | pattern :: patterns' =>
      match search pattern text with
      | Some m => Some m
      | None => first_match patterns' text
      end
  end.

Definition nl : string := String Chr.newline EmptyString.

Definition is_long (line : string) : Prop := 10 < Str.len (Str.strip line).

Global Instance is_long_dec line : Decision (is_long line).
Proof. unfold is_long. apply _. Defined.

Definition _extract_summary (text : string) : string :=
  match first_match summary_patterns text with
  | Some m => Str.strip m
  | None =>
      (* If no summary found, return first few lines *)
      let lines := Str.split_on Chr.newline text in
      Str.join nl (filter is_long (take 3 lines))
  end.

(** *** Dates, jobs, degrees, projects *)

Definition digits (lo hi : nat) : re := Rep true Chr.isdigit lo (Some hi).

Definition date_patterns : list re :=
  [ seq [WordB;
         alts (lit <$> ["Jan"; "Feb"; "Mar"; "Apr"; "May"; "Jun";
                        "Jul"; "Aug"; "Sep"; "Oct"; "Nov"; "Dec"]);
         star Chr.islower; chr " "; digits 4 4];
    seq [WordB; digits 1 2; chr "/"; digits 4 4];
    seq [WordB; digits 4 4] ].

Definition _extract_dates (text : string) : list string :=
  mjoin ((λ pattern, findall pattern text) <$> date_patterns).

Definition title_pattern : re :=
  alts (lit <$> ["senior"; "junior"; "lead"; "manager"; "director";
                 "engineer"; "developer"; "analyst"]).

Definition is_job_title (line : string) : bool :=
  bool_decide (is_Some (search title_pattern (Str.lower line))).

(** The state of the loop of [_parse_jobs]: the jobs flushed so far and the
    job in progress, [None] for the empty dict. *)
Definition job_step (state : list job * option job) (line : string)
    : list job * option job :=
  let '(jobs, current_job) := state in
  let line := Str.strip line in
  if String.eqb line "" then state
  else if is_job_title line then
    (match current_job with Some j => jobs ++ [j] | None => jobs end,
     Some (Job line "" (_extract_dates line) []))
  else
    match current_job with
    | Some j =>
        if 10 <? Str.len line
        then (jobs, Some (Job (title j) (company j) (dates j) (description j ++ [line])))
        else state
    | None => state
    end.

Definition flush {A} (state : list A * option A) : list A :=
  match state with
  | (done, Some current) => done ++ [current]
  | (done, None) => done
  end.

Definition _parse_jobs (text : string) : list job :=
  flush (foldl job_step ([], None) (Str.split_on Chr.newline text)).

Definition dot : re := Rep true (Chr.eqb ".") 0 (Some 1).

Definition letters (a b : ascii) : re := seq [chr_i a; dot; chr_i b; dot].

(** [\b(B\.?S\.?|B\.?A\.?|M\.?S\.?|M\.?A\.?|PhD|Bachelor|Master|Doctorate)]
    under IGNORECASE. *)
Definition degree_pattern : re :=
  seq [WordB;
       alts [ letters "B" "S"; letters "B" "A"; letters "M" "S"; letters "M" "A";
              lit_i "PhD"; lit_i "Bachelor"; lit_i "Master"; lit_i "Doctorate" ]].

Definition is_degree (line : string) : bool :=
  bool_decide (is_Some (search degree_pattern line)).

Definition degree_step (state : list degree * option degree) (line : string)
    : list degree * option degree :=
  let '(institutions, current_edu) := state in
  let line := Str.strip line in
  if String.eqb line "" then state
  else if is_degree line then
    (match current_edu with Some e => institutions ++ [e] | None => institutions end,
     Some (Degree line "" (_extract_dates line) []))
  else
    match current_edu with
    | Some e =>
        if 5 <? Str.len line
        then (institutions,
              Some (Degree (degree_name e) (institution e) (degree_dates e)
                      (degree_details e ++ [line])))
        else state
    | None => state
    end.

Definition _parse_education_institutions (text : string) : list degree :=
  flush (foldl degree_step ([], None) (Str.split_on Chr.newline text)).

(** The second prefix that the source excludes: the three characters that
    the UTF-8 bytes E2 80 A2 of the bullet read as in Windows-1252. *)
Definition misread_bullet : string :=
  String (ascii_of_N 226) (String (ascii_of_N 128) (String (ascii_of_N 162) EmptyString)).

(** [len(line) < 100 and not line.startswith(('-', ...))] *)
Definition is_project_title (line : string) : bool :=
  (Str.len line <? 100) &&
  negb (Str.startswith "-" line || Str.startswith misread_bullet line).

Definition project_step (state : list project * option project) (line : string)
    : list project * option project :=
  let '(projects, current_project) := state in
  let line := Str.strip line in
  if String.eqb line "" then state
  else if is_project_title line then
    (match current_project with Some p => projects ++ [p] | None => projects end,
     Some (Project line []))
  else
    match current_project with
    | Some p =>
        if 10 <? Str.len line
        then (projects,
              Some (Project (project_name p) (project_description p ++ [line])))
        else state
    | None => state
    end.

Definition _parse_project_entries (text : string) : list project :=
  flush (foldl project_step ([], None) (Str.split_on Chr.newline text)).

(** Every match of every pattern, pattern by pattern. *)
Definition sections (patterns : list re) (text : string) : list string :=
  mjoin ((λ pattern, findall pattern text) <$> patterns).

Definition experience_patterns : list re :=
  (λ keyword, section_pattern keyword ["education"; "projects"; "skills"])
    <$> ["experience"; "work"; "employment"].

Definition _extract_experience (text : string) : list job :=
  mjoin (_parse_jobs <$> sections experience_patterns text).

Definition education_patterns : list re :=
  (λ keyword, section_pattern keyword ["experience"; "projects"; "skills"])
    <$> ["education"; "academic"].

Definition _extract_education (text : string) : list degree :=
  mjoin (_parse_education_institutions <$> sections education_patterns text).

Definition project_patterns : list re :=
  (λ keyword, section_pattern keyword ["experience"; "education"; "skills"])
    <$> ["projects"; "portfolio"].

Definition _extract_projects (text : string) : list project :=
  mjoin (_parse_project_entries <$> sections project_patterns text).

End ResumeParser.

(** ** backend/app/models/optimizer.py: the computations on strings *)

Record bullet_suggestion : Type := BulletSuggestion {
  bs_original : string;
  bs_suggestion : string;
  bs_improved : string
}.

Record job_suggestions : Type := JobSuggestions {
  js_title : string;
  js_suggestions : list bullet_suggestion
}.

Record bullet_improvement : Type := BulletImprovement {
  bi_original : string;
  bi_improved : string;
  bi_reason : string
}.

Record suggestions : Type := Suggestions {
  sg_skills : list string;
  sg_experience : list job_suggestions;
  sg_summary : list string;
  sg_keywords : list string;
  sg_bullet_points : list bullet_improvement
}.

Module ResumeOptimizer.
Import Re.

Definition action_verbs : list string :=
  [ "accelerated"; "achieved"; "administered"; "advanced"; "advised"; "allocated";
    "analyzed"; "assembled"; "assessed"; "assisted"; "attained"; "authored";
    "balanced"; "boosted"; "built"; "calculated"; "catalyzed"; "chaired";
    "changed"; "coached"; "collaborated"; "compiled"; "completed"; "conceived";
    "conducted"; "consolidated"; "constructed"; "consulted"; "controlled";
    "coordinated"; "created"; "decreased"; "delivered"; "designed"; "developed";
    "devised"; "directed"; "drove"; "edited"; "eliminated"; "engineered";
    "enhanced"; "established"; "evaluated"; "executed"; "expanded"; "facilitated";
    "forecasted"; "formed"; "founded"; "generated"; "guided"; "headed";
    "implemented"; "improved"; "increased"; "influenced"; "initiated"; "innovated";
    "installed"; "instituted"; "integrated"; "introduced"; "invented"; "launched";
    "led"; "managed"; "marketed"; "mastered"; "mediated"; "mentored";
    "modernized"; "monitored"; "motivated"; "negotiated"; "operated"; "optimized";
    "orchestrated"; "organized"; "originated"; "overhauled"; "oversaw"; "performed";
    "pioneered"; "planned"; "prepared"; "presented"; "processed"; "produced";
    "programmed"; "projected"; "promoted"; "proposed"; "provided"; "published";
    "purchased"; "recommended"; "recruited"; "reduced"; "regulated"; "reorganized";
    "researched"; "restructured"; "revamped"; "reviewed"; "revised"; "saved";
    "scheduled"; "secured"; "selected"; "simplified"; "sold"; "solved";
    "spearheaded"; "started"; "streamlined"; "strengthened"; "structured"; "supervised";
    "supported"; "surpassed"; "targeted"; "trained"; "transformed"; "translated";
    "trimmed"; "unified"; "upgraded"; "utilized"; "validated"; "verified";
    "won"; "wrote" ].

Definition common_skills : list string :=
  [ "python"; "java"; "javascript"; "typescript"; "sql"; "nosql";
    "react"; "angular"; "vue"; "django"; "flask"; "spring";
    "aws"; "azure"; "gcp"; "docker"; "kubernetes";
    "machine learning"; "ai"; "data analysis"; "tableau";
    "agile"; "scrum"; "devops"; "ci/cd" ].

Definition _extract_skills_from_jd (job_description : string) : list string :=
  let jd_lower := Str.lower job_description in
  let skills : gset string :=
    foldl (λ skills skill,
             if Str.contains skill jd_lower then skills ∪ {[Str.title skill]}
             else skills)
          ∅ common_skills in
  elements skills.

Definition _suggest_skills (current_skills : list string)
    (job_description : string) : list string :=
  if String.eqb job_description "" then [] else
  let job_skills := _extract_skills_from_jd job_description in
  let missing_skills :=
    filter (λ skill, Str.lower skill ∉ Str.lower <$> current_skills) job_skills in
  take 5 missing_skills.

Definition weak_phrases : list string :=
  ["responsible for"; "duties included"; "helped with"; "worked on"; "was involved in"].

Definition context_verbs : list (re * string) :=
  [ (alts (lit <$> ["manage"; "lead"; "supervis"]), "Managed");
    (alts (lit <$> ["develop"; "create"; "build"]), "Developed");
    (alts (lit <$> ["analyze"; "research"; "evaluat"]), "Analyzed");
    (alts (lit <$> ["improv"; "optimiz"; "enhanc"]), "Improved");
    (alts (lit <$> ["implement"; "integrat"; "deploy"]), "Implemented") ].

(** The [for ... else] over [context_verbs]: the verb of the first pattern
    found in the text, the default when none is. *)
Fixpoint context_verb (table : list (re * string)) (text : string) : string :=
  match table with
  | [] => "Managed"
  | (pattern, verb) :: table' =>
      match search pattern text with
      | Some _ => verb
      | None => context_verb table' text
      end
  end.

(** [\d+%|\$\d+|\d+\s*(years|months)|increased|decreased|reduced] *)
Definition quantified : re :=
  alts [ seq [plus Chr.isdigit; chr "%"];
         seq [chr "$"; plus Chr.isdigit];
         seq [plus Chr.isdigit; star Chr.isspace; Alt (lit "years") (lit "months")];
         lit "increased"; lit "decreased"; lit "reduced" ].

Definition advice : string := " - consider adding quantifiable results".

Definition _improve_bullet_point (bullet : string) : string :=
  let original := Str.strip (Str.lower bullet) in
  (* Remove weak phrases *)
  let improved := foldl (λ improved pattern, sub (lit pattern) "" improved)
                        original weak_phrases in
  (* Add action verb if missing *)
  let improved :=
    if bool_decide (Exists (λ verb, Str.contains verb improved = true) action_verbs)
    then improved
    else context_verb context_verbs improved +:+ " " +:+ improved in
  (* Capitalize first letter *)
  let improved := Str.capitalize improved in
  (* Add quantifiable results if missing *)
  match search quantified improved with
  | Some _ => improved
  | None => improved +:+ advice
  end.

Definition weak_patterns : list (string * string) :=
  [ ("responsible for", "Use action verbs instead of 'responsible for'");
    ("duties included", "Start with action verbs");
    ("helped with", "Be more specific about your contribution");
    ("worked on", "Specify what you achieved") ].

(** The inner [for ... break]: the entry for the first weak pattern found. *)
Fixpoint weak_bullet (table : list (string * string)) (bullet : string)
    : option bullet_suggestion :=
  match table with
  | [] => None
  | (pattern, suggestion) :: table' =>
      match search (lit pattern) (Str.lower bullet) with
      | Some _ =>
          Some (BulletSuggestion bullet suggestion (_improve_bullet_point bullet))
      | None => weak_bullet table' bullet
      end
  end.

Definition _suggest_experience_improvements (experience : list job)
    : list job_suggestions :=
  omap (λ job,
          let found := omap (weak_bullet weak_patterns) (description job) in
          match found with
          | [] => None
          | _ => Some (JobSuggestions (title job) found)
          end) experience.

Definition common_words : gset string :=
  {["with"; "this"; "that"; "have"; "from"; "they"; "were"; "their"]}.

Definition _extract_keywords (text : string) : list string :=
  let words := findall (seq [WordB; Rep true Chr.isalpha 4 None; WordB])
                       (Str.lower text) in
  (* Filter common words and get unique keywords *)
  let keywords := filter (λ word, word ∉ common_words) words in
  elements (list_to_set keywords : gset string).

Definition _suggest_summary_improvements (summary job_description : string)
    : list string :=
  let suggestions :=
    if String.eqb summary "" || (Str.len (Str.strip summary) <? 50)
    then ["Summary is too short. Add 2-3 sentences highlighting key achievements."]
    else [] in
  (* Check for keywords *)
  let suggestions :=
    if negb (String.eqb job_description "") then
      let jd_keywords := _extract_keywords job_description in
      let summary_keywords := _extract_keywords summary in
      let missing_keywords := filter (λ kw, kw ∉ summary_keywords) jd_keywords in
      match missing_keywords with
      | [] => suggestions
      | _ =>
          suggestions ++
          ["Consider adding these keywords: " +:+ Str.join ", " (take 3 missing_keywords)]
      end
    else suggestions in
  (* Check for action-oriented language *)
  let action_verb_count :=
    length (filter (λ verb, Str.contains verb (Str.lower summary) = true) action_verbs) in
  if action_verb_count <? 1
  then suggestions ++
       ["Start with a strong action verb to make your summary more impactful"]
  else suggestions.

Definition _suggest_keywords (resume_text job_description : string) : list string :=
  if String.eqb job_description "" then [] else
  let jd_keywords := _extract_keywords job_description in
  let resume_keywords := _extract_keywords resume_text in
  let missing_keywords := filter (λ kw, kw ∉ resume_keywords) jd_keywords in
  take 10 missing_keywords.

Definition _suggest_bullet_point_improvements (experience : list job)
    : list bullet_improvement :=
  let improvements :=
    mjoin ((λ job,
              omap (λ bullet,
                      let improved := _improve_bullet_point bullet in
                      if decide (improved ≠ bullet)
                      then Some (BulletImprovement bullet improved
                                   "Made more action-oriented and results-focused")
                      else None)
                   (description job)) <$> experience) in
  take 5 improvements.

Definition get_suggestions (parsed_data : profile) (job_description : string)
    : suggestions :=
  {| sg_skills := _suggest_skills (skills parsed_data) job_description;
     sg_experience := _suggest_experience_improvements (experience parsed_data);
     sg_summary := _suggest_summary_improvements (summary parsed_data) job_description;
     sg_keywords := _suggest_keywords (raw_text parsed_data) job_description;
     sg_bullet_points := _suggest_bullet_point_improvements (experience parsed_data) |}.

Definition fallback_summary : string :=
  "Experienced professional seeking new opportunities to leverage skills and experience.".

(** [s[0]] and [s[1:]] *)
Definition first_char (s : string) : result ascii :=
  match s with
  | String c _ => Ok c
  | EmptyString => Raise IndexError
  end.

Definition tail (s : string) : string :=
  match s with
  | String _ t => t
  | EmptyString => EmptyString
  end.

Definition _optimize_summary (summary job_description : string) : result string :=
  if String.eqb summary "" then Ok fallback_summary else
  (* Ensure summary starts with a strong action verb *)
  first_word ←
    (match Str.split summary with
     | [] => Ok EmptyString
     | words => word ← index words 0; Ok (Str.lower word)
     end);
  let summary :=
    if bool_decide (first_word ∈ Str.lower <$> action_verbs) then summary
    else "Accomplished " +:+ Str.lower summary in
  (* Ensure proper capitalization *)
  if String.eqb summary "" then Ok summary else
  c ← first_char summary;
  Ok (String (Chr.upper c) (tail summary)).

(** The body of the loop of [_optimize_experience] for one bullet. *)
Definition optimized_bullet (bullet : string) : string :=
  let optimized_bullet := _improve_bullet_point bullet in
  (* Remove the "consider adding" part for final version *)
  if Str.contains "consider adding" optimized_bullet
  then Str.replace advice "" optimized_bullet
  else optimized_bullet.

(** The de-duplication loop of [_enhance_skills]. *)
Fixpoint unique_skills (seen : gset string) (skills : list string) : list string :=
  match skills with
  | [] => []
  | skill :: rest =>
      let skill_lower := Str.lower skill in
      if decide (skill_lower ∈ seen) then unique_skills seen rest
      else skill :: unique_skills (seen ∪ {[skill_lower]}) rest
  end.

(** The methods that copy and build objects, on the store. *)

Import Py.

Local Instance store_ret : MRet M := @Py.ret.
Local Instance store_bind : MBind M := λ A B f m, Py.bind m f.

(** The inner loop of [_optimize_experience]. *)
Fixpoint optimize_bullets (optimized_bullets : loc) (bullets : list value)
    : M unit :=
  match bullets with
  | [] => mret ()
  | bullet :: bullets' =>
      bullet ← as_str bullet;
      list_append optimized_bullets (VStr (optimized_bullet bullet));;
      optimize_bullets optimized_bullets bullets'
  end.

(** The outer loop of [_optimize_experience]. *)
Fixpoint optimize_jobs (optimized_experience : loc) (jobs : list value)
    : M unit :=
  match jobs with
  | [] => mret ()
  | job :: jobs' =>
      job ← as_ref job;
      optimized_job ← dict_copy job;
      optimized_bullets ← alloc (List []);
      empty ← alloc (List []);
      bullets ← dict_get job "description" (VRef empty);
      bullets ← as_ref bullets;
      bullets ← get_list bullets;
      optimize_bullets optimized_bullets bullets;;
      dict_setitem optimized_job "description" (VRef optimized_bullets);;
      list_append optimized_experience (VRef optimized_job);;
      optimize_jobs optimized_experience jobs'
  end.

Definition _optimize_experience (experience : loc) : M loc :=
  optimized_experience ← alloc (List []);
  jobs ← get_list experience;
  optimize_jobs optimized_experience jobs;;
  mret optimized_experience.

(** The de-duplication loop of [_enhance_skills] on the store. *)
Fixpoint append_unique (unique_skills : loc) (seen : gset string)
    (skills : list string) : M unit :=
  match skills with
  | [] => mret ()
  | skill :: skills' =>
      let skill_lower := Str.lower skill in
      if decide (skill_lower ∈ seen) then append_unique unique_skills seen skills'
      else
        list_append unique_skills (VStr skill);;
        append_unique unique_skills (seen ∪ {[skill_lower]}) skills'
  end.

(** The block under [if job_description:] in [_enhance_skills]. *)
Definition extend_with_missing (enhanced_skills current_skills : loc)
    (job_description : string) : M unit :=
  if negb (String.eqb job_description "") then
    current ← get_list current_skills;
    current ← strings_of current;
    missing_skills ← alloc (List (VStr <$> _suggest_skills current job_description));
    list_extend enhanced_skills missing_skills
  else mret ().

Definition _enhance_skills (current_skills : loc) (job_description : string)
    : M loc :=
  enhanced_skills ← list_copy current_skills;
  extend_with_missing enhanced_skills current_skills job_description;;
  (* Remove duplicates while preserving case *)
  unique_skills ← alloc (List []);
  skills ← get_list enhanced_skills;
  skills ← strings_of skills;
  append_unique unique_skills ∅ skills;;
  mret unique_skills.

Definition region_info (spelling date_format : string) : object :=
  Dict {[ "spelling" := VStr spelling; "date_format" := VStr date_format ]}.

Definition _apply_regional_formatting (resume_data : loc) (region : string)
    : M loc :=
  us ← alloc (region_info "color" "MM/DD/YYYY");
  uk ← alloc (region_info "colour" "DD/MM/YYYY");
  india ← alloc (region_info "colour" "DD/MM/YYYY");
  regional_changes ←
    alloc (Dict {[ "US" := VRef us; "UK" := VRef uk; "India" := VRef india ]});
  otherwise ← dict_getitem regional_changes "US";
  region_info ← dict_get regional_changes region otherwise;
  (* Add regional info to resume data *)
  dict_setitem resume_data "regional_format" region_info;;
  mret resume_data.

Definition optimize_resume (parsed_data : loc) (job_description region : string)
    : M loc :=
  optimized ← dict_copy parsed_data;
  (* Optimize summary *)
  summary ← dict_getitem parsed_data "summary";
  summary ← as_str summary;
  summary ← lift (_optimize_summary summary job_description);
  dict_setitem optimized "summary" (VStr summary);;
  (* Optimize experience bullet points *)
  experience ← dict_getitem parsed_data "experience";
  experience ← as_ref experience;
  experience ← _optimize_experience experience;
  dict_setitem optimized "experience" (VRef experience);;
  (* Add missing skills from job description *)
  skills ← dict_getitem parsed_data "skills";
  skills ← as_ref skills;
  skills ← _enhance_skills skills job_description;
  dict_setitem optimized "skills" (VRef skills);;
  (* Apply regional formatting *)
  optimized ← _apply_regional_formatting optimized region;
  mret optimized.

(** What the optimized objects hold, read as values. *)
Definition optimized_job (j : job) : job :=
  Job (title j) (company j) (dates j) (optimized_bullet <$> description j).

Definition enhanced_skills (current_skills : list string)
    (job_description : string) : list string :=
  unique_skills ∅
    (current_skills ++
     (if negb (String.eqb job_description "")
      then _suggest_skills current_skills job_description else [])).

End ResumeOptimizer.

(** ** backend/app/models/linkedin_generator.py: headlines and years

    [parse_resume] sets no key [current_title]; a caller may, so it is a
    parameter here, absent when [None]. *)

Module LinkedInGenerator.

(** The truth value of [d.get(key)] for a key that holds a string when
    present. *)
Definition truthy (s : option string) : bool :=
  match s with
  | Some (String _ _) => true
  | _ => false
  end.

Definition _generate_headline (current_title : option string)
    (parsed_data : profile) : result (list string) :=
  let personal_name := name (personal_info parsed_data) in
  name ←
    (if truthy personal_name
     then index (Str.split (default "" personal_name)) 0
     else Ok "Professional");
  let top_skills := take 3 (skills parsed_data) in
  let current := default "Professional" current_title in
  (* Template-based headline generation *)
  let templates :=
    [ current +:+ " | " +:+ Str.join ", " top_skills;
      "Experienced " +:+ current +:+ " | " +:+ Str.join ", " (take 2 top_skills);
      "Passionate " +:+ current +:+ " | Open to New Opportunities";
      name +:+ " | " +:+ current +:+ " | " +:+
        (match top_skills with skill :: _ => skill | [] => "Technology" end) ] in
  (* Add custom headlines based on experience *)
  let headlines :=
    match experience parsed_data with
    | latest_job :: _ => [title latest_job +:+ " | " +:+ Str.join ", " top_skills]
    | [] => []
    end in
  Ok (take 5 (headlines ++ templates)).

Definition _estimate_experience_years (experience : list job) : nat :=
  match experience with
  | [] => 3
  | _ =>
      let base_years := Nat.max 2 (length experience * 2) in
      Nat.min base_years 30
  end.

End LinkedInGenerator.

(** ** Reading a profile from the store *)

Module Load.
Import Py.

Definition str (v : value) : option string :=
  match v with VStr s => Some s | VRef _ => None end.

Definition dict (h : heap) (v : value) : option (gmap string value) :=
  match v with
  | VRef l => match h !! l with Some (Dict d) => Some d | _ => None end
  | VStr _ => None
  end.

Definition items (h : heap) (v : value) : option (list value) :=
  match v with
  | VRef l => match h !! l with Some (List vs) => Some vs | _ => None end
  | VStr _ => None
  end.

Definition strs (h : heap) (v : value) : option (list string) :=
  vs ← items h v; mapM str vs.

Definition job_at (h : heap) (v : value) : option job :=
  d ← dict h v;
  title ← d !! "title" ≫= str;
  company ← d !! "company" ≫= str;
  dates ← d !! "dates" ≫= strs h;
  description ← d !! "description" ≫= strs h;
  Some (Job title company dates description).

Definition degree_at (h : heap) (v : value) : option degree :=
  d ← dict h v;
  name ← d !! "degree" ≫= str;
  institution ← d !! "institution" ≫= str;
  dates ← d !! "dates" ≫= strs h;
  details ← d !! "details" ≫= strs h;
  Some (Degree name institution dates details).

Definition project_at (h : heap) (v : value) : option project :=
  d ← dict h v;
  name ← d !! "name" ≫= str;
  description ← d !! "description" ≫= strs h;
  Some (Project name description).

(** A key that may be absent, and holds a string when present. *)
Definition optional (d : gmap string value) (key : string)
    : option (option string) :=
  match d !! key with
  | None => Some None
  | Some v => s ← str v; Some (Some s)
  end.

Definition person_at (h : heap) (v : value) : option person :=
  d ← dict h v;
  name ← optional d "name";
  email ← optional d "email";
  phone ← optional d "phone";
  Some (Person name email phone).

Definition jobs_at (h : heap) (v : value) : option (list job) :=
  vs ← items h v; mapM (job_at h) vs.

Definition degrees_at (h : heap) (v : value) : option (list degree) :=
  vs ← items h v; mapM (degree_at h) vs.

Definition projects_at (h : heap) (v : value) : option (list project) :=
  vs ← items h v; mapM (project_at h) vs.

(** [d[key]], read with [f]. *)
Definition field {A} (d : gmap string value) (key : string)
    (f : value → option A) : option A :=
  d !! key ≫= f.

Definition profile_of (h : heap) (d : gmap string value) : option profile :=
  raw_text ← field d "raw_text" str;
  skills ← field d "skills" (strs h);
  experience ← field d "experience" (jobs_at h);
  education ← field d "education" (degrees_at h);
  projects ← field d "projects" (projects_at h);
  personal_info ← field d "personal_info" (person_at h);
  summary ← field d "summary" str;
  Some (Profile raw_text skills experience education projects personal_info summary).

Definition profile_at (h : heap) (l : loc) : option profile :=
  d ← dict h (VRef l); profile_of h d.

End Load.

(** ** The design document's wording, where a property compares the code
    with it *)

Module Stated.
Import Re.

(** Grammar: ten, minus a half per free-standing lowercase [i] followed by
    white space, at most five in all; minus a flat one when a past-tense and
    a present-tense sample verb both occur; not below zero. *)
Definition grammar_score (text : string) : Q :=
  let occurrences := length (findall ATSScorer.i_token text) in
  let deduction := Num.min (Num.of_nat occurrences * 0.5) 5 in
  let mixed := ATSScorer.mixed_tenses text in
  Num.max (10 - deduction - (if mixed then 1 else 0))%Q 0.

(** Summary fallback: the first three lines of the document that are longer
    than ten characters, joined by a newline. *)
Definition summary_fallback (text : string) : string :=
  let lines := Str.split_on Chr.newline text in
  Str.join ResumeParser.nl (take 3 (filter ResumeParser.is_long lines)).

(** Two consecutive white-space characters somewhere in the text. *)
Fixpoint has_space_run (s : string) : bool :=
  match s with
  | String a (String b _ as t) =>
      (Chr.isspace a && Chr.isspace b) || has_space_run t
  | _ => false
  end.

(** Every character is in a class; the text begins or ends with white
    space. *)
Fixpoint all_in (f : ascii → bool) (s : string) : bool :=
  match s with
  | EmptyString => true
  | String c t => f c && all_in f t
  end.

Definition leading_space (s : string) : bool :=
  match s with
  | String c _ => Chr.isspace c
  | EmptyString => false
  end.

Fixpoint trailing_space (s : string) : bool :=
  match s with
  | EmptyString => false
  | String c EmptyString => Chr.isspace c
  | String _ t => trailing_space t
  end.

End Stated.

(** ** Inputs used in the examples *)

Definition nobody : person := Person None None None.

(** No text, no skills, no experience, no summary. *)
Definition empty_profile : profile := Profile "" [] [] [] [] nobody "".

Definition with_skills (skills : list string) : profile :=
  Profile "" skills [] [] [] nobody "".

Definition sample_text : string := "i think their plans managed to manage".

(** A document without a summary header whose first line is short. *)
Definition four_lines : string :=
  Str.join ResumeParser.nl
    [ "Jane Doe"; "Built the billing service"; "Ran the data platform";
      "Taught new engineers" ].

(** A store that holds one resume, with one job of one bullet. *)
Definition sample_heap : Py.heap :=
  let str_list (xs : list string) := Py.List (Py.VStr <$> xs) in
  list_to_map
    [ (1%positive,
       Py.Dict (list_to_map
         [ ("raw_text", Py.VStr "Senior Engineer");
           ("skills", Py.VRef 2%positive); ("experience", Py.VRef 3%positive);
           ("education", Py.VRef 4%positive); ("projects", Py.VRef 4%positive);
           ("personal_info", Py.VRef 5%positive); ("summary", Py.VStr "engineer") ]));
      (2%positive, str_list ["Python"]);
      (3%positive, Py.List [Py.VRef 6%positive]);
      (4%positive, Py.List []);
      (5%positive, Py.Dict (list_to_map [("email", Py.VStr "jane@example.org")]));
      (6%positive,
       Py.Dict (list_to_map
         [ ("title", Py.VStr "Senior Engineer"); ("company", Py.VStr "");
           ("dates", Py.VRef 4%positive); ("description", Py.VRef 7%positive) ]));
      (7%positive, str_list ["responsible for managing a team"]) ].

Definition sample_profile : profile :=
  Profile "Senior Engineer" ["Python"]
    [Job "Senior Engineer" "" [] ["responsible for managing a team"]] [] []
    (Person None (Some "jane@example.org") None) "engineer".

(** * Properties *)

(** ** Arithmetic of scores *)

Section Arithmetic.
Local Open Scope Q_scope.

Ltac tenths := unfold Qdiv in *; change (/ 10) with (1 # 10) in *.

Lemma min_le_l a b : Num.min a b <= a.
Proof.
  unfold Num.min. destruct (Qle_bool a b) eqn:E; [lra|].
  assert (~ a <= b) by (rewrite <- Qle_bool_iff; congruence). lra.
Qed.

Lemma min_le_r a b : Num.min a b <= b.
Proof.
  unfold Num.min. destruct (Qle_bool a b) eqn:E; [|lra].
  by apply Qle_bool_iff.
Qed.

Lemma min_glb a b c : c <= a → c <= b → c <= Num.min a b.
Proof. unfold Num.min. by destruct (Qle_bool a b). Qed.

Lemma max_le_l a b : a <= Num.max a b.
Proof.
  unfold Num.max. destruct (Qle_bool b a) eqn:E; [lra|].
  assert (~ b <= a) by (rewrite <- Qle_bool_iff; congruence). lra.
Qed.

Lemma max_le_r a b : b <= Num.max a b.
Proof.
  unfold Num.max. destruct (Qle_bool b a) eqn:E; [|lra].
  by apply Qle_bool_iff.
Qed.

Lemma max_lub a b c : a <= c → b <= c → Num.max a b <= c.
Proof. unfold Num.max. by destruct (Qle_bool b a). Qed.

Lemma of_nat_nonneg n : 0 <= Num.of_nat n.
Proof.
  unfold Num.of_nat. change 0 with (inject_Z 0). rewrite <- Zle_Qle. lia.
Qed.

Lemma of_nat_le m n : (m ≤ n)%nat → Num.of_nat m <= Num.of_nat n.
Proof. intros. unfold Num.of_nat. rewrite <- Zle_Qle. lia. Qed.

Lemma of_nat_pos n : (0 < n)%nat → 0 < Num.of_nat n.
Proof.
  intros. unfold Num.of_nat. change 0 with (inject_Z 0). rewrite <- Zlt_Qlt. lia.
Qed.

(** A division whose divisor is not zero does not raise. *)
Lemma div_ok a b : ~ b == 0 → Num.div a b = Ok (a / b).
Proof.
  intros Hb. unfold Num.div. destruct (Qeq_bool b 0) eqn:E; [|done].
  apply Qeq_bool_iff in E. contradiction.
Qed.

Lemma div_of_nat_ok a n : (0 < n)%nat → Num.div a (Num.of_nat n) = Ok (a / Num.of_nat n).
Proof. intros Hn. apply div_ok. apply of_nat_pos in Hn. lra. Qed.

Lemma ratio_bounds m n :
  (0 < n)%nat → (m ≤ n)%nat → 0 <= Num.of_nat m / Num.of_nat n <= 1.
Proof.
  intros Hn Hmn. pose proof (of_nat_pos n Hn) as Hpos.
  pose proof (of_nat_nonneg m) as Hm. pose proof (of_nat_le m n Hmn) as Hle.
  split.
  - apply Qle_shift_div_l; [done|lra].
  - apply Qle_shift_div_r; [done|lra].
Qed.

Lemma ratio_nonneg m n : (0 < n)%nat → 0 <= Num.of_nat m / Num.of_nat n.
Proof.
  intros Hn. pose proof (of_nat_pos n Hn). pose proof (of_nat_nonneg m).
  apply Qle_shift_div_l; [done|lra].
Qed.

(** Rounding to one decimal stays between any two tenths that bound the
    argument. *)
Lemma round1_bounds (a b : Z) x :
  inject_Z a / 10 <= x <= inject_Z b / 10 →
  inject_Z a / 10 <= Num.round1 x <= inject_Z b / 10.
Proof.
  intros [Ha Hb]. unfold Num.round1. tenths.
  set (y := x * 10). set (n := Qfloor y).
  assert (Hay : inject_Z a <= y) by (unfold y; lra).
  assert (Hyb : y <= inject_Z b) by (unfold y; lra).
  assert (Hn1 : inject_Z n <= y) by apply Qfloor_le.
  assert (Han : (a <= n)%Z).
  { rewrite <- (Qfloor_Z a). by apply Qfloor_resp_le. }
  assert (Hnb : (n <= b)%Z).
  { rewrite <- (Qfloor_Z b). by apply Qfloor_resp_le. }
  assert (Hup : 0 < y - inject_Z n → (n + 1 <= b)%Z).
  { intros Hfrac. destruct (Z.eq_dec n b) as [->|]; [|lia]. lra. }
  assert (Hres : ∀ m : Z, (a <= m <= b)%Z →
            inject_Z a * (1 # 10) <= inject_Z m * (1 # 10) <= inject_Z b * (1 # 10)).
  { intros m [H1 H2]. rewrite Zle_Qle in H1, H2. lra. }
  destruct (y - inject_Z n ?= 1 # 2) eqn:E.
  - apply Qeq_alt in E. destruct (Z.odd n); apply Hres; split; try lia.
    apply Hup. lra.
  - apply Hres. lia.
  - apply Qgt_alt in E. apply Hres. split; [lia|]. apply Hup. lra.
Qed.

End Arithmetic.

(** ** The sub-scores return, within their ranges *)

Section SubScores.
Import ATSScorer.
Local Open Scope Q_scope.

Ltac tenths := unfold Qdiv in *; change (/ 10) with (1 # 10) in *.

Lemma matched_le_job_skills (skills : list string) (S : gset string) :
  (size (lowered skills ∩ list_to_set (elements S)) ≤ length (elements S))%nat.
Proof.
  rewrite list_to_set_elements_L.
  change (length (elements S)) with (size S).
  apply subseteq_size, intersection_subseteq_r.
Qed.

(** The value of the skills match against a job description that names at
    least one skill of the vocabulary. *)
Lemma skills_match_value skills jd :
  jd ≠ "" → _extract_skills_from_text jd ≠ [] →
  _calculate_skills_match skills jd =
    Ok (Num.min
          (Num.of_nat (size (lowered skills ∩ list_to_set (_extract_skills_from_text jd)))
           / Num.of_nat (length (_extract_skills_from_text jd)) * 40) 40).
Proof.
  intros Hjd Hne. unfold _calculate_skills_match.
  destruct (String.eqb_spec jd "") as [->|_]; [done|].
  destruct (_extract_skills_from_text jd) as [|s l] eqn:E; [done|].
  rewrite div_of_nat_ok by (simpl; lia). done.
Qed.

Lemma matched_le skills jd :
  (size (lowered skills ∩ list_to_set (_extract_skills_from_text jd))
   ≤ length (_extract_skills_from_text jd))%nat.
Proof. unfold _extract_skills_from_text. apply matched_le_job_skills. Qed.

Lemma skills_match_ok skills jd :
  ∃ v, _calculate_skills_match skills jd = Ok v ∧ 0 <= v <= 40.
Proof.
  destruct (decide (jd = "")) as [->|Hjd].
  { exists 0. split; [done|lra]. }
  destruct (decide (_extract_skills_from_text jd = [])) as [E|E].
  { exists 0. unfold _calculate_skills_match. rewrite E.
    destruct (String.eqb jd ""); split; try done; lra. }
  eexists. split; [by apply skills_match_value|].
  assert (0 < length (_extract_skills_from_text jd))%nat as Hpos.
  { destruct (_extract_skills_from_text jd); [done|]. cbn [length]. lia. }
  pose proof (ratio_bounds _ _ Hpos (matched_le skills jd)) as [H1 H2].
  split.
  - apply min_glb; lra.
  - apply min_le_r.
Qed.

Lemma skills_count_ok (skills : list string) :
  ∃ v, (skills_score ← Num.div (Num.of_nat (length skills)) 20;
        Ok (Num.min (skills_score * 40) 40)) = Ok v ∧ 0 <= v <= 40.
Proof.
  rewrite div_ok by (intros H; discriminate H). eexists. split; [done|].
  pose proof (of_nat_nonneg (length skills)).
  split; [|apply min_le_r].
  apply min_glb; [|lra]. unfold Qdiv. change (/ 20) with (1 # 20). lra.
Qed.

Lemma keywords_ok text :
  ∃ v, _calculate_keywords_score text = Ok v ∧ 0 <= v <= 20.
Proof.
  unfold _calculate_keywords_score.
  rewrite div_of_nat_ok by (simpl; lia). eexists. split; [done|].
  split; [|apply min_le_r].
  apply min_glb; [|lra].
  match goal with |- context [Num.of_nat (length ?l)] =>
    pose proof (ratio_nonneg (length l) (length action_verbs) ltac:(simpl; lia)) end.
  match goal with |- context [Num.min ?a 10] =>
    assert (0 <= Num.min a 10) end.
  { apply min_glb; [|lra].
    match goal with |- context [Num.of_nat ?n * 2] =>
      pose proof (of_nat_nonneg n) end. lra. }
  lra.
Qed.

Lemma bullet_ratio_ok text : ∃ v, bullet_ratio text = Ok v.
Proof.
  unfold bullet_ratio. rewrite div_of_nat_ok by lia. by eexists.
Qed.

Lemma formatting_ok p :
  ∃ v, _calculate_formatting_score p = Ok v ∧ 0 <= v <= 15.
Proof.
  unfold _calculate_formatting_score.
  destruct (bullet_ratio_ok (raw_text p)) as [ratio ->]. simpl.
  eexists. split; [done|]. split; [apply max_le_r|].
  apply max_lub; [|lra].
  repeat match goal with |- context [if ?b then _ else _] => destruct b end; lra.
Qed.

Lemma split_go_nonempty ts : (0 < length (Re.split_go ts))%nat.
Proof.
  induction ts as [|[m|c] ts IH]; simpl; try lia.
  destruct (Re.split_go ts); simpl; lia.
Qed.

(** [re.split] never returns the empty list. *)
Lemma split_nonempty r s : (0 < length (Re.split r s))%nat.
Proof. apply split_go_nonempty. Qed.

Lemma readability_ok text :
  ∃ v, _calculate_readability_score text = Ok v ∧ 0 <= v <= 15.
Proof.
  unfold _calculate_readability_score.
  destruct (_ || _); [exists 0; split; [done|lra]|].
  rewrite div_of_nat_ok by apply split_nonempty. simpl.
  eexists. split; [done|].
  repeat match goal with |- context [if ?b then _ else _] => destruct b end; lra.
Qed.

Lemma grammar_bounds text : 5 <= _calculate_grammar_score text <= 10.
Proof.
  unfold _calculate_grammar_score.
  pose proof (of_nat_nonneg (grammar_error_count text)) as Hn.
  set (d := Num.min _ 5).
  assert (0 <= d <= 5) as [H1 H2].
  { split; [apply min_glb; lra|apply min_le_r]. }
  split.
  - eapply Qle_trans; [|apply max_le_l]. lra.
  - apply max_lub; lra.
Qed.

Lemma formatting_details_ok p : ∃ d, _get_formatting_details p = Ok d.
Proof.
  unfold _get_formatting_details.
  destruct (bullet_ratio_ok (raw_text p)) as [ratio ->]. by eexists.
Qed.

Lemma readability_details_ok text : ∃ d, _get_readability_details text = Ok d.
Proof.
  unfold _get_readability_details.
  destruct (_ =? _)%nat; [by eexists|].
  rewrite div_of_nat_ok by apply split_nonempty. by eexists.
Qed.

Lemma weights_sum : foldl Qplus 0 weights.*2 == 1.
Proof. reflexivity. Qed.

(** [calculate_score] returns, and its report is assembled from the five
    sub-scores as follows. *)
Lemma calculate_score_ok p jd :
  ∃ sm kw fm rd fd rdd,
    (if negb (String.eqb jd "") then _calculate_skills_match (skills p) jd
     else skills_score ← Num.div (Num.of_nat (length (skills p))) 20;
          Ok (Num.min (skills_score * 40) 40)) = Ok sm ∧
    _calculate_keywords_score (raw_text p) = Ok kw ∧
    _calculate_formatting_score p = Ok fm ∧
    _calculate_readability_score (raw_text p) = Ok rd ∧
    0 <= sm <= 40 ∧ 0 <= kw <= 20 ∧ 0 <= fm <= 15 ∧ 0 <= rd <= 15 ∧
    calculate_score p jd =
      Ok {| total_score :=
              Num.round1
                (weighted_total
                   [ ("skills_match", sm); ("keywords", kw); ("formatting", fm);
                     ("readability", rd);
                     ("grammar", _calculate_grammar_score (raw_text p)) ]
                 / foldl Qplus 0 weights.*2 * 100);
            breakdown :=
              [ ("Skills Match",
                 Category (Num.round1 sm) 40 (_get_skills_match_details (skills p) jd));
                ("Keywords",
                 Category (Num.round1 kw) 20 (_get_keywords_details (raw_text p)));
                ("Formatting", Category (Num.round1 fm) 15 fd);
                ("Readability", Category (Num.round1 rd) 15 rdd);
                ("Grammar",
                 Category (Num.round1 (_calculate_grammar_score (raw_text p))) 10
                   (_get_grammar_details (raw_text p))) ] |}.
Proof.
  assert (∃ sm,
    (if negb (String.eqb jd "") then _calculate_skills_match (skills p) jd
     else skills_score ← Num.div (Num.of_nat (length (skills p))) 20;
          Ok (Num.min (skills_score * 40) 40)) = Ok sm ∧ 0 <= sm <= 40)
    as (sm & Hsm & Bsm).
  { destruct (negb _); [apply skills_match_ok|apply skills_count_ok]. }
  destruct (keywords_ok (raw_text p)) as (kw & Hkw & Bkw).
  destruct (formatting_ok p) as (fm & Hfm & Bfm).
  destruct (readability_ok (raw_text p)) as (rd & Hrd & Brd).
  destruct (formatting_details_ok p) as (fd & Hfd).
  destruct (readability_details_ok (raw_text p)) as (rdd & Hrdd).
  exists sm, kw, fm, rd, fd, rdd.
  repeat (split; [done|]).
  unfold calculate_score. rewrite Hsm, Hkw, Hfm, Hrd. cbn [mbind result_bind].
  rewrite div_ok by (intros H; discriminate H).
  rewrite Hfd, Hrdd. reflexivity.
Qed.

End SubScores.

(** ** The score report *)

Section Report.
Import ATSScorer.
Local Open Scope Q_scope.

Lemma round1_range (a b : Z) lo hi x :
  lo == inject_Z a / 10 → hi == inject_Z b / 10 →
  lo <= x <= hi → lo <= Num.round1 x <= hi.
Proof.
  intros Hlo Hhi Hx. rewrite Hlo, Hhi in Hx |- *. by apply round1_bounds.
Qed.

(** C1 (fails in the code): the total is meant to lie in [0, 100], and the
    code announces the conversion to that scale, but the weighted sum of the
    point scores is multiplied by 100 without dividing by the maximal
    points.  The empty profile with no job description scores 5 for
    formatting and 10 for grammar, hence (5 * 0.15 + 10 * 0.10) * 100 = 175. *)
Theorem C1_total_score_exceeds_100 :
  ∃ r, calculate_score empty_profile "" = Ok r ∧
       total_score r == 175 ∧ ¬ (0 <= total_score r <= 100).
Proof.
  eexists. split; [vm_compute; reflexivity|]. cbn [total_score].
  split; [reflexivity|]. intros [_ H]. revert H. apply Qlt_not_le. reflexivity.
Qed.

(** What the total is in general: the weighted sum of the point scores times
    100, which ranges up to 2450. *)
Lemma total_score_range p jd :
  ∃ r, calculate_score p jd = Ok r ∧ 0 <= total_score r <= 2450.
Proof.
  destruct (calculate_score_ok p jd)
    as (sm & kw & fm & rd & fd & rdd & _ & _ & _ & _ & Bsm & Bkw & Bfm & Brd & ->).
  eexists. split; [reflexivity|]. cbn [total_score].
  pose proof (grammar_bounds (raw_text p)) as Bgr.
  set (gr := _calculate_grammar_score (raw_text p)) in *.
  apply (round1_range 0 24500); [reflexivity..|].
  assert (weighted_total
            [ ("skills_match", sm); ("keywords", kw); ("formatting", fm);
              ("readability", rd); ("grammar", gr) ]
          == sm * 0.35 + kw * 0.25 + fm * 0.15 + rd * 0.15 + gr * 0.10) as ->.
  { unfold weighted_total. cbn. ring. }
  rewrite weights_sum. unfold Qdiv. change (/ 1) with 1. lra.
Qed.

(** C10: in the report of every profile and job description each category
    has a score between 0 and its maximum, the maxima being 40, 20, 15, 15
    and 10. *)
Theorem C10_category_bounds p jd :
  ∃ r, calculate_score p jd = Ok r ∧
       Forall (λ entry, 0 <= score entry.2 <= max_score entry.2) (breakdown r) ∧
       (λ entry, (entry.1, max_score entry.2)) <$> breakdown r =
         [ ("Skills Match", 40); ("Keywords", 20); ("Formatting", 15);
           ("Readability", 15); ("Grammar", 10) ].
Proof.
  destruct (calculate_score_ok p jd)
    as (sm & kw & fm & rd & fd & rdd & _ & _ & _ & _ & Bsm & Bkw & Bfm & Brd & ->).
  eexists. split; [reflexivity|]. split; [|reflexivity].
  pose proof (grammar_bounds (raw_text p)) as Bgr.
  cbn [breakdown].
  repeat apply Forall_cons_2; try apply Forall_nil_2; cbn [snd score max_score].
  - by apply (round1_range 0 400).
  - by apply (round1_range 0 200).
  - by apply (round1_range 0 150).
  - by apply (round1_range 0 150).
  - apply (round1_range 0 100); [done..|]. lra.
Qed.

End Report.

(** ** Grammar *)

Section Grammar.
Import ATSScorer.
Local Open Scope Q_scope.

(** C3 (as stated, fails): the text [their plan] contains no free-standing
    [i] and no verb of either tense sample, so the stated rule gives 10; the
    code counts the [their] pattern as an error and gives 9.5. *)
Lemma C3_their_is_counted :
  _calculate_grammar_score "their plan" == 9.5 ∧
  Stated.grammar_score "their plan" == 10 ∧
  ¬ _calculate_grammar_score "their plan" == Stated.grammar_score "their plan".
Proof. vm_compute. repeat split; discriminate. Qed.

(** The tense mixture costs half a point, not one. *)
Lemma grammar_mixed_tenses :
  _calculate_grammar_score "managed to manage" == 9.5 ∧
  Stated.grammar_score "managed to manage" == 9.
Proof. vm_compute. split; reflexivity. Qed.

(** C3 (amended): for a text whose lower-casing creates no new free-standing
    [i] token, the grammar score is 10 minus half a point per error, at most
    5 in all, where the errors are the free-standing [i] tokens, the
    [their] tokens of the lower-cased text, and one more when a past-tense
    and a present-tense sample verb both occur in it; the score is never
    below 5, so the floor at 0 is never reached. *)
Theorem C3_grammar_score text :
  length (Re.findall i_token (Str.lower text)) = length (Re.findall i_token text) →
  let errors :=
    (length (Re.findall i_token text)
     + length (Re.findall their_token (Str.lower text))
     + (if mixed_tenses text then 1 else 0))%nat in
  _calculate_grammar_score text == 10 - Num.min (Num.of_nat errors * 0.5) 5 ∧
  5 <= _calculate_grammar_score text <= 10.
Proof.
  intros Hi errors. split; [|apply grammar_bounds].
  assert (grammar_error_count text = errors) as Hcount.
  { unfold grammar_error_count, errors, common_errors.
    cbn [foldl]. rewrite Hi.
    destruct (mixed_tenses text); lia. }
  unfold _calculate_grammar_score. rewrite Hcount.
  pose proof (min_le_r (Num.of_nat errors * 0.5) 5).
  unfold Num.max. destruct (Qle_bool _ _) eqn:E; [reflexivity|].
  assert (~ 0 <= 10 - Num.min (Num.of_nat errors * 0.5) 5)
    by (rewrite <- Qle_bool_iff; congruence).
  lra.
Qed.

Lemma C3_grammar_score_witness :
  length (Re.findall i_token (Str.lower sample_text))
    = length (Re.findall i_token sample_text) ∧
  (let errors :=
     (length (Re.findall i_token sample_text)
      + length (Re.findall their_token (Str.lower sample_text))
      + (if mixed_tenses sample_text then 1 else 0))%nat in
   _calculate_grammar_score sample_text == 10 - Num.min (Num.of_nat errors * 0.5) 5 ∧
   5 <= _calculate_grammar_score sample_text <= 10).
Proof.
  split; [vm_compute; reflexivity|].
  apply (C3_grammar_score sample_text). vm_compute. reflexivity.
Defined.

Lemma sample_text_score : _calculate_grammar_score sample_text == 8.5.
Proof. vm_compute. reflexivity. Qed.

End Grammar.

(** ** Skills match *)

Section SkillsMatch.
Import ATSScorer.
Local Open Scope Q_scope.

Lemma extracted_size jd :
  size (list_to_set (_extract_skills_from_text jd) : gset string)
  = length (_extract_skills_from_text jd).
Proof.
  unfold _extract_skills_from_text. by rewrite list_to_set_elements_L.
Qed.

Lemma extracted_empty jd :
  (list_to_set (_extract_skills_from_text jd) : gset string) = ∅ ↔
  _extract_skills_from_text jd = [].
Proof.
  split.
  - intros H. apply length_zero_iff_nil. rewrite <- extracted_size, H.
    apply size_empty.
  - by intros ->.
Qed.

(** C6: against a non-empty job description whose skill set [jd_skills] is
    not empty, the skills match is
    min(|lowercased skills ∩ jd_skills| / |jd_skills| * 40, 40), where the
    lowercased skills are the set of the lower-casings of the skills of the
    resume; it is 0 when [jd_skills] is empty; and for the job description
    [python aws docker] and the skills [Python] it is 40/3, reported as
    13.3. *)
Theorem C6_skills_match (profile_skills : list string) jd :
  jd ≠ "" →
  let jd_skills : gset string := list_to_set (_extract_skills_from_text jd) in
  (jd_skills ≠ ∅ →
     _calculate_skills_match profile_skills jd =
       Ok (Num.min
             (Num.of_nat
                (size ((list_to_set (Str.lower <$> profile_skills) : gset string)
                       ∩ jd_skills))
              / Num.of_nat (size jd_skills) * 40) 40)) ∧
  (jd_skills = ∅ → _calculate_skills_match profile_skills jd = Ok 0) ∧
  (∀ p, skills p = ["Python"] →
     ∃ r entry, calculate_score p "python aws docker" = Ok r ∧
                breakdown r !! 0%nat = Some ("Skills Match", entry) ∧
                score entry == 13.3).
Proof.
  intros Hjd jd_skills. split; [|split].
  - intros Hne. unfold jd_skills. rewrite extracted_size.
    change (list_to_set (Str.lower <$> profile_skills) : gset string)
      with (lowered profile_skills).
    apply skills_match_value; [done|]. by rewrite <- extracted_empty.
  - intros He. apply extracted_empty in He.
    unfold _calculate_skills_match. rewrite He.
    by destruct (String.eqb jd "").
  - intros p Hp.
    destruct (calculate_score_ok p "python aws docker")
      as (sm & kw & fm & rd & fd & rdd & Hsm & _ & _ & _ & _ & _ & _ & _ & ->).
    eexists _, _. split; [reflexivity|]. split; [reflexivity|].
    cbn [score]. rewrite Hp in Hsm.
    assert (sm = 40 # 3) as ->; [|reflexivity].
    vm_compute in Hsm. congruence.
Qed.

Lemma C6_skills_match_witness :
  "python aws docker" ≠ "" ∧
  _calculate_skills_match ["Python"] "python aws docker" = Ok (40 # 3) ∧
  ∃ r entry, calculate_score (with_skills ["Python"]) "python aws docker" = Ok r ∧
             breakdown r !! 0%nat = Some ("Skills Match", entry) ∧
             score entry == 13.3.
Proof.
  split; [discriminate|]. split; [vm_compute; reflexivity|].
  apply (C6_skills_match ["Python"] "python aws docker"); [discriminate|reflexivity].
Defined.

End SkillsMatch.

(** ** Text normalisation *)

Section Normalizer.

Lemma match_len_cls f prev c t :
  Re.match_len (Re.Cls f) (Re.Cursor prev (String c t))
  = if f c then Some 1 else None.
Proof.
  unfold Re.match_len. cbn [Re.run Re.rest]. destruct (f c); [|done].
  cbn [Re.rest Str.len]. f_equal. lia.
Qed.

(** Deleting the characters of a class leaves none of them. *)
Lemma sub_cls_all_in f : ∀ s prev,
  Stated.all_in (λ c, negb (f c)) (Re.sub_go "" (Re.scan (Re.Cls f) 0 prev s)) = true.
Proof.
  induction s as [|c t IH]; intros prev; [done|].
  cbn [Re.scan]. rewrite match_len_cls. destruct (f c) eqn:E.
  - cbn [Re.sub_go String.append]. apply IH.
  - cbn [Re.sub_go Stated.all_in]. by rewrite E, IH.
Qed.

Lemma all_in_ext f g s :
  (∀ c, f c = g c) → Stated.all_in f s = Stated.all_in g s.
Proof.
  intros H. induction s as [|c t IH]; [done|]. cbn. by rewrite H, IH.
Qed.

Lemma all_in_lstrip f s :
  Stated.all_in f s = true → Stated.all_in f (Str.lstrip s) = true.
Proof.
  induction s as [|c t IH]; [done|]. cbn [Str.lstrip].
  destruct (Chr.isspace c); [|done].
  cbn [Stated.all_in]. intros [_ H]%andb_true_iff. by apply IH.
Qed.

Lemma all_in_rstrip f s :
  Stated.all_in f s = true → Stated.all_in f (Str.rstrip s) = true.
Proof.
  induction s as [|c t IH]; [done|]. cbn [Str.rstrip Stated.all_in].
  intros [Hc Ht]%andb_true_iff. specialize (IH Ht).
  destruct (Str.rstrip t) as [|c' r].
  - destruct (Chr.isspace c); [done|]. cbn. by rewrite Hc.
  - cbn [Stated.all_in] in *. by rewrite Hc, IH.
Qed.

Lemma lstrip_leading s : Stated.leading_space (Str.lstrip s) = false.
Proof.
  induction s as [|c t IH]; [done|]. cbn [Str.lstrip].
  destruct (Chr.isspace c) eqn:E; [done|]. cbn. exact E.
Qed.

Lemma rstrip_leading s :
  Stated.leading_space s = false → Stated.leading_space (Str.rstrip s) = false.
Proof.
  destruct s as [|c t]; [done|]. cbn [Stated.leading_space Str.rstrip].
  intros Hc. destruct (Str.rstrip t); [by rewrite Hc|done].
Qed.

Lemma rstrip_trailing s : Stated.trailing_space (Str.rstrip s) = false.
Proof.
  induction s as [|c t IH]; [done|]. cbn [Str.rstrip].
  destruct (Str.rstrip t) as [|c' r] eqn:E.
  - destruct (Chr.isspace c) eqn:Ec; [done|]. cbn. exact Ec.
  - exact IH.
Qed.

(** The two other promises of the normalizer hold for every text: only
    whitelisted characters remain, and the result neither begins nor ends
    with white space. *)
Lemma clean_text_whitelist_and_trim text :
  Stated.all_in NLPUtils.keep (NLPUtils.clean_text text) = true ∧
  Stated.leading_space (NLPUtils.clean_text text) = false ∧
  Stated.trailing_space (NLPUtils.clean_text text) = false.
Proof.
  unfold NLPUtils.clean_text, Str.strip. split; [|split].
  - apply all_in_rstrip, all_in_lstrip. unfold Re.sub at 1, Re.tokens.
    rewrite (all_in_ext _ (λ c, negb (negb (NLPUtils.keep c))))
      by (intros c; by rewrite negb_involutive).
    apply (sub_cls_all_in (λ c, negb (NLPUtils.keep c))).
  - apply rstrip_leading, lstrip_leading.
  - apply rstrip_trailing.
Qed.

(** C7 (fails in the code): white space is collapsed before the characters
    outside the whitelist are removed, so a removed character that stood
    between two spaces leaves a run of two spaces behind. *)
Theorem C7_clean_text_leaves_a_space_run :
  NLPUtils.clean_text "a @ b" = "a  b" ∧
  Stated.has_space_run (NLPUtils.clean_text "a @ b") = true.
Proof. vm_compute. done. Qed.

End Normalizer.

(** ** Bullet rewriting *)

Section Bullets.
Import ResumeOptimizer.

(** C5 (as stated, fails): the result is not the string with a single space
    after the verb. *)
Lemma C5_not_the_stated_string :
  _improve_bullet_point "responsible for managing a team"
  ≠ "Managed managing a team - consider adding quantifiable results".
Proof. vm_compute. discriminate. Qed.

(** C5 (amended): removing [responsible for] leaves the space that followed
    it, so the result has two spaces after the prepended verb. *)
Theorem C5_improve_bullet_example :
  _improve_bullet_point "responsible for managing a team"
  = "Managed  managing a team - consider adding quantifiable results".
Proof. vm_compute. reflexivity. Qed.

End Bullets.

(** ** Matching *)

Section Matching.
Import Re.

Lemma chr_eqb_eq a b : Chr.eqb a b = true ↔ a = b.
Proof.
  unfold Chr.eqb, Chr.code. rewrite N.eqb_eq. split; [|by intros ->].
  intros H. rewrite <- (ascii_N_embedding a), <- (ascii_N_embedding b).
  by rewrite H.
Qed.

Lemma chr_eqb_refl a : Chr.eqb a a = true.
Proof. by apply chr_eqb_eq. Qed.

Lemma startswith_take n s : Str.startswith (Str.take n s) s = true.
Proof.
  revert s. induction n as [|n IH]; intros [|c t]; try done.
  cbn. by rewrite chr_eqb_refl, IH.
Qed.

Lemma contains_tail m c t : Str.contains m t = true → Str.contains m (String c t) = true.
Proof. intros H. cbn [Str.contains]. rewrite H. apply orb_true_r. Qed.

Lemma contains_startswith m s : Str.startswith m s = true → Str.contains m s = true.
Proof. intros H. destruct s; cbn [Str.contains]; by rewrite H. Qed.

(** Every match that the scan reports is a piece of the subject. *)
Lemma hits_contains r m : ∀ s skip prev,
  m ∈ hits (scan r skip prev s) → Str.contains m s = true.
Proof.
  induction s as [|c t IH]; intros skip prev.
  - cbn [scan]. destruct skip; [|by rewrite elem_of_nil].
    destruct (match_len r (Cursor prev "")); cbn [hits];
      rewrite ?elem_of_cons, ?elem_of_nil; [|done].
    by intros [->|[]].
  - cbn [scan]. destruct skip as [|n].
    + destruct (match_len r (Cursor prev (String c t))) as [[|k]|];
        cbn [hits]; rewrite ?elem_of_cons.
      * intros [->|H]; [by destruct c|]. apply contains_tail. by eapply IH.
      * intros [->|H].
        -- apply contains_startswith, startswith_take.
        -- apply contains_tail. by eapply IH.
      * intros H. apply contains_tail. by eapply IH.
    + intros H. apply contains_tail. by eapply IH.
Qed.

Lemma findall_contains r s m : m ∈ findall r s → Str.contains m s = true.
Proof. apply hits_contains. Qed.

(** A pattern that begins with a case-insensitive literal matches only
    where the literal stands, up to case. *)
Lemma run_lit_i w : ∀ p k e,
  run (lit_i w) p k = Some e →
  Str.startswith (Str.lower w) (Str.lower (rest p)) = true.
Proof.
  induction w as [|c t IH]; intros [prev s] k e; [done|].
  assert (∀ k', run (chr_i c) (Cursor prev s) k' = Some e →
            ∃ x s', s = String x s' ∧ Chr.eqb (Chr.lower c) (Chr.lower x) = true ∧
                    k' (Cursor (Some x) s') = Some e) as Hc.
  { intros k'. cbn. destruct s as [|x s']; [done|].
    destruct (Chr.eqb (Chr.lower x) (Chr.lower c)) eqn:E; [|done].
    intros H. exists x, s'. split; [done|]. split; [|done].
    apply chr_eqb_eq in E. rewrite E. apply chr_eqb_refl. }
  destruct t as [|c' t'].
  - intros H. apply Hc in H as (x & s' & -> & Hx & _). cbn. by rewrite Hx.
  - change (lit_i (String c (String c' t')))
      with (Cat (chr_i c) (lit_i (String c' t'))).
    cbn [run]. intros H. apply Hc in H as (x & s' & -> & Hx & H).
    apply IH in H. cbn [rest] in H.
    change (Str.startswith (String (Chr.lower c) (Str.lower (String c' t')))
              (String (Chr.lower x) (Str.lower s')) = true).
    cbn [Str.startswith]. by rewrite Hx, H.
Qed.

(** A scan finds nothing in a text that does not contain the literal with
    which the pattern begins. *)
Lemma scan_without_literal w r :
  (∀ p e, run r p Some = Some e →
          Str.startswith w (Str.lower (rest p)) = true) →
  ∀ s skip prev,
    Str.contains w (Str.lower s) = false → hits (scan r skip prev s) = [].
Proof.
  intros Hr. induction s as [|c t IH]; intros skip prev Hs.
  - cbn [scan]. destruct skip; [|done].
    unfold match_len. destruct (run r _ Some) eqn:E; [|done].
    apply Hr in E. cbn in Hs, E. by rewrite E in Hs.
  - change (Str.lower (String c t)) with (String (Chr.lower c) (Str.lower t)) in Hs.
    cbn [Str.contains] in Hs. apply orb_false_iff in Hs as [Hhead Htail].
    cbn [scan]. destruct skip as [|n]; [|by apply IH].
    unfold match_len. destruct (run r _ Some) eqn:E.
    + apply Hr in E. cbn [rest] in E.
      change (Str.lower (String c t)) with (String (Chr.lower c) (Str.lower t)) in E.
      by rewrite E in Hhead.
    + cbn [hits]. by apply IH.
Qed.

Lemma search_section_pattern keyword stops text :
  Str.contains (Str.lower keyword) (Str.lower text) = false →
  search (ResumeParser.section_pattern keyword stops) text = None.
Proof.
  intros H. unfold search, findall, tokens.
  rewrite (scan_without_literal (Str.lower keyword)); [done| |done].
  intros p e. unfold ResumeParser.section_pattern.
  cbn [seq run]. apply run_lit_i.
Qed.

End Matching.

(** ** Summary extraction *)

Section Summary.
Import ResumeParser.

(** C4 (as stated, fails): the document [four_lines] has no summary header
    and a short first line; its first three long lines are lines two to
    four, but the code looks at the first three lines only and returns lines
    two and three. *)
Lemma C4_not_the_first_three_long_lines :
  Str.contains "summary" (Str.lower four_lines) = false ∧
  Str.contains "objective" (Str.lower four_lines) = false ∧
  Str.contains "profile" (Str.lower four_lines) = false ∧
  _extract_summary four_lines
    = Str.join nl ["Built the billing service"; "Ran the data platform"] ∧
  Stated.summary_fallback four_lines
    = Str.join nl ["Built the billing service"; "Ran the data platform";
                   "Taught new engineers"] ∧
  _extract_summary four_lines ≠ Stated.summary_fallback four_lines.
Proof. vm_compute. repeat split; discriminate. Qed.

(** C4 (amended): when the document is ASCII text and none of the words
    summary, objective, profile occurs in it, in any case, the extracted
    summary consists of those of the first three lines of the document that
    are longer than ten characters once stripped, joined by a newline.
    (Outside ASCII a header can match without its word being in the
    lower-cased text, through a letter that only the pattern's case folding
    relates to it.) *)
Theorem C4_summary_fallback text :
  Str.isascii text = true →
  Str.contains "summary" (Str.lower text) = false →
  Str.contains "objective" (Str.lower text) = false →
  Str.contains "profile" (Str.lower text) = false →
  _extract_summary text
  = Str.join nl (filter is_long (take 3 (Str.split_on Chr.newline text))).
Proof.
  intros _ H1 H2 H3. unfold _extract_summary, summary_patterns.
  cbn [fmap list_fmap first_match].
  rewrite !search_section_pattern; done.
Qed.

Lemma C4_summary_fallback_witness :
  Str.isascii four_lines = true ∧
  Str.contains "summary" (Str.lower four_lines) = false ∧
  Str.contains "objective" (Str.lower four_lines) = false ∧
  Str.contains "profile" (Str.lower four_lines) = false ∧
  _extract_summary four_lines
  = Str.join nl (filter is_long (take 3 (Str.split_on Chr.newline four_lines))).
Proof.
  repeat (split; [vm_compute; reflexivity|]).
  apply (C4_summary_fallback four_lines); vm_compute; reflexivity.
Defined.

End Summary.

(** ** The two skill extractors *)

Section SkillExtractors.
Import ATSScorer.

Lemma elem_of_found (P : string → bool) (x : string) : ∀ (l : list string) (A : gset string),
  x ∈ foldl (λ acc s, if P s then acc ∪ {[s]} else acc) A l ↔
  x ∈ A ∨ (x ∈ l ∧ P x = true).
Proof.
  induction l as [|s l IH]; intros A; cbn [foldl].
  - rewrite elem_of_nil. naive_solver.
  - rewrite IH, elem_of_cons. destruct (P s) eqn:E.
    + rewrite elem_of_union, elem_of_singleton.
      split; [intros [[?| ->]|[? ?]]|intros [?|[[->|?] ?]]]; eauto.
    + split; [intros [?|[? ?]]|intros [?|[[->|?] ?]]]; eauto; congruence.
Qed.

(** The scoring engine reports exactly the terms of its own vocabulary that
    occur in the lower-cased text. *)
Lemma elem_of_extract_skills_from_text text s :
  s ∈ _extract_skills_from_text text ↔
  s ∈ tech_skills ∧ Str.contains s (Str.lower text) = true.
Proof.
  unfold _extract_skills_from_text. rewrite elem_of_elements.
  rewrite (elem_of_found (λ s, Str.contains s (Str.lower text))).
  rewrite elem_of_empty. naive_solver.
Qed.

Lemma elem_of_entities (x : string) : ∀ (doc : entities) (A : gset string),
  x ∈ A →
  x ∈ foldl (λ skills '(ent_text, ent_label),
               if bool_decide (ent_label ∈ ["ORG"; "PRODUCT"; "TECH"])
               then skills ∪ {[ent_text]} else skills) A doc.
Proof.
  induction doc as [|[t l] doc IH]; intros A HA; cbn [foldl]; [done|].
  apply IH. destruct (bool_decide _); [|done]. set_solver.
Qed.

(** What the pattern pass of the parser matches ends up, title-cased, among
    the skills of the resume. *)
Lemma elem_of_extract_skills doc text m :
  m ∈ ResumeParser.pattern_matches text →
  Str.title m ∈ ResumeParser._extract_skills doc text.
Proof.
  intros Hm. unfold ResumeParser._extract_skills, ResumeParser.sorted.
  rewrite merge_sort_Permutation, elem_of_elements.
  apply elem_of_entities. rewrite elem_of_list_to_set.
  by apply list_elem_of_fmap_2.
Qed.

Lemma pattern_matches_contains text m :
  m ∈ ResumeParser.pattern_matches text → Str.contains m (Str.lower text) = true.
Proof.
  unfold ResumeParser.pattern_matches. rewrite list_elem_of_join.
  intros (l & Hm & Hl). apply list_elem_of_fmap in Hl as (r & -> & _).
  by eapply findall_contains.
Qed.

(** C2 (as stated, fails): on the text [mongodb] the scoring engine reports
    [go] and [mongodb], which are in its vocabulary and occur as substrings;
    the pattern pass of the parser has neither word bounded by non-word
    characters and reports nothing. *)
Lemma C2_vocabularies_differ :
  _extract_skills_from_text "mongodb" = ["go"; "mongodb"] ∧
  ResumeParser._extract_skills [] "mongodb" = [] ∧
  (list_to_set (_extract_skills_from_text "mongodb") : gset string)
    ≠ list_to_set (ResumeParser._extract_skills [] "mongodb").
Proof.
  assert (_extract_skills_from_text "mongodb" = ["go"; "mongodb"]) as H1
    by (vm_compute; reflexivity).
  assert (ResumeParser._extract_skills [] "mongodb" = []) as H2
    by (vm_compute; reflexivity).
  rewrite H1, H2. repeat split. intros H.
  assert ("go" ∈ (list_to_set [] : gset string)) as Hgo.
  { rewrite <- H, elem_of_list_to_set. apply list_elem_of_here. }
  by apply elem_of_empty in Hgo.
Qed.

(** Where they agree, the casing differs. *)
Lemma extractors_on_python :
  _extract_skills_from_text "python" = ["python"] ∧
  ResumeParser._extract_skills [] "python" = ["Python"].
Proof. vm_compute. done. Qed.

(** C2 (amended): the scoring engine extracts the skills of a job
    description with its own vocabulary [tech_skills], reporting a term
    exactly when it occurs as a substring of the lower-cased text; it agrees
    with the pattern pass of the resume parser to this extent: whatever that
    pass matches and also belongs to [tech_skills] is reported by the scoring
    engine, in lower case, while the parser reports it title-cased. *)
Theorem C2_extractors text :
  (∀ s, s ∈ _extract_skills_from_text text ↔
        s ∈ tech_skills ∧ Str.contains s (Str.lower text) = true) ∧
  (∀ doc m, m ∈ ResumeParser.pattern_matches text → m ∈ tech_skills →
            m ∈ _extract_skills_from_text text ∧
            Str.title m ∈ ResumeParser._extract_skills doc text).
Proof.
  split; [apply elem_of_extract_skills_from_text|].
  intros doc m Hm Hv. split; [|by apply elem_of_extract_skills].
  apply elem_of_extract_skills_from_text. split; [done|].
  by apply pattern_matches_contains.
Qed.

Lemma C2_extractors_witness :
  "python" ∈ ResumeParser.pattern_matches "Python and Rust" ∧
  "python" ∈ tech_skills ∧
  "python" ∈ _extract_skills_from_text "Python and Rust" ∧
  Str.title "python" ∈ ResumeParser._extract_skills [] "Python and Rust".
Proof.
  assert ("python" ∈ ResumeParser.pattern_matches "Python and Rust") as H1.
  { apply (bool_decide_unpack _). vm_compute. exact I. }
  assert ("python" ∈ tech_skills) as H2.
  { apply (bool_decide_unpack _). vm_compute. exact I. }
  split; [exact H1|]. split; [exact H2|].
  exact (proj2 (C2_extractors "Python and Rust") [] "python" H1 H2).
Defined.

End SkillExtractors.

(** ** The object store *)

Section Store.
Import Py.

Implicit Types (h g : heap) (l : loc) (v : value) (d : gmap string value).

Lemma bind_ok {A B} (m : M A) (f : A → M B) h a h1 :
  m h = Ok (a, h1) → bind m f h = f a h1.
Proof. unfold bind. by intros ->. Qed.

Lemma alloc_ok o h : ∃ l, alloc o h = Ok (l, <[l := o]> h) ∧ h !! l = None.
Proof.
  exists (fresh (dom h)). split; [done|]. apply not_elem_of_dom, is_fresh.
Qed.

Lemma get_dict_ok l d h : h !! l = Some (Dict d) → get_dict l h = Ok (d, h).
Proof. unfold get_dict. by intros ->. Qed.

Lemma get_list_ok l vs h : h !! l = Some (List vs) → get_list l h = Ok (vs, h).
Proof. unfold get_list. by intros ->. Qed.

Lemma dict_copy_ok l d h :
  h !! l = Some (Dict d) →
  ∃ l', dict_copy l h = Ok (l', <[l' := Dict d]> h) ∧ h !! l' = None.
Proof.
  intros H. destruct (alloc_ok (Dict d) h) as (l' & Ha & Hf).
  exists l'. split; [|done]. unfold dict_copy.
  by rewrite (bind_ok _ _ _ _ _ (get_dict_ok _ _ _ H)).
Qed.

Lemma list_copy_ok l vs h :
  h !! l = Some (List vs) →
  ∃ l', list_copy l h = Ok (l', <[l' := List vs]> h) ∧ h !! l' = None.
Proof.
  intros H. destruct (alloc_ok (List vs) h) as (l' & Ha & Hf).
  exists l'. split; [|done]. unfold list_copy.
  by rewrite (bind_ok _ _ _ _ _ (get_list_ok _ _ _ H)).
Qed.

Lemma dict_getitem_ok l key d v h :
  h !! l = Some (Dict d) → d !! key = Some v → dict_getitem l key h = Ok (v, h).
Proof.
  intros H Hk. unfold dict_getitem.
  rewrite (bind_ok _ _ _ _ _ (get_dict_ok _ _ _ H)). by rewrite Hk.
Qed.

Lemma dict_get_ok l key otherwise d h :
  h !! l = Some (Dict d) →
  dict_get l key otherwise h = Ok (default otherwise (d !! key), h).
Proof.
  intros H. unfold dict_get.
  by rewrite (bind_ok _ _ _ _ _ (get_dict_ok _ _ _ H)).
Qed.

Lemma dict_setitem_ok l key v d h :
  h !! l = Some (Dict d) →
  dict_setitem l key v h = Ok ((), <[l := Dict (<[key := v]> d)]> h).
Proof.
  intros H. unfold dict_setitem.
  by rewrite (bind_ok _ _ _ _ _ (get_dict_ok _ _ _ H)).
Qed.

Lemma list_append_ok l v vs h :
  h !! l = Some (List vs) →
  list_append l v h = Ok ((), <[l := List (vs ++ [v])]> h).
Proof.
  intros H. unfold list_append.
  by rewrite (bind_ok _ _ _ _ _ (get_list_ok _ _ _ H)).
Qed.

Lemma list_extend_ok l l' vs ws h :
  h !! l = Some (List vs) → h !! l' = Some (List ws) →
  list_extend l l' h = Ok ((), <[l := List (vs ++ ws)]> h).
Proof.
  intros H H'. unfold list_extend.
  rewrite (bind_ok _ _ _ _ _ (get_list_ok _ _ _ H')).
  by rewrite (bind_ok _ _ _ _ _ (get_list_ok _ _ _ H)).
Qed.

Lemma strings_of_ok (ss : list string) h : strings_of (VStr <$> ss) h = Ok (ss, h).
Proof.
  induction ss as [|s ss IH]; [done|].
  cbn [fmap list_fmap strings_of as_str].
  rewrite (bind_ok _ _ h s h) by done.
  change (list_fmap string value VStr ss) with (VStr <$> ss).
  by rewrite (bind_ok _ _ _ _ _ IH).
Qed.

(** Reading is stable under growth of the store. *)

Lemma str_inv v s : Load.str v = Some s → v = VStr s.
Proof. destruct v; cbn; congruence. Qed.

Lemma mapM_str_inv vs ss : mapM Load.str vs = Some ss → vs = VStr <$> ss.
Proof.
  rewrite mapM_Some. induction 1 as [|v s vs ss Hv _ IH]; [done|].
  cbn. by rewrite (str_inv _ _ Hv), IH.
Qed.

Lemma mapM_str (ss : list string) : mapM Load.str (VStr <$> ss) = Some ss.
Proof.
  apply mapM_Some. induction ss; cbn; constructor; done.
Qed.

Lemma mapM_mono {A B} (f f' : A → option B) xs ys :
  (∀ x y, f x = Some y → f' x = Some y) →
  mapM f xs = Some ys → mapM f' xs = Some ys.
Proof. rewrite !mapM_Some. intros Hf H. by eapply Forall2_impl. Qed.

Lemma dict_mono h h' v d : h ⊆ h' → Load.dict h v = Some d → Load.dict h' v = Some d.
Proof.
  intros Hsub. destruct v as [|l]; [done|]. unfold Load.dict.
  destruct (h !! l) as [[d'|]|] eqn:E; try done.
  intros [= ->]. by rewrite (lookup_weaken _ _ _ _ E Hsub).
Qed.

Lemma items_mono h h' v vs :
  h ⊆ h' → Load.items h v = Some vs → Load.items h' v = Some vs.
Proof.
  intros Hsub. destruct v as [|l]; [done|]. unfold Load.items.
  destruct (h !! l) as [[|vs']|] eqn:E; try done.
  intros [= ->]. by rewrite (lookup_weaken _ _ _ _ E Hsub).
Qed.

Lemma strs_mono h h' v ss :
  h ⊆ h' → Load.strs h v = Some ss → Load.strs h' v = Some ss.
Proof.
  intros Hsub. unfold Load.strs.
  destruct (Load.items h v) as [vs|] eqn:E; [|done].
  by rewrite (items_mono _ _ _ _ Hsub E).
Qed.

Lemma field_mono {A} (f f' : value → option A) d key a :
  (∀ v a, f v = Some a → f' v = Some a) →
  d !! key ≫= f = Some a → d !! key ≫= f' = Some a.
Proof. intros Hf. destruct (d !! key); cbn; [apply Hf|done]. Qed.

Ltac open_field H :=
  match type of H with
  | (?m ≫= ?k) = Some _ =>
      let E := fresh "E" in
      destruct m eqn:E; cbn [mbind option_bind] in H |- *; [|discriminate H]
  end.

Lemma job_at_mono h h' v j :
  h ⊆ h' → Load.job_at h v = Some j → Load.job_at h' v = Some j.
Proof.
  intros Hsub. unfold Load.job_at. intros H.
  open_field H. rewrite (dict_mono _ _ _ _ Hsub E). cbn [mbind option_bind].
  open_field H. open_field H. open_field H.
  rewrite (field_mono _ (Load.strs h') _ _ _ (λ v a, strs_mono h h' v a Hsub) E2).
  cbn [mbind option_bind].
  open_field H.
  rewrite (field_mono _ (Load.strs h') _ _ _ (λ v a, strs_mono h h' v a Hsub) E3).
  done.
Qed.

Lemma degree_at_mono h h' v j :
  h ⊆ h' → Load.degree_at h v = Some j → Load.degree_at h' v = Some j.
Proof.
  intros Hsub. unfold Load.degree_at. intros H.
  open_field H. rewrite (dict_mono _ _ _ _ Hsub E). cbn [mbind option_bind].
  open_field H. open_field H. open_field H.
  rewrite (field_mono _ (Load.strs h') _ _ _ (λ v a, strs_mono h h' v a Hsub) E2).
  cbn [mbind option_bind].
  open_field H.
  rewrite (field_mono _ (Load.strs h') _ _ _ (λ v a, strs_mono h h' v a Hsub) E3).
  done.
Qed.

Lemma project_at_mono h h' v j :
  h ⊆ h' → Load.project_at h v = Some j → Load.project_at h' v = Some j.
Proof.
  intros Hsub. unfold Load.project_at. intros H.
  open_field H. rewrite (dict_mono _ _ _ _ Hsub E). cbn [mbind option_bind].
  open_field H. open_field H.
  rewrite (field_mono _ (Load.strs h') _ _ _ (λ v a, strs_mono h h' v a Hsub) E1).
  done.
Qed.

Lemma person_at_mono h h' v j :
  h ⊆ h' → Load.person_at h v = Some j → Load.person_at h' v = Some j.
Proof.
  intros Hsub. unfold Load.person_at. intros H.
  open_field H. by rewrite (dict_mono _ _ _ _ Hsub E).
Qed.

(** The loops *)

Import ResumeOptimizer.

Ltac binds := unfold mbind, mret, store_bind, store_ret.
Ltac step H := rewrite (bind_ok _ _ _ _ _ H).

Lemma optimize_bullets_ok ob : ∀ (bs : list string) acc h,
  h !! ob = Some (List acc) →
  optimize_bullets ob (VStr <$> bs) h
  = Ok ((), <[ob := List (acc ++ (VStr <$> (optimized_bullet <$> bs)))]> h).
Proof.
  induction bs as [|b bs IH]; intros acc h Hob.
  - cbn. by rewrite app_nil_r, insert_id.
  - cbn [fmap list_fmap optimize_bullets]. binds.
    rewrite (bind_ok _ _ h b h) by done.
    step (list_append_ok _ (VStr (optimized_bullet b)) _ _ Hob).
    change (list_fmap string value VStr bs) with (VStr <$> bs).
    binds. rewrite (IH (acc ++ [VStr (optimized_bullet b)]))
      by apply lookup_insert_eq.
    by rewrite insert_insert_eq, <- app_assoc.
Qed.

Lemma append_unique_ok u : ∀ (names : list string) seen acc h,
  h !! u = Some (List acc) →
  append_unique u seen names h
  = Ok ((), <[u := List (acc ++ (VStr <$> unique_skills seen names))]> h).
Proof.
  induction names as [|s names IH]; intros seen acc h Hu.
  - cbn. by rewrite app_nil_r, insert_id.
  - cbn [append_unique unique_skills]. destruct (decide _); [by apply IH|].
    binds. step (list_append_ok _ (VStr s) _ _ Hu).
    rewrite (IH _ (acc ++ [VStr s])) by apply lookup_insert_eq.
    by rewrite insert_insert_eq, <- app_assoc.
Qed.

Lemma lookup_None_weaken {A} (m1 m2 : gmap positive A) l :
  m2 !! l = None → m1 ⊆ m2 → m1 !! l = None.
Proof.
  intros H2 Hsub. destruct (m1 !! l) eqn:E; [|done].
  by rewrite (lookup_weaken _ _ _ _ E Hsub) in H2.
Qed.

Lemma strs_inv g v ss :
  Load.strs g v = Some ss → ∃ l, v = VRef l ∧ g !! l = Some (List (VStr <$> ss)).
Proof.
  unfold Load.strs, Load.items. destruct v as [|l]; [done|].
  destruct (g !! l) as [[|vs]|] eqn:E; try done. cbn [mbind option_bind].
  intros H. exists l. by rewrite <- (mapM_str_inv _ _ H).
Qed.

Lemma strs_intro g l (ss : list string) :
  g !! l = Some (List (VStr <$> ss)) → Load.strs g (VRef l) = Some ss.
Proof.
  intros H. unfold Load.strs, Load.items. rewrite H. cbn [mbind option_bind].
  apply mapM_str.
Qed.

Lemma job_at_inv g v j :
  Load.job_at g v = Some j →
  ∃ l d dl,
    v = VRef l ∧ g !! l = Some (Dict d) ∧
    d !! "title" ≫= Load.str = Some (title j) ∧
    d !! "company" ≫= Load.str = Some (company j) ∧
    d !! "dates" ≫= Load.strs g = Some (dates j) ∧
    d !! "description" = Some (VRef dl) ∧
    g !! dl = Some (List (VStr <$> description j)).
Proof.
  unfold Load.job_at. intros H.
  destruct (Load.dict g v) as [d|] eqn:Ed; [|done]. cbn [mbind option_bind] in H.
  destruct (d !! "title" ≫= Load.str) as [t|] eqn:Et; [|done].
  cbn [mbind option_bind] in H.
  destruct (d !! "company" ≫= Load.str) as [c|] eqn:Ec; [|done].
  cbn [mbind option_bind] in H.
  destruct (d !! "dates" ≫= Load.strs g) as [ds|] eqn:Eds; [|done].
  cbn [mbind option_bind] in H.
  destruct (d !! "description" ≫= Load.strs g) as [bs|] eqn:Eb; [|done].
  cbn [mbind option_bind] in H. injection H as <-.
  destruct v as [|l]; [done|]. unfold Load.dict in Ed.
  destruct (g !! l) as [[d'|]|] eqn:El; try done. injection Ed as ->.
  destruct (d !! "description") as [vd|] eqn:Evd; [|done].
  cbn [mbind option_bind] in Eb.
  apply strs_inv in Eb as (dl & -> & Hdl).
  by exists l, d, dl.
Qed.

Lemma job_at_intro g l d dl t c ds (bs : list string) :
  g !! l = Some (Dict d) →
  d !! "title" ≫= Load.str = Some t →
  d !! "company" ≫= Load.str = Some c →
  d !! "dates" ≫= Load.strs g = Some ds →
  d !! "description" = Some (VRef dl) →
  g !! dl = Some (List (VStr <$> bs)) →
  Load.job_at g (VRef l) = Some (Job t c ds bs).
Proof.
  intros Hl Ht Hc Hds Hd Hdl. unfold Load.job_at, Load.dict.
  rewrite Hl. cbn [mbind option_bind].
  rewrite Ht. cbn [mbind option_bind].
  rewrite Hc. cbn [mbind option_bind].
  rewrite Hds. cbn [mbind option_bind].
  rewrite Hd. cbn [mbind option_bind].
  by rewrite (strs_intro _ _ _ Hdl).
Qed.

(** One pass of the loop of [_optimize_experience] appends to the list at
    [oe] a new job object for each job; [g] is a part of the store, without
    [oe], in which the jobs read as [js], and [g'] is such a part after the
    pass, in which the new objects read as the optimized jobs. *)
Lemma optimize_jobs_ok oe : ∀ jobs (js : list job) acc h g,
  h !! oe = Some (List acc) → g ⊆ h → g !! oe = None →
  mapM (Load.job_at g) jobs = Some js →
  ∃ h' g' new,
    optimize_jobs oe jobs h = Ok ((), h') ∧
    h' !! oe = Some (List (acc ++ new)) ∧
    g ⊆ g' ∧ g' ⊆ h' ∧ g' !! oe = None ∧
    (∀ l, is_Some (h !! l) → g !! l = None → g' !! l = None) ∧
    (∀ l o, l ≠ oe → h !! l = Some o → h' !! l = Some o) ∧
    mapM (Load.job_at g') new = Some (optimized_job <$> js).
Proof.
  induction jobs as [|v jobs IH]; intros js acc h g Hoe Hg Hgoe Hjs.
  { apply mapM_Some, Forall2_nil_inv_l in Hjs as ->.
    exists h, g, []. rewrite app_nil_r. by repeat split. }
  apply mapM_Some, Forall2_cons_inv_l in Hjs as (j & js' & Hj & Hjs' & ->).
  apply mapM_Some in Hjs'.
  destruct (job_at_inv _ _ _ Hj)
    as (jl & d & dl & -> & Hjl & Ht & Hc & Hds & Hd & Hdl).
  pose proof (lookup_weaken _ _ _ _ Hjl Hg) as Hjl'.
  pose proof (lookup_weaken _ _ _ _ Hdl Hg) as Hdl'.
  (* the objects that the body creates *)
  destruct (dict_copy_ok _ _ _ Hjl') as (oj & Hcopy & Foj).
  set (h1 := <[oj := Dict d]> h) in *.
  destruct (alloc_ok (List []) h1) as (ob & Hob & Fob).
  set (h2 := <[ob := List []]> h1) in *.
  destruct (alloc_ok (List []) h2) as (em & Hem & Fem).
  set (h3 := <[em := List []]> h2) in *.
  assert (oj ≠ oe) as N1 by (intros ->; congruence).
  assert (ob ≠ oj) as N2 by (intros ->; unfold h1 in Fob; by rewrite lookup_insert_eq in Fob).
  assert (em ≠ ob) as N3 by (intros ->; unfold h2 in Fem; by rewrite lookup_insert_eq in Fem).
  assert (h !! ob = None) as Fob'.
  { unfold h1 in Fob. by rewrite lookup_insert_ne in Fob. }
  assert (h !! em = None ∧ em ≠ oj) as [Fem' N4].
  { unfold h2, h1 in Fem. rewrite lookup_insert_ne in Fem by done.
    split; [|intros ->; by rewrite lookup_insert_eq in Fem].
    destruct (decide (oj = em)) as [->|]; [by rewrite lookup_insert_eq in Fem|].
    by rewrite lookup_insert_ne in Fem. }
  assert (ob ≠ oe) as N5 by (intros ->; congruence).
  assert (em ≠ oe) as N6 by (intros ->; congruence).
  assert (jl ≠ oj ∧ jl ≠ ob ∧ jl ≠ em) as (N7 & N8 & N9)
    by (repeat split; intros ->; congruence).
  assert (dl ≠ oj ∧ dl ≠ ob ∧ dl ≠ em) as (N10 & N11 & N12)
    by (repeat split; intros ->; congruence).
  set (bullets := VStr <$> (optimized_bullet <$> description j)).
  set (d' := <["description" := VRef ob]> d).
  set (h4 := <[ob := List bullets]> h3).
  set (h5 := <[oj := Dict d']> h4).
  set (h6 := <[oe := List (acc ++ [VRef oj])]> h5).
  assert (h3 !! jl = Some (Dict d)) as H3jl.
  { unfold h3, h2, h1. by rewrite !lookup_insert_ne. }
  assert (h3 !! dl = Some (List (VStr <$> description j))) as H3dl.
  { unfold h3, h2, h1. by rewrite !lookup_insert_ne. }
  assert (h3 !! ob = Some (List [])) as H3ob.
  { unfold h3, h2. rewrite lookup_insert_ne by done. apply lookup_insert_eq. }
  assert (h4 !! oj = Some (Dict d)) as H4oj.
  { unfold h4, h3, h2, h1. rewrite !lookup_insert_ne by done.
    apply lookup_insert_eq. }
  assert (h5 !! oe = Some (List acc)) as H5oe.
  { unfold h5, h4, h3, h2, h1. by rewrite !lookup_insert_ne. }
  (* the part of the store in which the new job reads *)
  set (g1 := <[oj := Dict d']> (<[ob := List bullets]> g)).
  assert (g !! oj = None) as Goj by (by eapply lookup_None_weaken).
  assert (g !! ob = None) as Gob by (by eapply lookup_None_weaken).
  assert (g ⊆ g1) as Hgg1.
  { unfold g1. apply insert_subseteq_r; [done|]. by apply insert_subseteq. }
  assert (g1 ⊆ h6) as Hg1h6.
  { apply map_subseteq_spec. intros l o. unfold g1, h6, h5, h4, h3, h2, h1.
    destruct (decide (l = oj)) as [->|];
      [rewrite lookup_insert_eq; intros [= <-];
       rewrite lookup_insert_ne by done; by rewrite lookup_insert_eq|].
    rewrite (lookup_insert_ne _ oj l) by done.
    destruct (decide (l = ob)) as [->|];
      [rewrite lookup_insert_eq; intros [= <-];
       rewrite !(lookup_insert_ne _ _ ob) by done; by rewrite lookup_insert_eq|].
    rewrite (lookup_insert_ne _ ob l) by done. intros Hl.
    pose proof (lookup_weaken _ _ _ _ Hl Hg) as Hl'.
    assert (l ≠ oe) by (intros ->; congruence).
    assert (l ≠ em) by (intros ->; congruence).
    by rewrite !lookup_insert_ne. }
  assert (g1 !! oe = None) as Hg1oe.
  { unfold g1. by rewrite !lookup_insert_ne. }
  assert (Load.job_at g1 (VRef oj) = Some (optimized_job j)) as Hnew.
  { apply (job_at_intro g1 oj d' ob).
    - apply lookup_insert_eq.
    - unfold d'. by rewrite lookup_insert_ne.
    - unfold d'. by rewrite lookup_insert_ne.
    - unfold d'. rewrite lookup_insert_ne by done.
      eapply field_mono; [|exact Hds]. intros ? ?. by apply strs_mono.
    - apply lookup_insert_eq.
    - unfold g1. rewrite lookup_insert_ne by done. apply lookup_insert_eq. }
  destruct (IH js' (acc ++ [VRef oj]) h6 g1)
    as (h' & g' & new & Hrun & Hoe' & Hg1g' & Hg'h' & Hg'oe & Hfresh & Hframe & Hread).
  { apply lookup_insert_eq. }
  { done. }
  { done. }
  { eapply mapM_mono; [|exact Hjs']. intros ? ?. by apply job_at_mono. }
  exists h', g', (VRef oj :: new). split.
  { cbn [optimize_jobs]. binds. cbn [as_ref].
    rewrite (bind_ok _ _ h jl h) by done.
    step Hcopy. step Hob. step Hem.
    step (dict_get_ok jl "description" (VRef em) d h3 H3jl).
    rewrite Hd. cbn [default as_ref].
    rewrite (bind_ok _ _ h3 dl h3) by done.
    step (get_list_ok _ _ _ H3dl).
    step (optimize_bullets_ok ob (description j) [] h3 H3ob).
    cbn [app]. fold bullets. fold h4.
    step (dict_setitem_ok oj "description" (VRef ob) d h4 H4oj).
    fold d'. fold h5.
    step (list_append_ok oe (VRef oj) acc h5 H5oe).
    exact Hrun. }
  split; [by rewrite Hoe', <- app_assoc|].
  split; [by etrans|].
  split; [done|]. split; [done|].
  split.
  { intros l Hl Hgl. apply Hfresh.
    - destruct Hl as [o Hl]. destruct (decide (l = oe)) as [->|];
        [unfold h6; rewrite lookup_insert_eq; by eexists|].
      exists o. unfold h6, h5, h4, h3, h2, h1.
      assert (l ≠ oj ∧ l ≠ ob ∧ l ≠ em) as (? & ? & ?)
        by (repeat split; intros ->; congruence).
      by rewrite !lookup_insert_ne.
    - destruct Hl as [o Hl].
      assert (l ≠ oj ∧ l ≠ ob) as (? & ?) by (split; intros ->; congruence).
      unfold g1. by rewrite !lookup_insert_ne. }
  split.
  { intros l o Hne Hl. apply Hframe; [done|].
    assert (l ≠ oj ∧ l ≠ ob ∧ l ≠ em) as (? & ? & ?)
      by (repeat split; intros ->; congruence).
    unfold h6, h5, h4, h3, h2, h1. by rewrite !lookup_insert_ne. }
  apply mapM_Some. cbn [fmap list_fmap]. apply Forall2_cons; split.
  - by apply (job_at_mono g1).
  - by apply mapM_Some.
Qed.

(** [_optimize_experience] only adds objects: the result is a new list, the
    store it started from is untouched, and the new list reads as the
    optimized jobs. *)
Lemma optimize_experience_ok e jobs (js : list job) h g :
  g ⊆ h → g !! e = Some (List jobs) → mapM (Load.job_at g) jobs = Some js →
  ∃ oe h' g',
    _optimize_experience e h = Ok (oe, h') ∧ h !! oe = None ∧ h ⊆ h' ∧
    g ⊆ g' ∧ g' ⊆ h' ∧
    (∀ l, is_Some (h !! l) → g !! l = None → g' !! l = None) ∧
    Load.jobs_at g' (VRef oe) = Some (optimized_job <$> js).
Proof.
  intros Hg He Hjs.
  destruct (alloc_ok (List []) h) as (oe & Halloc & Foe).
  set (h1 := <[oe := List []]> h) in *.
  assert (g !! oe = None) as Goe by (by eapply lookup_None_weaken).
  assert (e ≠ oe) as Ne.
  { intros ->. by rewrite (lookup_weaken _ _ _ _ He Hg) in Foe. }
  assert (h1 !! e = Some (List jobs)) as H1e.
  { unfold h1. rewrite lookup_insert_ne by done. by eapply lookup_weaken. }
  destruct (optimize_jobs_ok oe jobs js [] h1 g)
    as (h' & g1 & new & Hrun & Hoe' & Hgg1 & Hg1h' & Hg1oe & Hfresh & Hframe & Hread).
  { apply lookup_insert_eq. }
  { etrans; [exact Hg|]. by apply insert_subseteq. }
  { done. }
  { done. }
  cbn [app] in Hoe'.
  exists oe, h', (<[oe := List new]> g1). split.
  { unfold _optimize_experience. binds. step Halloc.
    step (get_list_ok _ _ _ H1e). by step Hrun. }
  split; [done|]. split.
  { apply map_subseteq_spec. intros l o Hl. apply Hframe.
    - intros ->. congruence.
    - unfold h1. rewrite lookup_insert_ne; [done|]. intros ->. congruence. }
  split; [etrans; [exact Hgg1|]; by apply insert_subseteq|].
  split; [by apply insert_subseteq_l|].
  split.
  { intros l Hl Hgl. assert (l ≠ oe) by (intros ->; destruct Hl; congruence).
    rewrite lookup_insert_ne by done. apply Hfresh; [|done].
    destruct Hl as [o Hl]. exists o. unfold h1. by rewrite lookup_insert_ne. }
  unfold Load.jobs_at, Load.items. rewrite lookup_insert_eq.
  cbn [mbind option_bind].
  eapply mapM_mono; [|exact Hread]. intros ? ?. apply job_at_mono.
  by apply insert_subseteq.
Qed.

(** [_enhance_skills] only adds objects too; its result is a new list of
    the enhanced skills. *)
Lemma enhance_skills_ok k (ss : list string) jd h g :
  g ⊆ h → g !! k = Some (List (VStr <$> ss)) →
  ∃ u h' g',
    _enhance_skills k jd h = Ok (u, h') ∧ h !! u = None ∧ h ⊆ h' ∧
    g ⊆ g' ∧ g' ⊆ h' ∧
    (∀ l, is_Some (h !! l) → g !! l = None → g' !! l = None) ∧
    Load.strs g' (VRef u) = Some (enhanced_skills ss jd).
Proof.
  intros Hg Hk. pose proof (lookup_weaken _ _ _ _ Hk Hg) as Hk'.
  destruct (list_copy_ok _ _ _ Hk') as (es & Hcopy & Fes).
  set (h1 := <[es := List (VStr <$> ss)]> h) in *.
  assert (k ≠ es) as Nk by (intros ->; congruence).
  set (extra := if negb (String.eqb jd "") then _suggest_skills ss jd else []).
  assert (∃ h3,
    extend_with_missing es k jd h1 = Ok ((), h3) ∧
    h3 !! es = Some (List (VStr <$> (ss ++ extra))) ∧
    (∀ l o, l ≠ es → h1 !! l = Some o → h3 !! l = Some o) ∧
    (∀ l, h3 !! l = None → h1 !! l = None)) as (h3 & Hif & H3es & H13 & H31).
  { unfold extra, extend_with_missing. destruct (negb (String.eqb jd "")).
    - destruct (alloc_ok (List (VStr <$> _suggest_skills ss jd)) h1)
        as (ms & Hms & Fms).
      set (h2 := <[ms := List (VStr <$> _suggest_skills ss jd)]> h1) in *.
      assert (ms ≠ es) as Nm.
      { intros ->. unfold h1 in Fms. by rewrite lookup_insert_eq in Fms. }
      exists (<[es := List ((VStr <$> ss) ++ (VStr <$> _suggest_skills ss jd))]> h2).
      split; [|split; [|split]].
      + binds.
        assert (h1 !! k = Some (List (VStr <$> ss))) as H1k
          by (unfold h1; by rewrite lookup_insert_ne).
        step (get_list_ok _ _ _ H1k). step (strings_of_ok ss h1). step Hms.
        apply list_extend_ok.
        * unfold h2, h1. rewrite lookup_insert_ne by done. apply lookup_insert_eq.
        * apply lookup_insert_eq.
      + rewrite lookup_insert_eq. by rewrite fmap_app.
      + intros l o Hne Hl. rewrite lookup_insert_ne by done. unfold h2.
        rewrite lookup_insert_ne; [done|]. intros ->. congruence.
      + intros l Hl. destruct (decide (l = es)) as [->|];
          [by rewrite lookup_insert_eq in Hl|].
        rewrite lookup_insert_ne in Hl by done. unfold h2 in Hl.
        destruct (decide (l = ms)) as [->|]; [done|].
        by rewrite lookup_insert_ne in Hl.
    - exists h1. rewrite app_nil_r. split; [done|]. split; [|done].
      apply lookup_insert_eq. }
  destruct (alloc_ok (List []) h3) as (u & Hu & Fu).
  set (h4 := <[u := List []]> h3) in *.
  pose proof (H31 _ Fu) as Fu1.
  assert (u ≠ es) as Nu by (intros ->; congruence).
  assert (h !! u = None) as Fu0.
  { unfold h1 in Fu1. by rewrite lookup_insert_ne in Fu1. }
  set (result := List (VStr <$> unique_skills ∅ (ss ++ extra))).
  exists u, (<[u := result]> h3), (<[u := result]> g). split.
  { unfold _enhance_skills. binds. step Hcopy. fold h1.
    step Hif.
    step Hu.
    assert (h4 !! es = Some (List (VStr <$> (ss ++ extra)))) as H4es
      by (unfold h4; by rewrite lookup_insert_ne).
    step (get_list_ok _ _ _ H4es). step (strings_of_ok (ss ++ extra) h4).
    step (append_unique_ok u (ss ++ extra) ∅ [] h4 ltac:(apply lookup_insert_eq)).
    unfold h4. by rewrite insert_insert_eq. }
  split; [done|].
  assert (h ⊆ h3) as Hh3.
  { apply map_subseteq_spec. intros l o Hl. apply H13.
    - intros ->. congruence.
    - unfold h1. rewrite lookup_insert_ne; [done|]. intros ->. congruence. }
  split; [etrans; [exact Hh3|]; by apply insert_subseteq|].
  assert (g !! u = None) as Gu by (by eapply lookup_None_weaken).
  split; [by apply insert_subseteq|].
  split; [apply insert_mono; by etrans|].
  split.
  { intros l Hl Hgl. rewrite lookup_insert_ne; [done|].
    intros ->. destruct Hl. congruence. }
  apply strs_intro. by rewrite lookup_insert_eq.
Qed.

(** [_apply_regional_formatting] adds the key [regional_format] to the dict
    it is given and leaves every other object as it was. *)
Lemma apply_regional_formatting_ok o region d h :
  h !! o = Some (Dict d) →
  ∃ h' v,
    _apply_regional_formatting o region h = Ok (o, h') ∧
    h' !! o = Some (Dict (<["regional_format" := v]> d)) ∧
    (∀ g, g ⊆ h → g !! o = None → g ⊆ h').
Proof.
  intros Ho.
  destruct (alloc_ok (region_info "color" "MM/DD/YYYY") h) as (us & Hus & Fus).
  set (h1 := <[us := _]> h) in *.
  destruct (alloc_ok (region_info "colour" "DD/MM/YYYY") h1) as (uk & Huk & Fuk).
  set (h2 := <[uk := _]> h1) in *.
  destruct (alloc_ok (region_info "colour" "DD/MM/YYYY") h2) as (ind & Hind & Find).
  set (h3 := <[ind := _]> h2) in *.
  set (table := ({[ "US" := VRef us; "UK" := VRef uk; "India" := VRef ind ]}
                 : gmap string value)).
  destruct (alloc_ok (Dict table) h3) as (rc & Hrc & Frc).
  set (h4 := <[rc := Dict table]> h3) in *.
  assert (h ⊆ h4) as Hsub.
  { etrans; [by apply insert_subseteq|]. etrans; [by apply insert_subseteq|].
    etrans; [by apply insert_subseteq|]. by apply insert_subseteq. }
  set (v := default (VRef us) (table !! region)).
  exists (<[o := Dict (<["regional_format" := v]> d)]> h4), v. split.
  { unfold _apply_regional_formatting. binds.
    step Hus. step Huk. step Hind. fold table. step Hrc.
    step (dict_getitem_ok rc "US" table (VRef us) h4
            ltac:(apply lookup_insert_eq) ltac:(apply lookup_insert_eq)).
    step (dict_get_ok rc region (VRef us) table h4 ltac:(apply lookup_insert_eq)).
    fold v.
    by step (dict_setitem_ok o "regional_format" v d h4
               (lookup_weaken _ _ _ _ Ho Hsub)). }
  split; [apply lookup_insert_eq|].
  intros g Hg Hgo. apply insert_subseteq_r; [done|]. by etrans.
Qed.

(** Profiles *)

Lemma jobs_at_mono h h' v (js : list job) :
  h ⊆ h' → Load.jobs_at h v = Some js → Load.jobs_at h' v = Some js.
Proof.
  intros Hsub. unfold Load.jobs_at.
  destruct (Load.items h v) as [vs|] eqn:E; [|done].
  rewrite (items_mono _ _ _ _ Hsub E). cbn [mbind option_bind].
  apply mapM_mono. intros ? ?. by apply job_at_mono.
Qed.

Lemma degrees_at_mono h h' v (ds : list degree) :
  h ⊆ h' → Load.degrees_at h v = Some ds → Load.degrees_at h' v = Some ds.
Proof.
  intros Hsub. unfold Load.degrees_at.
  destruct (Load.items h v) as [vs|] eqn:E; [|done].
  rewrite (items_mono _ _ _ _ Hsub E). cbn [mbind option_bind].
  apply mapM_mono. intros ? ?. by apply degree_at_mono.
Qed.

Lemma projects_at_mono h h' v (ps : list project) :
  h ⊆ h' → Load.projects_at h v = Some ps → Load.projects_at h' v = Some ps.
Proof.
  intros Hsub. unfold Load.projects_at.
  destruct (Load.items h v) as [vs|] eqn:E; [|done].
  rewrite (items_mono _ _ _ _ Hsub E). cbn [mbind option_bind].
  apply mapM_mono. intros ? ?. by apply project_at_mono.
Qed.

Lemma jobs_at_inv h v (js : list job) :
  Load.jobs_at h v = Some js →
  ∃ e jobs, v = VRef e ∧ h !! e = Some (List jobs) ∧
            mapM (Load.job_at h) jobs = Some js.
Proof.
  unfold Load.jobs_at, Load.items. destruct v as [|e]; [done|].
  destruct (h !! e) as [[|jobs]|] eqn:E; try done. cbn [mbind option_bind].
  intros H. by exists e, jobs.
Qed.

Lemma field_insert_eq {A} d key v (f : value → option A) :
  Load.field (<[key := v]> d) key f = f v.
Proof. unfold Load.field. by rewrite lookup_insert_eq. Qed.

Lemma field_insert_ne {A} d key key' v (f : value → option A) :
  key' ≠ key → Load.field (<[key' := v]> d) key f = Load.field d key f.
Proof. intros. unfold Load.field. by rewrite lookup_insert_ne. Qed.

Lemma field_inv {A} d key (f : value → option A) a :
  Load.field d key f = Some a → ∃ v, d !! key = Some v ∧ f v = Some a.
Proof. unfold Load.field. destruct (d !! key) as [v|]; [|done]. by exists v. Qed.

Lemma profile_of_inv h d prof :
  Load.profile_of h d = Some prof →
  Load.field d "raw_text" Load.str = Some (raw_text prof) ∧
  Load.field d "skills" (Load.strs h) = Some (skills prof) ∧
  Load.field d "experience" (Load.jobs_at h) = Some (experience prof) ∧
  Load.field d "education" (Load.degrees_at h) = Some (education prof) ∧
  Load.field d "projects" (Load.projects_at h) = Some (projects prof) ∧
  Load.field d "personal_info" (Load.person_at h) = Some (personal_info prof) ∧
  Load.field d "summary" Load.str = Some (summary prof).
Proof.
  unfold Load.profile_of. intros H.
  repeat match type of H with
  | (?m ≫= _) = Some _ =>
      destruct m; cbn [mbind option_bind] in H; [|discriminate H]
  end.
  by injection H as <-.
Qed.

Lemma profile_of_intro h d rt sk ex ed pr pe su :
  Load.field d "raw_text" Load.str = Some rt →
  Load.field d "skills" (Load.strs h) = Some sk →
  Load.field d "experience" (Load.jobs_at h) = Some ex →
  Load.field d "education" (Load.degrees_at h) = Some ed →
  Load.field d "projects" (Load.projects_at h) = Some pr →
  Load.field d "personal_info" (Load.person_at h) = Some pe →
  Load.field d "summary" Load.str = Some su →
  Load.profile_of h d = Some (Profile rt sk ex ed pr pe su).
Proof.
  intros H1 H2 H3 H4 H5 H6 H7. unfold Load.profile_of.
  by rewrite H1, H2, H3, H4, H5, H6, H7.
Qed.

Lemma profile_at_inv h p prof :
  Load.profile_at h p = Some prof →
  ∃ d, h !! p = Some (Dict d) ∧ Load.profile_of h d = Some prof.
Proof.
  unfold Load.profile_at, Load.dict.
  destruct (h !! p) as [[d|]|]; try done. by exists d.
Qed.

Lemma profile_at_mono h h' p prof :
  h ⊆ h' → Load.profile_at h p = Some prof → Load.profile_at h' p = Some prof.
Proof.
  intros Hsub H. apply profile_at_inv in H as (d & Hp & H).
  unfold Load.profile_at, Load.dict.
  rewrite (lookup_weaken _ _ _ _ Hp Hsub). cbn [mbind option_bind].
  apply profile_of_inv in H as (H1 & H2 & H3 & H4 & H5 & H6 & H7).
  destruct prof. apply profile_of_intro; try done; unfold Load.field in *.
  - eapply field_mono; [|exact H2]. intros ? ?. by apply strs_mono.
  - eapply field_mono; [|exact H3]. intros ? ?. by apply jobs_at_mono.
  - eapply field_mono; [|exact H4]. intros ? ?. by apply degrees_at_mono.
  - eapply field_mono; [|exact H5]. intros ? ?. by apply projects_at_mono.
  - eapply field_mono; [|exact H6]. intros ? ?. by apply person_at_mono.
Qed.

(** [_optimize_summary] never raises: the first word is read only when
    there is one, and the first character only of a non-empty string. *)
Lemma optimize_summary_ok s jd : ∃ s', _optimize_summary s jd = Ok s'.
Proof.
  unfold _optimize_summary. destruct s as [|c t]; [by eexists|].
  change (String.eqb (String c t) "") with false. cbv iota.
  assert (∃ w, match Str.split (String c t) with
               | [] => Ok ""
               | w :: ws => word ← index (w :: ws) 0; Ok (Str.lower word)
               end = Ok w) as [w ->].
  { destruct (Str.split (String c t)) as [|w ws]; by eexists. }
  cbn [mbind result_bind].
  destruct (bool_decide _); by eexists.
Qed.

(** [optimize_resume] on a store in which [p] reads as the profile [prof]:
    it returns a new dict [r]; the store it started from is a part of the
    final store; and [r] reads as the profile with the optimized summary,
    the optimized jobs and the enhanced skills, the other fields being those
    of [prof]. *)
Lemma optimize_resume_ok p prof jd region h :
  Load.profile_at h p = Some prof →
  ∃ r h' s' d' v,
    _optimize_summary (summary prof) jd = Ok s' ∧
    optimize_resume p jd region h = Ok (r, h') ∧
    h !! r = None ∧ h ⊆ h' ∧
    h' !! r = Some (Dict d') ∧ d' !! "regional_format" = Some v ∧
    Load.profile_at h' r =
      Some (Profile (raw_text prof) (enhanced_skills (skills prof) jd)
              (optimized_job <$> experience prof) (education prof)
              (projects prof) (personal_info prof) s').
Proof.
  intros Hprof. apply profile_at_inv in Hprof as (d & Hp & Hd).
  apply profile_of_inv in Hd as (Frt & Fsk & Fex & Fed & Fpr & Fpe & Fsu).
  destruct (field_inv _ _ _ _ Fsu) as (vsu & Dsu & Hsu).
  apply str_inv in Hsu as ->.
  destruct (field_inv _ _ _ _ Fex) as (vex & Dex & Hex).
  apply jobs_at_inv in Hex as (e & jobs & -> & He & Hjobs).
  destruct (field_inv _ _ _ _ Fsk) as (vsk & Dsk & Hsk).
  apply strs_inv in Hsk as (k & -> & Hk).
  destruct (optimize_summary_ok (summary prof) jd) as (s' & Hs').
  (* optimized = parsed_data.copy() *)
  destruct (dict_copy_ok _ _ _ Hp) as (o & Hcopy & Fo).
  set (h1 := <[o := Dict d]> h) in *.
  assert (p ≠ o) as Npo by (intros ->; congruence).
  assert (h1 !! p = Some (Dict d)) as H1p by (unfold h1; by rewrite lookup_insert_ne).
  (* optimized["summary"] = ... *)
  set (d1 := <["summary" := VStr s']> d).
  set (h2 := <[o := Dict d1]> h).
  assert (<[o := Dict d1]> h1 = h2) as E2 by apply insert_insert_eq.
  assert (h ⊆ h2) as Hh2 by (by apply insert_subseteq).
  pose proof (lookup_weaken _ _ _ _ Hp Hh2) as H2p.
  (* optimized["experience"] = ... *)
  destruct (optimize_experience_ok e jobs (experience prof) h2 h Hh2 He Hjobs)
    as (oe & h3 & g3 & Hexp & Foe & Hh23 & Hg3 & Hg3h3 & Hfresh3 & Hread3).
  assert (g3 !! o = None) as G3o.
  { apply Hfresh3; [|done]. unfold h2. rewrite lookup_insert_eq. by eexists. }
  set (d2 := <["experience" := VRef oe]> d1).
  set (h4 := <[o := Dict d2]> h3).
  assert (h3 !! o = Some (Dict d1)) as H3o.
  { eapply lookup_weaken; [|exact Hh23]. apply lookup_insert_eq. }
  assert (g3 ⊆ h4) as Hg3h4 by (by apply insert_subseteq_r).
  pose proof (lookup_weaken _ _ _ _ (lookup_weaken _ _ _ _ Hp Hg3) Hg3h4) as H4p.
  (* optimized["skills"] = ... *)
  destruct (enhance_skills_ok k (skills prof) jd h4 g3 Hg3h4
              (lookup_weaken _ _ _ _ Hk Hg3))
    as (u & h5 & g5 & Hskills & Fu & Hh45 & Hg5 & Hg5h5 & Hfresh5 & Hread5).
  assert (g5 !! o = None) as G5o.
  { apply Hfresh5; [|done]. unfold h4. rewrite lookup_insert_eq. by eexists. }
  set (d3 := <["skills" := VRef u]> d2).
  set (h6 := <[o := Dict d3]> h5).
  assert (h5 !! o = Some (Dict d2)) as H5o.
  { eapply lookup_weaken; [|exact Hh45]. apply lookup_insert_eq. }
  assert (g5 ⊆ h6) as Hg5h6 by (by apply insert_subseteq_r).
  (* _apply_regional_formatting(optimized, region) *)
  destruct (apply_regional_formatting_ok o region d3 h6)
    as (h7 & v & Hreg & H7o & Hframe7); [apply lookup_insert_eq|].
  pose proof (Hframe7 g5 Hg5h6 G5o) as Hg5h7.
  assert (h ⊆ h7) as Hh7 by (etrans; [exact Hg3|]; by etrans).
  exists o, h7, s', (<["regional_format" := v]> d3), v.
  split; [done|]. split.
  { unfold optimize_resume. binds. step Hcopy.
    step (dict_getitem_ok p "summary" d _ h1 H1p Dsu). cbn [as_str].
    rewrite (bind_ok _ _ h1 (summary prof) h1) by done.
    rewrite (bind_ok (lift (_optimize_summary (summary prof) jd)) _ h1 s' h1)
      by (unfold lift; by rewrite Hs').
    step (dict_setitem_ok o "summary" (VStr s') d h1 ltac:(apply lookup_insert_eq)).
    fold d1. rewrite E2.
    step (dict_getitem_ok p "experience" d _ h2 H2p Dex). cbn [as_ref].
    rewrite (bind_ok _ _ h2 e h2) by done.
    step Hexp.
    step (dict_setitem_ok o "experience" (VRef oe) d1 h3 H3o).
    fold d2. fold h4.
    step (dict_getitem_ok p "skills" d _ h4 H4p Dsk). cbn [as_ref].
    rewrite (bind_ok _ _ h4 k h4) by done.
    step Hskills.
    step (dict_setitem_ok o "skills" (VRef u) d2 h5 H5o).
    fold d3. fold h6.
    by step Hreg. }
  split; [done|]. split; [done|]. split; [done|].
  split; [apply lookup_insert_eq|].
  unfold Load.profile_at, Load.dict. rewrite H7o. cbn [mbind option_bind].
  unfold d3, d2, d1. apply profile_of_intro.
  - by rewrite !field_insert_ne.
  - rewrite field_insert_ne, field_insert_eq by done.
    by apply (strs_mono g5).
  - rewrite !(field_insert_ne _ "experience") by done. rewrite field_insert_eq.
    apply (jobs_at_mono g3); [by etrans|done].
  - rewrite !field_insert_ne by done. unfold Load.field in *.
    eapply field_mono; [|exact Fed]. intros ? ?. by apply degrees_at_mono.
  - rewrite !field_insert_ne by done. unfold Load.field in *.
    eapply field_mono; [|exact Fpr]. intros ? ?. by apply projects_at_mono.
  - rewrite !field_insert_ne by done. unfold Load.field in *.
    eapply field_mono; [|exact Fpe]. intros ? ?. by apply person_at_mono.
  - rewrite !(field_insert_ne _ "summary") by done. by rewrite field_insert_eq.
Qed.

End Store.

(** ** Optimization leaves its input alone; the core is total *)

Section Optimizer.
Import Py ResumeOptimizer.

(** C9: on a store in which [p] reads as a profile, [optimize_resume]
    returns a reference to a new dict, which reads as a profile: the one
    with the optimized summary, the enhanced skills and the optimized jobs,
    and the raw text, education, projects and personal information of the
    input.  Every object of the store it started from is still there
    unchanged, and so [p] reads as the same profile afterwards: summary,
    skills, experience with every job's description, education, projects,
    personal_info and raw_text. *)
Theorem C9_optimize_resume_does_not_mutate p prof jd region (h : heap) :
  Load.profile_at h p = Some prof →
  ∃ r h' s',
    optimize_resume p jd region h = Ok (r, h') ∧
    h !! r = None ∧
    _optimize_summary (summary prof) jd = Ok s' ∧
    Load.profile_at h' r =
      Some (Profile (raw_text prof) (enhanced_skills (skills prof) jd)
              (optimized_job <$> experience prof) (education prof)
              (projects prof) (personal_info prof) s') ∧
    (∀ l o, h !! l = Some o → h' !! l = Some o) ∧
    Load.profile_at h' p = Some prof.
Proof.
  intros Hprof.
  destruct (optimize_resume_ok p prof jd region h Hprof)
    as (r & h' & s' & d' & v & Hs' & Hrun & Hr & Hsub & _ & _ & Hread).
  exists r, h', s'. split; [done|]. split; [done|]. split; [done|].
  split; [done|]. split.
  - intros l o Hl. by eapply lookup_weaken.
  - by apply (profile_at_mono h).
Qed.

Lemma C9_optimize_resume_does_not_mutate_witness :
  Load.profile_at sample_heap 1%positive = Some sample_profile ∧
  ∃ r h' s',
    optimize_resume 1%positive "python java" "UK" sample_heap = Ok (r, h') ∧
    sample_heap !! r = None ∧
    _optimize_summary (summary sample_profile) "python java" = Ok s' ∧
    Load.profile_at h' r =
      Some (Profile (raw_text sample_profile)
              (enhanced_skills (skills sample_profile) "python java")
              (optimized_job <$> experience sample_profile)
              (education sample_profile) (projects sample_profile)
              (personal_info sample_profile) s') ∧
    (∀ l o, sample_heap !! l = Some o → h' !! l = Some o) ∧
    Load.profile_at h' 1%positive = Some sample_profile.
Proof.
  split; [vm_compute; reflexivity|].
  apply (C9_optimize_resume_does_not_mutate 1%positive sample_profile).
  vm_compute. reflexivity.
Defined.

(** C8: for every profile and job description, scoring returns a report
    with its five categories; the suggestions are a bundle within its caps
    (the model of [get_suggestions] has no operation that can raise);
    [_optimize_summary] returns for every summary; and [optimize_resume],
    on any store that holds the profile, returns a reference that reads as a
    profile again.  The divisions are by non-zero numbers and the first word
    and first character are read only where they exist. *)
Theorem C8_core_is_total prof jd :
  (∃ report, ATSScorer.calculate_score prof jd = Ok report ∧
             length (breakdown report) = 5) ∧
  (∃ bundle, get_suggestions prof jd = bundle ∧
             length (sg_skills bundle) ≤ 5 ∧
             length (sg_keywords bundle) ≤ 10 ∧
             length (sg_bullet_points bundle) ≤ 5) ∧
  (∀ text, ∃ s, _optimize_summary text jd = Ok s) ∧
  (∀ (h : heap) p region,
     Load.profile_at h p = Some prof →
     ∃ r h' prof',
       optimize_resume p jd region h = Ok (r, h') ∧
       Load.profile_at h' r = Some prof').
Proof.
  split; [|split; [|split]].
  - destruct (calculate_score_ok prof jd)
      as (sm & kw & fm & rd & fd & rdd & _ & _ & _ & _ & _ & _ & _ & _ & ->).
    by eexists.
  - eexists. split; [reflexivity|]. cbn [get_suggestions sg_skills sg_keywords sg_bullet_points].
    unfold _suggest_skills, _suggest_keywords, _suggest_bullet_point_improvements.
    destruct (String.eqb jd ""); cbn [length]; rewrite ?length_take; lia.
  - intros text. apply optimize_summary_ok.
  - intros h p region Hprof.
    destruct (optimize_resume_ok p prof jd region h Hprof)
      as (r & h' & s' & d' & v & _ & Hrun & _ & _ & _ & _ & Hread).
    eexists r, h', _. split; [exact Hrun|exact Hread].
Qed.

Lemma C8_core_is_total_witness :
  Load.profile_at sample_heap 1%positive = Some sample_profile ∧
  ∃ r h' prof',
    optimize_resume 1%positive "python java" "US" sample_heap = Ok (r, h') ∧
    Load.profile_at h' r = Some prof'.
Proof.
  split; [vm_compute; reflexivity|].
  apply (C8_core_is_total sample_profile "python java").
  vm_compute. reflexivity.
Defined.

(** The empty profile goes through all three operations. *)
Lemma empty_profile_is_handled :
  (∃ report, ATSScorer.calculate_score empty_profile "" = Ok report) ∧
  get_suggestions empty_profile "" =
    Suggestions [] []
      [ "Summary is too short. Add 2-3 sentences highlighting key achievements.";
        "Start with a strong action verb to make your summary more impactful" ]
      [] [] ∧
  _optimize_summary "" "" = Ok fallback_summary.
Proof.
  split; [|split].
  - eexists. vm_compute. reflexivity.
  - vm_compute. reflexivity.
  - reflexivity.
Qed.

End Optimizer.

(** * Further properties of the code *)

(** ** Strings *)

Section StringFacts.

Lemma app_cons x (a b : string) : String x a +:+ b = String x (a +:+ b).
Proof. reflexivity. Qed.

Lemma app_assoc_str (a b c : string) : (a +:+ b) +:+ c = a +:+ (b +:+ c).
Proof. induction a as [|x a IH]; [done|]. by rewrite !app_cons, IH. Qed.

Lemma app_nil_r_str (a : string) : a +:+ "" = a.
Proof. induction a as [|x a IH]; [done|]. by rewrite app_cons, IH. Qed.

Lemma startswith_app p s : Str.startswith p (p +:+ s) = true.
Proof.
  induction p as [|x p IH]; [done|]. rewrite app_cons. cbn [Str.startswith].
  by rewrite chr_eqb_refl, IH.
Qed.

Lemma startswith_inv p : ∀ s, Str.startswith p s = true → ∃ t, s = p +:+ t.
Proof.
  induction p as [|x p IH]; intros s H; [by exists s|].
  destruct s as [|y s]; [done|]. cbn in H.
  apply andb_true_iff in H as [Hx Hp]. apply chr_eqb_eq in Hx as ->.
  destruct (IH _ Hp) as [t ->]. by exists t.
Qed.

Lemma contains_inv m : ∀ s, Str.contains m s = true → ∃ a b, s = a +:+ m +:+ b.
Proof.
  induction s as [|y s IH]; cbn [Str.contains]; intros H.
  - rewrite orb_false_r in H. apply startswith_inv in H as [t ->]. by exists "", t.
  - apply orb_true_iff in H as [H|H].
    + apply startswith_inv in H as [t ->]. by exists "", t.
    + destruct (IH H) as (a & b & ->). by exists (String y a), b.
Qed.

Lemma contains_intro m b : ∀ a, Str.contains m (a +:+ m +:+ b) = true.
Proof.
  induction a as [|x a IH].
  - change ("" +:+ m +:+ b) with (m +:+ b).
    apply contains_startswith, startswith_app.
  - rewrite app_cons. by apply contains_tail.
Qed.

(** A piece of a piece is a piece. *)
Lemma contains_trans a b t :
  Str.contains a b = true → Str.contains b t = true → Str.contains a t = true.
Proof.
  intros Hab Hbt. apply contains_inv in Hab as (x & y & ->).
  apply contains_inv in Hbt as (u & v & ->).
  replace (u +:+ (x +:+ a +:+ y) +:+ v) with ((u +:+ x) +:+ a +:+ (y +:+ v))
    by (by rewrite !app_assoc_str).
  apply contains_intro.
Qed.

Lemma contains_refl s : Str.contains s s = true.
Proof.
  rewrite <- (app_nil_r_str s) at 2. apply (contains_intro s "" "").
Qed.

Lemma contains_app_l m s t : Str.contains m s = true → Str.contains m (s +:+ t) = true.
Proof.
  intros H. apply contains_inv in H as (a & b & ->).
  rewrite !app_assoc_str. apply contains_intro.
Qed.

Lemma contains_app_r m s t : Str.contains m t = true → Str.contains m (s +:+ t) = true.
Proof.
  intros H. apply contains_inv in H as (a & b & ->).
  rewrite <- app_assoc_str. apply contains_intro.
Qed.

Lemma lower_chr_idemp c : Chr.lower (Chr.lower c) = Chr.lower c.
Proof. destruct c as [[] [] [] [] [] [] [] []]; reflexivity. Qed.

Lemma lower_upper_chr c : Chr.lower (Chr.upper c) = Chr.lower c.
Proof. destruct c as [[] [] [] [] [] [] [] []]; reflexivity. Qed.

Lemma lower_cons c s : Str.lower (String c s) = String (Chr.lower c) (Str.lower s).
Proof. reflexivity. Qed.

Lemma lower_idemp s : Str.lower (Str.lower s) = Str.lower s.
Proof.
  induction s as [|c s IH]; [done|]. by rewrite !lower_cons, lower_chr_idemp, IH.
Qed.

Lemma lower_app a b : Str.lower (a +:+ b) = Str.lower a +:+ Str.lower b.
Proof. induction a as [|x a IH]; [done|]. by rewrite app_cons, !lower_cons, app_cons, IH. Qed.

Lemma contains_lower m s :
  Str.contains m s = true → Str.contains (Str.lower m) (Str.lower s) = true.
Proof.
  intros H. apply contains_inv in H as (a & b & ->).
  rewrite !lower_app. apply contains_intro.
Qed.

End StringFacts.

(** ** The scorer *)

Section Scorer.
Import ATSScorer Re.
Local Open Scope Q_scope.

(** X1: the formatting score is 15 minus 2 for each required section that
    the lower-cased text does not mention, minus 2 when under 30% of the
    substantial lines are bullets, minus 2 when the text has under 200 or
    over 800 words.  There are at most five deductions, so the score is at
    least 5 and the floor at 0 is never reached. *)
Theorem formatting_score_deductions p :
  let text := raw_text p in
  let missing :=
    length (filter (λ section, Str.contains section (Str.lower text) = false)
                   required_sections) in
  let words := length (Str.split text) in
  ∃ ratio v,
    bullet_ratio text = Ok ratio ∧
    _calculate_formatting_score p = Ok v ∧
    v == 15 - 2 * Num.of_nat
                    (missing + (if Num.ltb ratio 0.3 then 1 else 0)
                     + (if (words <? 200) || (800 <? words) then 1 else 0))%nat ∧
    5 <= v <= 15.
Proof.
  intros text missing words.
  destruct (bullet_ratio_ok text) as [ratio Hratio]. exists ratio.
  unfold _calculate_formatting_score. fold text. rewrite Hratio.
  cbn [mbind result_bind]. eexists. split; [done|]. split; [done|].
  subst missing. unfold required_sections. cbn [foldl].
  rewrite !filter_cons, filter_nil. fold words.
  generalize (Str.contains "experience" (Str.lower text)),
             (Str.contains "education" (Str.lower text)),
             (Str.contains "skills" (Str.lower text)), (Num.ltb ratio 0.3).
  intros b1 b2 b3 b4.
  destruct (words <? 200)%nat, (800 <? words)%nat, b1, b2, b3, b4;
    vm_compute; split; try split; congruence.
Qed.

Lemma min_full_iff m n :
  (0 < n)%nat → (m ≤ n)%nat →
  (Num.min (Num.of_nat m / Num.of_nat n * 40) 40 == 40 ↔ m = n) ∧
  (Num.min (Num.of_nat m / Num.of_nat n * 40) 40 == 0 ↔ m = 0%nat).
Proof.
  intros Hn Hmn. pose proof (of_nat_pos n Hn) as HN.
  pose proof (of_nat_nonneg m) as HM.
  set (q := Num.of_nat m / Num.of_nat n).
  assert (q * Num.of_nat n == Num.of_nat m) as Hq.
  { unfold q. rewrite Qmult_comm. apply Qmult_div_r. lra. }
  assert (∀ a b : nat, Num.of_nat a == Num.of_nat b → a = b) as Hinj.
  { intros a b H. unfold Num.of_nat in H. by apply Nat2Z.inj, inject_Z_injective. }
  pose proof (min_le_l (q * 40) 40) as Hl.
  pose proof (ratio_bounds m n Hn Hmn) as [Hq0 Hq1]. fold q in Hq0, Hq1.
  assert (Num.min (q * 40) 40 == q * 40) as Hmin.
  { unfold Num.min. destruct (Qle_bool (q * 40) 40) eqn:E; [reflexivity|].
    assert (~ q * 40 <= 40) by (rewrite <- Qle_bool_iff; congruence). lra. }
  rewrite Hmin. split; split.
  - intros H. apply Hinj. rewrite <- Hq. assert (q == 1) as -> by lra. lra.
  - intros ->. assert (q == 1) as ->; [|reflexivity].
    unfold q. apply Qmult_inv_r. lra.
  - intros H. apply (Hinj m 0%nat). rewrite <- Hq.
    assert (q == 0) as -> by lra. change (Num.of_nat 0) with 0. lra.
  - intros ->. unfold q. change (Num.of_nat 0) with 0. unfold Qdiv.
    rewrite Qmult_0_l. reflexivity.
Qed.

(** X2: against a job description that names at least one skill of the
    vocabulary, the skills match is 40 exactly when every skill found in the
    job description is among the lower-cased skills of the resume, and 0
    exactly when none is. *)
Theorem skills_match_extremes (profile_skills : list string) jd :
  jd ≠ "" → _extract_skills_from_text jd ≠ [] →
  ∃ v, _calculate_skills_match profile_skills jd = Ok v ∧
       (v == 40 ↔ ∀ s, s ∈ _extract_skills_from_text jd →
                        s ∈ Str.lower <$> profile_skills) ∧
       (v == 0 ↔ ∀ s, s ∈ _extract_skills_from_text jd →
                       s ∉ Str.lower <$> profile_skills).
Proof.
  intros Hjd Hne. eexists. split; [by apply skills_match_value|].
  pose proof (matched_le profile_skills jd) as Hle.
  pose proof (extracted_size jd) as Hsize.
  assert (0 < length (_extract_skills_from_text jd))%nat as Hpos.
  { destruct (_extract_skills_from_text jd); [done|]. cbn [length]. lia. }
  assert (∀ s, s ∈ _extract_skills_from_text jd ↔
               s ∈ (list_to_set (_extract_skills_from_text jd) : gset string)) as HJ.
  { intros s. by rewrite elem_of_list_to_set. }
  assert (∀ s, s ∈ Str.lower <$> profile_skills ↔ s ∈ lowered profile_skills) as HL.
  { intros s. unfold lowered. by rewrite elem_of_list_to_set. }
  revert Hle Hsize HJ HL.
  generalize (list_to_set (_extract_skills_from_text jd) : gset string).
  generalize (lowered profile_skills).
  generalize (Str.lower <$> profile_skills).
  revert Hpos. generalize (_extract_skills_from_text jd). clear.
  intros job Hpos l L J Hle Hsize HJ HL.
  destruct (min_full_iff (size (L ∩ J)) (length job) Hpos Hle) as [-> ->].
  rewrite <- Hsize. split.
  - split.
    + intros Heq s Hs. apply HL. apply HJ in Hs.
      assert (L ∩ J = J) as Hsub; [|set_solver].
      apply set_subseteq_size_eq; [set_solver|lia].
    + intros Hall. f_equal. apply leibniz_equiv. 
      apply set_equiv. intros s. rewrite elem_of_intersection, <- HL, <- HJ.
      naive_solver.
  - split.
    + intros H0 s Hs HsL. apply size_empty_inv in H0.
      apply HJ in Hs. apply HL in HsL. set_solver.
    + intros Hnone. apply size_empty_iff. 
      apply set_equiv. intros s. rewrite elem_of_intersection, <- HL, <- HJ.
      rewrite elem_of_empty. naive_solver.
Qed.

Lemma skills_match_extremes_witness :
  "python and aws" ≠ "" ∧ _extract_skills_from_text "python and aws" ≠ [] ∧
  ∃ v, _calculate_skills_match ["AWS"; "Python"] "python and aws" = Ok v ∧
       (v == 40 ↔ ∀ s, s ∈ _extract_skills_from_text "python and aws" →
                        s ∈ Str.lower <$> ["AWS"; "Python"]) ∧
       (v == 0 ↔ ∀ s, s ∈ _extract_skills_from_text "python and aws" →
                       s ∉ Str.lower <$> ["AWS"; "Python"]).
Proof.
  assert ("python and aws" ≠ "") as H1 by discriminate.
  assert (_extract_skills_from_text "python and aws" ≠ []) as H2
    by (vm_compute; discriminate).
  split; [exact H1|]. split; [exact H2|].
  exact (skills_match_extremes ["AWS"; "Python"] "python and aws" H1 H2).
Defined.

Lemma zero_ratio_le n : (0 < n)%nat → Num.leb (Num.of_nat 0 / Num.of_nat n) 15 = true.
Proof.
  intros Hn. apply Qle_bool_iff. change (Num.of_nat 0) with 0.
  unfold Qdiv. rewrite Qmult_0_l. discriminate.
Qed.

(** X3: for a text without words the readability score is 0, while the
    readability details praise the sentence length. *)
Theorem readability_of_no_words text :
  Str.split text = [] →
  _calculate_readability_score text = Ok 0 ∧
  _get_readability_details text = Ok ["Excellent sentence length"].
Proof.
  intros Hw. unfold _calculate_readability_score, _get_readability_details.
  rewrite Hw. cbn [length]. rewrite orb_true_r. split; [done|].
  pose proof (split_nonempty sentence_end text) as Hs.
  destruct (length (Re.split sentence_end text)) as [|n] eqn:E; [lia|].
  cbn [Nat.eqb]. rewrite div_of_nat_ok by lia. cbn [mbind result_bind].
  by rewrite zero_ratio_le by lia.
Qed.

Lemma readability_of_no_words_witness :
  Str.split "   " = [] ∧
  _calculate_readability_score "   " = Ok 0 ∧
  _get_readability_details "   " = Ok ["Excellent sentence length"].
Proof.
  split; [reflexivity|]. apply (readability_of_no_words "   "). reflexivity.
Defined.

(** X4: the readability details consist of one of four messages about the
    sentence length; the message for a text that cannot be analysed is never
    returned, since [re.split] yields at least one piece. *)
Theorem readability_details_messages text :
  ∃ message, _get_readability_details text = Ok [message] ∧
    message ∈ [ "Excellent sentence length"; "Good sentence length";
                "Consider shortening some sentences";
                "Some sentences are too long - break them up" ] ∧
    _get_readability_details text ≠ Ok ["Unable to analyze readability"].
Proof.
  unfold _get_readability_details.
  pose proof (split_nonempty sentence_end text) as Hs.
  destruct (length (Re.split sentence_end text)) as [|n] eqn:E; [lia|].
  cbn [Nat.eqb]. rewrite div_of_nat_ok by lia. cbn [mbind result_bind].
  eexists. split; [reflexivity|].
  repeat match goal with |- context [if ?b then _ else _] => destruct b end;
    (split; [set_solver|discriminate]).
Qed.

(** X5: skills are found by substring, so a vocabulary term that is part
    of another reported term is reported with it: whenever [javascript] is
    found, so is [java]. *)
Theorem extract_skills_by_substring text a b :
  a ∈ tech_skills → Str.contains a b = true →
  b ∈ _extract_skills_from_text text → a ∈ _extract_skills_from_text text.
Proof.
  intros Ha Hab Hb. apply elem_of_extract_skills_from_text in Hb as [_ Hb].
  apply elem_of_extract_skills_from_text. split; [done|].
  by apply (contains_trans a b).
Qed.

Lemma extract_skills_by_substring_witness :
  "java" ∈ tech_skills ∧ Str.contains "java" "javascript" = true ∧
  "javascript" ∈ _extract_skills_from_text "JavaScript developer" ∧
  "java" ∈ _extract_skills_from_text "JavaScript developer".
Proof.
  assert ("java" ∈ tech_skills) as H1.
  { apply (bool_decide_unpack _). vm_compute. exact I. }
  assert (Str.contains "java" "javascript" = true) as H2 by reflexivity.
  assert ("javascript" ∈ _extract_skills_from_text "JavaScript developer") as H3.
  { apply (bool_decide_unpack _). vm_compute. exact I. }
  split; [exact H1|]. split; [exact H2|]. split; [exact H3|].
  exact (extract_skills_by_substring "JavaScript developer" "java" "javascript" H1 H2 H3).
Defined.

(** X6: the skills extracted from a text are free of duplicates, are terms
    of the vocabulary that occur in the lower-cased text, and are at most as
    many as the vocabulary has terms; they are determined by the
    lower-casing of the text, so two texts with the same lower-casing give
    the same skills, and lower-casing a text changes nothing. *)
Theorem extract_skills_from_text_shape text other :
  Str.lower other = Str.lower text →
  NoDup (_extract_skills_from_text text) ∧
  (∀ s, s ∈ _extract_skills_from_text text →
        s ∈ tech_skills ∧ Str.contains s (Str.lower text) = true) ∧
  (length (_extract_skills_from_text text) ≤ length tech_skills)%nat ∧
  _extract_skills_from_text other = _extract_skills_from_text text ∧
  _extract_skills_from_text (Str.lower text) = _extract_skills_from_text text.
Proof.
  intros Hsame.
  split; [unfold _extract_skills_from_text; apply NoDup_elements|].
  split; [intros s; apply elem_of_extract_skills_from_text|]. split.
  - rewrite <- extracted_size.
    transitivity (size (list_to_set tech_skills : gset string)).
    + apply subseteq_size. intros s. rewrite !elem_of_list_to_set.
      rewrite elem_of_extract_skills_from_text. tauto.
    + vm_compute. lia.
  - unfold _extract_skills_from_text. by rewrite Hsame, lower_idemp.
Qed.

Lemma extract_skills_from_text_shape_witness :
  Str.lower "FLASK and aws" = Str.lower "Flask and AWS" ∧
  NoDup (_extract_skills_from_text "Flask and AWS") ∧
  (∀ s, s ∈ _extract_skills_from_text "Flask and AWS" →
        s ∈ tech_skills ∧ Str.contains s (Str.lower "Flask and AWS") = true) ∧
  (length (_extract_skills_from_text "Flask and AWS") ≤ length tech_skills)%nat ∧
  _extract_skills_from_text "FLASK and aws" = _extract_skills_from_text "Flask and AWS" ∧
  _extract_skills_from_text (Str.lower "Flask and AWS")
  = _extract_skills_from_text "Flask and AWS".
Proof.
  assert (Str.lower "FLASK and aws" = Str.lower "Flask and AWS") as H by reflexivity.
  split; [exact H|].
  exact (extract_skills_from_text_shape "Flask and AWS" "FLASK and aws" H).
Defined.

Lemma split_ws_go_some : ∀ s w, Str.split_ws_go (Some w) s ≠ [].
Proof.
  induction s as [|c s IH]; intros w; cbn [Str.split_ws_go]; [done|].
  destruct (Chr.isspace c); [done|apply IH].
Qed.

(** A text without words consists of white space. *)
Lemma split_nil_all_space : ∀ s, Str.split s = [] → Stated.all_in Chr.isspace s = true.
Proof.
  unfold Str.split. induction s as [|c s IH]; [done|].
  cbn [Str.split_ws_go Stated.all_in]. destruct (Chr.isspace c).
  - intros H. by rewrite IH.
  - intros H. by apply split_ws_go_some in H.
Qed.

Lemma lower_space c : Chr.isspace c = true → Chr.lower c = c.
Proof. destruct c as [[] [] [] [] [] [] [] []]; (reflexivity || discriminate). Qed.

Lemma lower_all_space : ∀ s, Stated.all_in Chr.isspace s = true → Str.lower s = s.
Proof.
  induction s as [|c s IH]; [done|]. cbn [Stated.all_in]. intros H.
  apply andb_true_iff in H as [Hc Hs]. by rewrite lower_cons, lower_space, IH.
Qed.

(** A pattern that cannot match at white space or at the end finds nothing
    in white space. *)
Lemma scan_all_space r :
  (∀ prev, run r (Cursor prev "") Some = None) →
  (∀ prev c t, Chr.isspace c = true → run r (Cursor prev (String c t)) Some = None) →
  ∀ s skip prev, Stated.all_in Chr.isspace s = true → hits (scan r skip prev s) = [].
Proof.
  intros Hnil Hcons. induction s as [|c t IH]; intros skip prev Hs.
  - cbn [scan]. destruct skip; [|done]. unfold match_len. by rewrite Hnil.
  - cbn [Stated.all_in] in Hs. apply andb_true_iff in Hs as [Hc Ht].
    cbn [scan]. destruct skip as [|n]; [|by apply IH].
    unfold match_len. rewrite Hcons by done. cbn [hits]. by apply IH.
Qed.

Ltac by_word_char x := cbn; try destruct (Chr.isword x); reflexivity.

Ltac at_space :=
  let prev := fresh "prev" in let c := fresh "c" in let x := fresh "x" in
  let H := fresh in
  intros prev c ? H;
  destruct c as [[] [] [] [] [] [] [] []]; try discriminate H; clear H;
  destruct prev as [x|]; by_word_char x.

Ltac at_end :=
  let x := fresh "x" in intros [x|]; by_word_char x.

Lemma grammar_of_no_words text :
  Str.split text = [] → grammar_error_count text = 0%nat.
Proof.
  intros Hw. apply split_nil_all_space in Hw.
  unfold grammar_error_count, mixed_tenses, common_errors. cbn [foldl].
  rewrite (lower_all_space _ Hw). unfold findall, tokens.
  rewrite (scan_all_space i_token); [|at_end|at_space|done].
  rewrite (scan_all_space their_token); [|at_end|at_space|done].
  rewrite (scan_all_space past_tense_pattern); [|at_end|at_space|done].
  reflexivity.
Qed.

Lemma formatting_at_least_5 p v : _calculate_formatting_score p = Ok v → 5 <= v.
Proof.
  unfold _calculate_formatting_score.
  destruct (bullet_ratio_ok (raw_text p)) as [ratio ->].
  cbn [mbind result_bind]. intros [= <-].
  eapply Qle_trans; [|apply max_le_l]. unfold required_sections. cbn [foldl].
  repeat match goal with |- context [if ?b then _ else _] => destruct b end; lra.
Qed.

Lemma readability_cases text v :
  _calculate_readability_score text = Ok v →
  (Str.split text = [] ∧ v = 0) ∨ 5 <= v.
Proof.
  unfold _calculate_readability_score.
  destruct (Str.split text) as [|w ws]; [rewrite orb_true_r; intros [= <-]; by left|].
  pose proof (split_nonempty sentence_end text) as Hs.
  destruct (length (Re.split sentence_end text)) as [|n] eqn:E; [lia|].
  cbn [length Nat.eqb orb]. rewrite div_of_nat_ok by lia. cbn [mbind result_bind].
  intros [= <-]. right.
  repeat match goal with |- context [if ?b then _ else _] => destruct b end; lra.
Qed.

Lemma grammar_score_of_count text :
  _calculate_grammar_score text
  == 10 - Num.min (Num.of_nat (grammar_error_count text) * 0.5) 5.
Proof.
  unfold _calculate_grammar_score.
  pose proof (min_le_r (Num.of_nat (grammar_error_count text) * 0.5) 5).
  unfold Num.max. destruct (Qle_bool _ _) eqn:E; [reflexivity|].
  assert (~ 0 <= 10 - Num.min (Num.of_nat (grammar_error_count text) * 0.5) 5)
    by (rewrite <- Qle_bool_iff; congruence).
  lra.
Qed.

(** X7: for every profile and job description the total of the report is
    at least 175 and at most 2450: formatting contributes at least 5 points
    and either the text has words, and readability and grammar at least 5
    each, or it has none, and grammar is 10. *)
Theorem total_score_at_least_175 p jd :
  ∃ r, calculate_score p jd = Ok r ∧ 175 <= total_score r <= 2450.
Proof.
  destruct (calculate_score_ok p jd)
    as (sm & kw & fm & rd & fd & rdd & _ & _ & Hfm & Hrd & Bsm & Bkw & Bfm & Brd & ->).
  eexists. split; [reflexivity|]. cbn [total_score].
  pose proof (grammar_bounds (raw_text p)) as Bgr.
  pose proof (formatting_at_least_5 _ _ Hfm) as Bfm5.
  assert (1 <= rd * 0.15 + _calculate_grammar_score (raw_text p) * 0.10) as Hlow.
  { destruct (readability_cases _ _ Hrd) as [[Hw ->]|Hrd5]; [|lra].
    rewrite grammar_score_of_count, (grammar_of_no_words _ Hw).
    vm_compute. discriminate. }
  set (gr := _calculate_grammar_score (raw_text p)) in *.
  apply (round1_range 1750 24500); [reflexivity..|].
  assert (weighted_total
            [ ("skills_match", sm); ("keywords", kw); ("formatting", fm);
              ("readability", rd); ("grammar", gr) ]
          == sm * 0.35 + kw * 0.25 + fm * 0.15 + rd * 0.15 + gr * 0.10) as ->.
  { unfold weighted_total. cbn. ring. }
  rewrite weights_sum. unfold Qdiv. change (/ 1) with 1. lra.
Qed.

(** X8: without a job description the skills score reported is
    min(2 * n, 40) for a resume that lists n skills, whatever they are and
    whether or not they repeat. *)
Theorem skills_score_counts_entries p :
  ∃ r entry, calculate_score p "" = Ok r ∧
    breakdown r !! 0%nat = Some ("Skills Match", entry) ∧
    score entry == Num.min (2 * Num.of_nat (length (skills p))) 40.
Proof.
  destruct (calculate_score_ok p "")
    as (sm & kw & fm & rd & fd & rdd & Hsm & _ & _ & _ & _ & _ & _ & _ & ->).
  eexists _, _. split; [reflexivity|]. split; [reflexivity|]. cbn [score].
  cbn [String.eqb negb] in Hsm. rewrite div_ok in Hsm by (intros H; discriminate H).
  cbn [mbind result_bind] in Hsm. injection Hsm as <-.
  set (n := length (skills p)).
  assert (Num.of_nat n / 20 * 40 == 2 * Num.of_nat n) as Hx by (field).
  unfold Num.min.
  assert (Qle_bool (Num.of_nat n / 20 * 40) 40 = Qle_bool (2 * Num.of_nat n) 40) as ->.
  { destruct (Qle_bool (2 * _) 40) eqn:E.
    - apply Qle_bool_iff. rewrite Hx. by apply Qle_bool_iff.
    - destruct (Qle_bool (_ / 20 * 40) 40) eqn:E'; [|done].
      apply Qle_bool_iff in E'. rewrite Hx in E'. apply Qle_bool_iff in E'. congruence. }
  destruct (Qle_bool (2 * Num.of_nat n) 40).
  - assert (Num.of_nat n / 20 * 40 == inject_Z (20 * Z.of_nat n) / 10) as Hy.
    { rewrite Hx. unfold Num.of_nat. rewrite inject_Z_mult. field. }
    assert (inject_Z (20 * Z.of_nat n) / 10 <= Num.of_nat n / 20 * 40
            <= inject_Z (20 * Z.of_nat n) / 10) as Hb
      by (split; rewrite Hy; apply Qle_refl).
    apply round1_bounds in Hb as [H1 H2].
    rewrite <- Hx. rewrite Hy at 2. by apply Qle_antisym.
  - vm_compute. reflexivity.
Qed.

(** X9: the error patterns run on the lower-cased text, so a text that
    begins with the capitalised pronoun [I] and a space loses at least half
    a point of its grammar score. *)
Theorem capital_I_is_penalised text :
  _calculate_grammar_score ("I " +:+ text) <= 9.5.
Proof.
  rewrite grammar_score_of_count.
  assert (1 ≤ grammar_error_count ("I " +:+ text))%nat as Hn.
  { unfold grammar_error_count, common_errors. cbn [foldl].
    change (Str.lower ("I " +:+ text)) with (String "i" (String " " (Str.lower text))).
    assert (1 ≤ length (findall i_token (String "i" (String " " (Str.lower text)))))%nat.
    { unfold findall, tokens. cbn [scan]. 
      change (match_len i_token (Cursor None (String "i" (String " " (Str.lower text)))))
        with (Some (Str.len (String "i" (String " " (Str.lower text))) - Str.len (Str.lower text))%nat).
      cbn [Str.len]. 
      replace (S (S (Str.len (Str.lower text))) - Str.len (Str.lower text))%nat with 2%nat by lia.
      cbn [hits length]. lia. }
    destruct (mixed_tenses _); lia. }
  apply of_nat_le in Hn. change (Num.of_nat 1) with 1 in Hn.
  assert (1 # 2 <= Num.min (Num.of_nat (grammar_error_count ("I " +:+ text)) * 0.5) 5).
  { apply min_glb; lra. }
  lra.
Qed.

End Scorer.

(** ** Patterns *)

Section Patterns.
Import Re.

Lemma len_app a b : Str.len (a +:+ b) = Str.len a + Str.len b.
Proof. induction a as [|x a IH]; [done|]. rewrite app_cons. cbn [Str.len]. by rewrite IH. Qed.

Lemma take_app a b : Str.take (Str.len a) (a +:+ b) = a.
Proof.
  induction a as [|x a IH]; [by destruct b|]. rewrite app_cons.
  cbn [Str.len Str.take]. by rewrite IH.
Qed.

Lemma all_in_app f a b :
  Stated.all_in f (a +:+ b) = Stated.all_in f a && Stated.all_in f b.
Proof.
  induction a as [|x a IH]; [done|]. rewrite app_cons. cbn [Stated.all_in].
  by rewrite IH, andb_assoc.
Qed.

Lemma all_in_contains f m s :
  Str.contains m s = true → Stated.all_in f s = true → Stated.all_in f m = true.
Proof.
  intros H Hs. apply contains_inv in H as (a & b & ->).
  rewrite !all_in_app in Hs. by destruct (Stated.all_in f a), (Stated.all_in f m).
Qed.

Lemma lower_not_upper c : Chr.isupper (Chr.lower c) = false.
Proof. destruct c as [[] [] [] [] [] [] [] []]; reflexivity. Qed.

Lemma all_in_lower s : Stated.all_in (λ c, negb (Chr.isupper c)) (Str.lower s) = true.
Proof.
  induction s as [|c s IH]; [done|]. rewrite lower_cons. cbn [Stated.all_in].
  by rewrite lower_not_upper, IH.
Qed.

(** What a greedy repetition consumes: between [lo] and [hi] characters of
    the class. *)
Lemma rep_max_bound f k e : ∀ s lo hi prev,
  rep_max f lo hi prev s k = Some e →
  ∃ m q, s = m +:+ rest q ∧ lo ≤ Str.len m ∧
         (∀ n, hi = Some n → Str.len m ≤ n) ∧
         Stated.all_in f m = true ∧ k q = Some e.
Proof.
  assert (∀ s lo hi prev,
    match lo with O => k (Cursor prev s) | S _ => None end = Some e →
    ∃ m q, s = m +:+ rest q ∧ lo ≤ Str.len m ∧
           (∀ n, hi = Some n → Str.len m ≤ n) ∧
           Stated.all_in f m = true ∧ k q = Some e) as Hstop.
  { intros s [|lo] hi prev H; [|done]. exists "", (Cursor prev s).
    repeat split; [done|cbn; lia|done]. }
  induction s as [|c t IH]; intros lo hi prev; cbn [rep_max]; [apply Hstop|].
  destruct (f c && negb (exhausted hi)) eqn:Ec; [|apply Hstop].
  destruct (rep_max f (Nat.pred lo) (hi_pred hi) (Some c) t k) as [e'|] eqn:E;
    cbn [or_else]; [|apply Hstop].
  intros [= ->]. apply IH in E as (m & q & -> & Hlo & Hhi & Hm & Hk).
  exists (String c m), q. rewrite app_cons. split; [done|].
  cbn [Str.len Stated.all_in]. apply andb_true_iff in Ec as [-> Hex].
  split; [lia|]. split; [|by split].
  intros n ->. destruct n as [|n]; [done|].
  specialize (Hhi n eq_refl). lia.
Qed.

Lemma rep_min_inv f k e : ∀ s lo hi prev,
  rep_min f lo hi prev s k = Some e →
  ∃ m q, s = m +:+ rest q ∧ k q = Some e.
Proof.
  assert (∀ s lo prev,
    match lo with O => k (Cursor prev s) | S _ => None end = Some e →
    ∃ m q, s = m +:+ rest q ∧ k q = Some e) as Hstop.
  { intros s [|lo] prev H; [|done]. by exists "", (Cursor prev s). }
  induction s as [|c t IH]; intros lo hi prev; cbn [rep_min]; [apply Hstop|].
  destruct (f c && negb (exhausted hi)) eqn:Ec; [|apply Hstop].
  destruct (match lo with O => k (Cursor prev (String c t)) | S _ => None end)
    as [e'|] eqn:E; cbn [or_else].
  - intros [= ->]. by eapply Hstop.
  - intros H. apply IH in H as (m & q & -> & Hk).
    exists (String c m), q. by rewrite app_cons.
Qed.

(** A match consumes a piece of the text that starts at the cursor. *)
Lemma run_consumes r : ∀ p k e,
  run r p k = Some e → ∃ m q, rest p = m +:+ rest q ∧ k q = Some e.
Proof.
  induction r as [|f|a IHa b IHb|a IHa b IHb|greedy f lo hi| | | |a IHa];
    intros p k e; cbn [run].
  - intros H. by exists "", p.
  - destruct (rest p) as [|c t] eqn:E; [done|]. destruct (f c); [|done].
    intros H. by exists (String c ""), (Cursor (Some c) t).
  - intros H. apply IHa in H as (m1 & q1 & -> & H).
    apply IHb in H as (m2 & q2 & -> & H).
    exists (m1 +:+ m2), q2. by rewrite app_assoc_str.
  - destruct (run a p k) as [e'|] eqn:E; cbn [or_else].
    + intros [= ->]. by apply IHa.
    + apply IHb.
  - destruct greedy.
    + intros H. apply rep_max_bound in H as (m & q & ? & _ & _ & _ & ?). by exists m, q.
    + apply rep_min_inv.
  - destruct (xorb _ _); [|done]. intros H. by exists "", p.
  - destruct (before p); [done|]. intros H. by exists "", p.
  - intros H. exists "", p. split; [done|].
    destruct (rest p) as [|c [|c' t]]; [done| |done].
    by destruct (Chr.eqb c Chr.newline).
  - destruct (run a p Some); [|done]. intros H. by exists "", p.
Qed.

Lemma rep_max_zero f : ∀ s hi prev, is_Some (rep_max f 0 hi prev s Some).
Proof.
  intros [|c t] hi prev; cbn [rep_max]; [by eexists|].
  destruct (f c && negb (exhausted hi)); [|by eexists].
  destruct (rep_max _ _ _ _ _ _); by eexists.
Qed.


(** Every match that a scan reports is the text of a match of the pattern
    somewhere. *)
Lemma hits_match r (P : string → Prop) :
  (∀ prev s n, match_len r (Cursor prev s) = Some n → P (Str.take n s)) →
  ∀ s skip prev m, m ∈ hits (scan r skip prev s) → P m.
Proof.
  intros HP. induction s as [|c t IH]; intros skip prev m.
  - cbn [scan]. destruct skip; [|by rewrite elem_of_nil].
    destruct (match_len r (Cursor prev "")) as [n|] eqn:E; cbn [hits];
      rewrite ?elem_of_cons, ?elem_of_nil; [|done].
    intros [->|[]]. apply HP in E. by destruct n.
  - cbn [scan]. destruct skip as [|k]; [|apply IH].
    destruct (match_len r (Cursor prev (String c t))) as [[|n]|] eqn:E;
      cbn [hits]; rewrite ?elem_of_cons.
    + intros [->|H]; [by apply HP in E|by eapply IH].
    + intros [->|H]; [by apply HP in E|by eapply IH].
    + apply IH.
Qed.


(** A literal matches exactly itself. *)
Lemma run_lit w : ∀ p k e,
  run (lit w) p k = Some e →
  ∃ q, rest p = w +:+ rest q ∧ k q = Some e.
Proof.
  induction w as [|c t IH]; intros [prev s] k e.
  { intros H. by exists (Cursor prev s). }
  assert (∀ k', run (chr c) (Cursor prev s) k' = Some e →
            ∃ s', s = String c s' ∧ k' (Cursor (Some c) s') = Some e) as Hc.
  { intros k'. cbn. destruct s as [|x s']; [done|].
    destruct (Chr.eqb c x) eqn:E; [|done]. apply chr_eqb_eq in E as <-.
    intros H. by exists s'. }
  destruct t as [|c' t'].
  - intros H. apply Hc in H as (s' & -> & H). by exists (Cursor (Some c) s').
  - change (lit (String c (String c' t'))) with (Cat (chr c) (lit (String c' t'))).
    cbn [run]. intros H. apply Hc in H as (s' & -> & H).
    apply IH in H as (q & Hq & H). cbn [rest] in Hq. exists q.
    split; [|done]. cbn [rest]. by rewrite app_cons, Hq.
Qed.

Lemma run_lit_here w : ∀ prev t k,
  w ≠ "" → ∃ last, run (lit w) (Cursor prev (w +:+ t)) k = k (Cursor (Some last) t).
Proof.
  induction w as [|c w IH]; intros prev t k Hne; [done|].
  destruct w as [|c' w'].
  - exists c. rewrite app_cons. change ("" +:+ t) with t.
    cbn [lit run chr rest]. by rewrite chr_eqb_refl.
  - change (lit (String c (String c' w'))) with (Cat (chr c) (lit (String c' w'))).
    rewrite app_cons. cbn [run chr rest]. rewrite chr_eqb_refl.
    apply (IH (Some c) t k). discriminate.
Qed.

Lemma run_alts rs p k e :
  run (alts rs) p k = Some e → ∃ r, r ∈ rs ∧ run r p k = Some e.
Proof.
  induction rs as [|r' rs IH]; [cbn [alts run]; by destruct (rest p)|].
  destruct rs as [|r'' rs].
  - intros H. exists r'. split; [apply list_elem_of_here|done].
  - change (alts (r' :: r'' :: rs)) with (Alt r' (alts (r'' :: rs))).
    cbn [run]. destruct (run r' p k) as [e'|] eqn:E; cbn [or_else].
    + intros [= ->]. exists r'. split; [apply list_elem_of_here|done].
    + intros H. apply IH in H as (r0 & Hr0 & H). exists r0.
      split; [by apply list_elem_of_further|done].
Qed.

Lemma run_alts_here rs p k r :
  r ∈ rs → is_Some (run r p k) → is_Some (run (alts rs) p k).
Proof.
  induction rs as [|r' rs IH]; [by intros ?%elem_of_nil|].
  intros Hr Hrun. destruct rs as [|r'' rs].
  - apply list_elem_of_singleton in Hr as ->. done.
  - change (alts (r' :: r'' :: rs)) with (Alt r' (alts (r'' :: rs))).
    cbn [run]. destruct (run r' p k) as [e'|] eqn:E; cbn [or_else]; [by eexists|].
    apply elem_of_cons in Hr as [->|Hr]; [by rewrite E in Hrun; destruct Hrun|].
    by apply IH.
Qed.

(** A scan finds something when the pattern matches where some suffix of
    the text starts. *)
Lemma scan_finds r (w : string) :
  (∀ prev t, is_Some (run r (Cursor prev (w +:+ t)) Some)) →
  ∀ s prev, Str.contains w s = true → hits (scan r 0 prev s) ≠ [].
Proof.
  intros Hr. induction s as [|c s IH]; intros prev Hs.
  - cbn [Str.contains] in Hs. rewrite orb_false_r in Hs.
    apply startswith_inv in Hs as [t Ht].
    cbn [scan]. unfold match_len. destruct (Hr prev t) as [e He].
    rewrite <- Ht in He. by rewrite He.
  - cbn [scan]. unfold match_len.
    destruct (run r (Cursor prev (String c s)) Some) as [e|] eqn:E.
    + cbn [rest]. by destruct (_ - _).
    + cbn [hits]. apply IH. cbn [Str.contains] in Hs.
      apply orb_true_iff in Hs as [Hs|Hs]; [|done].
      apply startswith_inv in Hs as [t Ht]. destruct (Hr prev t) as [e He].
      rewrite <- Ht in He. congruence.
Qed.

(** [re.search] for one of several literal words succeeds exactly on the
    texts that contain one of them. *)
Lemma search_words (ws : list string) s :
  Forall (λ w, w ≠ "") ws →
  is_Some (search (alts (lit <$> ws)) s) ↔ ∃ w, w ∈ ws ∧ Str.contains w s = true.
Proof.
  intros Hne. unfold search. split.
  - intros [m Hm]. apply head_Some_elem_of in Hm.
    pose proof (findall_contains _ _ _ Hm) as Hin.
    apply (hits_match _ (λ m, m ∈ ws)) in Hm; [by exists m|].
    intros prev t n. unfold match_len.
    destruct (run _ _ Some) as [e|] eqn:E; [|done].
    apply run_alts in E as (r & Hr & E).
    apply list_elem_of_fmap in Hr as (w & -> & Hw).
    apply run_lit in E as (q & Hq & [= ->]). cbn [rest] in Hq.
    intros [= <-]. rewrite Hq, len_app.
    replace (Str.len w + Str.len (rest e) - Str.len (rest e)) with (Str.len w) by lia.
    by rewrite take_app.
  - intros (w & Hw & Hin).
    assert (hits (scan (alts (lit <$> ws)) 0 None s) ≠ []) as H.
    { apply (scan_finds _ w); [|done]. intros prev t.
      apply (run_alts_here _ _ _ (lit w)); [by apply list_elem_of_fmap_2|].
      destruct (run_lit_here w prev t Some) as [last ->]; [|by eexists].
      by eapply Forall_forall in Hne. }
    unfold findall, tokens. by destruct (hits _).
Qed.

Lemma scan_hit r prev s :
  is_Some (run r (Cursor prev s) Some) → hits (scan r 0 prev s) ≠ [].
Proof.
  intros [e He]. destruct s as [|c t]; cbn [scan]; unfold match_len; rewrite He.
  - done.
  - cbn [rest]. by destruct (_ - _).
Qed.

(** What a scan finds in a text it finds after any beginning. *)
Lemma scan_after r s :
  (∀ prev, hits (scan r 0 prev s) ≠ []) →
  ∀ a prev, hits (scan r 0 prev (a +:+ s)) ≠ [].
Proof.
  intros Hs. induction a as [|c a IH]; intros prev; [apply Hs|].
  rewrite app_cons. cbn [scan].
  destruct (match_len r (Cursor prev (String c (a +:+ s)))) as [[|n]|]; [done..|].
  cbn [hits]. apply IH.
Qed.


Lemma scan_after_char r c s :
  hits (scan r 0 (Some c) s) ≠ [] → ∀ prev, hits (scan r 0 prev (String c s)) ≠ [].
Proof.
  intros H prev. cbn [scan].
  by destruct (match_len r (Cursor prev (String c s))) as [[|n]|].
Qed.


End Patterns.

(** ** The optimizer's suggestions and rewriting *)

Section Suggestions.
Import ResumeOptimizer Re.

Lemma elem_of_found_map (P : string → bool) (f : string → string) (x : string) :
  ∀ (l : list string) (A : gset string),
  x ∈ foldl (λ acc s, if P s then acc ∪ {[f s]} else acc) A l ↔
  x ∈ A ∨ ∃ s, s ∈ l ∧ P s = true ∧ x = f s.
Proof.
  induction l as [|s l IH]; intros A; cbn [foldl].
  - split; [by left|]. intros [?|(s & Hs & _)]; [done|]. by apply elem_of_nil in Hs.
  - rewrite IH. destruct (P s) eqn:E.
    + rewrite elem_of_union, elem_of_singleton. split.
      * intros [[?| ->]|(s' & ? & ? & ->)]; [by left|right..].
        -- exists s. by rewrite elem_of_cons; auto.
        -- exists s'. rewrite elem_of_cons; auto.
      * intros [?|(s' & Hs' & ? & ->)]; [by left; left|].
        apply elem_of_cons in Hs' as [->|?]; [by left; right|].
        right. by exists s'.
    + split.
      * intros [?|(s' & ? & ? & ->)]; [by left|right].
        exists s'. rewrite elem_of_cons; auto.
      * intros [?|(s' & Hs' & ? & ->)]; [by left|].
        apply elem_of_cons in Hs' as [->|?]; [congruence|].
        right. by exists s'.
Qed.

Lemma elem_of_extract_skills_from_jd jd s :
  s ∈ _extract_skills_from_jd jd ↔
  ∃ v, v ∈ common_skills ∧ Str.contains v (Str.lower jd) = true ∧ s = Str.title v.
Proof.
  unfold _extract_skills_from_jd. rewrite elem_of_elements.
  rewrite (elem_of_found_map (λ s, Str.contains s (Str.lower jd)) Str.title).
  rewrite elem_of_empty. naive_solver.
Qed.

(** X10: at most five skills are suggested, without repetition; each is
    the title-cased form of a term of the optimizer's vocabulary that occurs
    in the lower-cased job description, and none is, up to case, a skill of
    the resume. *)
Theorem suggest_skills_spec (current : list string) jd :
  length (_suggest_skills current jd) ≤ 5 ∧
  NoDup (_suggest_skills current jd) ∧
  ∀ s, s ∈ _suggest_skills current jd →
    (Str.lower s ∉ Str.lower <$> current) ∧
    ∃ v, v ∈ common_skills ∧ Str.contains v (Str.lower jd) = true ∧ s = Str.title v.
Proof.
  unfold _suggest_skills. destruct (String.eqb jd "").
  { split; [cbn; lia|]. split; [constructor|]. intros s Hs. by apply elem_of_nil in Hs. }
  split; [rewrite length_take; lia|]. split.
  - eapply sublist_NoDup; [|apply sublist_take]. apply NoDup_filter. unfold _extract_skills_from_jd. apply NoDup_elements.
  - intros s Hs. apply elem_of_take in Hs as (i & Hs & _).
    apply list_elem_of_lookup_2 in Hs. apply list_elem_of_filter in Hs as [Hnew Hs].
    split; [done|]. by apply elem_of_extract_skills_from_jd.
Qed.

Lemma keyword_match prev s n :
  match_len (seq [WordB; Rep true Chr.isalpha 4 None; WordB]) (Cursor prev s) = Some n →
  4 ≤ Str.len (Str.take n s) ∧ Stated.all_in Chr.isalpha (Str.take n s) = true.
Proof.
  unfold match_len. cbn [seq run before rest].
  destruct (xorb _ _); [|done].
  destruct (rep_max _ _ _ _ _ _) as [e|] eqn:E; [|done].
  apply rep_max_bound in E as (m & q & -> & Hlen & _ & Hm & Hq).
  destruct (xorb _ _); [|done]. injection Hq as <-. intros [= <-].
  rewrite len_app. replace (Str.len m + Str.len (rest q) - Str.len (rest q)) with (Str.len m) by lia.
  by rewrite take_app.
Qed.

Lemma alpha_not_upper c :
  Chr.isalpha c = true → negb (Chr.isupper c) = true → Chr.islower c = true.
Proof. unfold Chr.isalpha. by destruct (Chr.isupper c). Qed.

Lemma all_in_and f g h s :
  (∀ c, f c = true → g c = true → h c = true) →
  Stated.all_in f s = true → Stated.all_in g s = true → Stated.all_in h s = true.
Proof.
  intros Hfg. induction s as [|c s IH]; [done|]. cbn [Stated.all_in].
  intros [Hf Hs]%andb_true_iff [Hg Hs']%andb_true_iff.
  by rewrite (Hfg c), IH.
Qed.

Lemma keyword_shape text kw :
  kw ∈ _extract_keywords text →
  4 ≤ Str.len kw ∧ Stated.all_in Chr.islower kw = true ∧ (kw ∉ common_words) ∧
  Str.contains kw (Str.lower text) = true.
Proof.
  unfold _extract_keywords. rewrite elem_of_elements, elem_of_list_to_set.
  intros [Hstop Hkw]%list_elem_of_filter.
  pose proof (findall_contains _ _ _ Hkw) as Hin.
  apply (hits_match _ (λ m, 4 ≤ Str.len m ∧ Stated.all_in Chr.isalpha m = true))
    in Hkw as [Hlen Halpha]; [|apply keyword_match].
  split; [done|]. split; [|done].
  eapply all_in_and; [apply alpha_not_upper|done|].
  eapply all_in_contains; [exact Hin|apply all_in_lower].
Qed.

(** X11: the keywords of a text are distinct words of at least four
    lower-case letters that occur in the lower-cased text and are not among
    the eight common words. *)
Theorem extract_keywords_spec text :
  NoDup (_extract_keywords text) ∧
  ∀ kw, kw ∈ _extract_keywords text →
    4 ≤ Str.len kw ∧ Stated.all_in Chr.islower kw = true ∧ (kw ∉ common_words) ∧
    Str.contains kw (Str.lower text) = true.
Proof.
  split; [unfold _extract_keywords; apply NoDup_elements|].
  intros kw. apply keyword_shape.
Qed.

(** X12: at most ten keywords are suggested, without repetition; each is a
    keyword of the job description of at least four letters and not a
    keyword of the resume. *)
Theorem suggest_keywords_spec resume_text jd :
  length (_suggest_keywords resume_text jd) ≤ 10 ∧
  NoDup (_suggest_keywords resume_text jd) ∧
  ∀ kw, kw ∈ _suggest_keywords resume_text jd →
    kw ∈ _extract_keywords jd ∧ (kw ∉ _extract_keywords resume_text) ∧
    4 ≤ Str.len kw ∧ Str.contains kw (Str.lower jd) = true.
Proof.
  unfold _suggest_keywords. destruct (String.eqb jd "").
  { split; [cbn; lia|]. split; [constructor|]. intros s Hs. by apply elem_of_nil in Hs. }
  split; [rewrite length_take; lia|]. split.
  - eapply sublist_NoDup; [|apply sublist_take]. apply NoDup_filter.
    unfold _extract_keywords. apply NoDup_elements.
  - intros kw Hkw. apply elem_of_take in Hkw as (i & Hkw & _).
    apply list_elem_of_lookup_2 in Hkw. apply list_elem_of_filter in Hkw as [Hnew Hkw].
    split; [done|]. split; [done|].
    by destruct (keyword_shape _ _ Hkw) as (? & _ & _ & ?).
Qed.

Lemma search_lit w s :
  is_Some (search (lit w) s) → Str.contains w s = true.
Proof.
  intros [m Hm]. unfold search in Hm. apply head_Some_elem_of in Hm.
  pose proof (findall_contains _ _ _ Hm) as Hin.
  apply (hits_match _ (λ m, m = w)) in Hm; [by subst|].
  intros prev t n. unfold match_len.
  destruct (run _ _ Some) as [e|] eqn:E; [|done].
  apply run_lit in E as (q & Hq & [= ->]). cbn [rest] in Hq.
  intros [= <-]. rewrite Hq, len_app.
  replace (Str.len w + Str.len (rest e) - Str.len (rest e)) with (Str.len w) by lia.
  by rewrite take_app.
Qed.

Lemma weak_bullet_inv bullet s : ∀ table,
  weak_bullet table bullet = Some s →
  bs_original s = bullet ∧ bs_improved s = _improve_bullet_point bullet ∧
  ∃ phrase, (phrase, bs_suggestion s) ∈ table ∧
            Str.contains phrase (Str.lower bullet) = true.
Proof.
  induction table as [|[pattern suggestion] table IH]; [done|].
  cbn [weak_bullet]. destruct (search (lit pattern) (Str.lower bullet)) eqn:E.
  - intros [= <-]. cbn. split; [done|]. split; [done|].
    exists pattern. split; [apply list_elem_of_here|]. apply search_lit. by eexists.
  - intros H. destruct (IH H) as (? & ? & phrase & ? & ?).
    split; [done|]. split; [done|]. exists phrase.
    split; [by apply list_elem_of_further|done].
Qed.

(** X13: an entry of the experience suggestions belongs to a job of the
    resume and is never empty; each of its suggestions is about a bullet of
    that job whose lower-cased text contains one of the four weak phrases,
    carries the advice listed with that phrase, and proposes the rewriting
    by [_improve_bullet_point]. *)
Theorem suggest_experience_improvements_spec (jobs : list job) entry :
  entry ∈ _suggest_experience_improvements jobs →
  js_suggestions entry ≠ [] ∧
  ∃ job, job ∈ jobs ∧ js_title entry = title job ∧
    ∀ s, s ∈ js_suggestions entry →
      bs_original s ∈ description job ∧
      bs_improved s = _improve_bullet_point (bs_original s) ∧
      ∃ phrase, (phrase, bs_suggestion s) ∈ weak_patterns ∧
                Str.contains phrase (Str.lower (bs_original s)) = true.
Proof.
  unfold _suggest_experience_improvements. rewrite list_elem_of_omap.
  intros (job & Hjob & Hentry).
  destruct (omap (weak_bullet weak_patterns) (description job)) as [|s0 found] eqn:E;
    [done|].
  injection Hentry as <-. cbn [js_suggestions js_title]. split; [done|].
  exists job. split; [done|]. split; [done|]. intros s Hs. rewrite <- E in Hs.
  apply list_elem_of_omap in Hs as (bullet & Hb & Hs).
  apply weak_bullet_inv in Hs as (-> & -> & phrase & Hp & Hc). eauto.
Qed.

Lemma suggest_experience_improvements_spec_witness :
  let jobs := [Job "Engineer" "" [] ["Worked on billing"; "Shipped it"]] in
  let entry := JobSuggestions "Engineer"
                 [BulletSuggestion "Worked on billing" "Specify what you achieved"
                    "Managed  billing - consider adding quantifiable results"] in
  entry ∈ _suggest_experience_improvements jobs ∧ js_suggestions entry ≠ [].
Proof.
  intros jobs entry.
  assert (entry ∈ _suggest_experience_improvements jobs) as H.
  { vm_compute. apply list_elem_of_here. }
  split; [exact H|].
  exact (proj1 (suggest_experience_improvements_spec jobs entry H)).
Defined.

(** X14: at most five bullet improvements are reported; each is about a
    bullet of some job that [_improve_bullet_point] changes, and holds its
    result. *)
Theorem suggest_bullet_point_improvements_spec (jobs : list job) :
  length (_suggest_bullet_point_improvements jobs) ≤ 5 ∧
  ∀ entry, entry ∈ _suggest_bullet_point_improvements jobs →
    bi_improved entry = _improve_bullet_point (bi_original entry) ∧
    bi_improved entry ≠ bi_original entry ∧
    ∃ job, job ∈ jobs ∧ bi_original entry ∈ description job.
Proof.
  unfold _suggest_bullet_point_improvements.
  split; [rewrite length_take; lia|]. intros entry Hentry.
  apply elem_of_take in Hentry as (i & Hentry & _).
  apply list_elem_of_lookup_2 in Hentry.
  apply list_elem_of_join in Hentry as (found & Hentry & Hfound).
  apply list_elem_of_fmap in Hfound as (job & -> & Hjob).
  apply list_elem_of_omap in Hentry as (bullet & Hb & Hentry).
  destruct (decide (_improve_bullet_point bullet ≠ bullet)) as [Hne|]; [|done].
  injection Hentry as <-. cbn. split; [done|]. split; [done|]. by exists job.
Qed.

Lemma split_accomplished x :
  Str.split ("Accomplished " +:+ x) = "Accomplished" :: Str.split x.
Proof. reflexivity. Qed.

Lemma optimize_summary_prefixed x jd :
  _optimize_summary ("Accomplished " +:+ x) jd
  = Ok ("Accomplished accomplished " +:+ Str.lower x).
Proof.
  unfold _optimize_summary. rewrite split_accomplished.
  change (String.eqb ("Accomplished " +:+ x) "") with false. cbv iota.
  change (index ("Accomplished" :: Str.split x) 0) with (Ok "Accomplished").
  cbn [mbind result_bind].
  replace (bool_decide (Str.lower "Accomplished" ∈ Str.lower <$> action_verbs))
    with false by (vm_compute; reflexivity).
  reflexivity.
Qed.

(** X15: a summary whose first word is not an action verb is lower-cased
    and prefixed with [Accomplished]; that word is not an action verb itself,
    so optimizing the result again prefixes it once more. *)
Theorem optimize_summary_twice summary jd once :
  summary ≠ "" →
  Str.lower (default "" (head (Str.split summary))) ∉ Str.lower <$> action_verbs →
  _optimize_summary summary jd = Ok once →
  once = "Accomplished " +:+ Str.lower summary ∧
  _optimize_summary once jd
  = Ok ("Accomplished accomplished " +:+ Str.lower summary).
Proof.
  intros Hne Hverb Hrun.
  assert (once = "Accomplished " +:+ Str.lower summary) as ->.
  { revert Hrun. unfold _optimize_summary.
    destruct (String.eqb_spec summary "") as [->|_]; [done|].
    assert (match Str.split summary with
            | [] => Ok ""
            | w :: ws => word ← index (w :: ws) 0; Ok (Str.lower word)
            end = Ok (Str.lower (default "" (head (Str.split summary))))) as ->.
    { by destruct (Str.split summary). }
    cbn [mbind result_bind]. rewrite bool_decide_eq_false_2 by done.
    by intros [= <-]. }
  split; [done|]. by rewrite optimize_summary_prefixed, lower_idemp.
Qed.

Lemma optimize_summary_twice_witness :
  "engineer at ACME" ≠ "" ∧
  (Str.lower (default "" (head (Str.split "engineer at ACME")))
     ∉ Str.lower <$> action_verbs) ∧
  _optimize_summary "engineer at ACME" "" = Ok "Accomplished engineer at acme" ∧
  _optimize_summary "Accomplished engineer at acme" ""
  = Ok "Accomplished accomplished engineer at acme".
Proof.
  assert ("engineer at ACME" ≠ "") as H1 by discriminate.
  assert (Str.lower (default "" (head (Str.split "engineer at ACME")))
          ∉ Str.lower <$> action_verbs) as H2.
  { apply (bool_decide_unpack _). vm_compute. exact I. }
  assert (_optimize_summary "engineer at ACME" "" = Ok "Accomplished engineer at acme")
    as H3 by (vm_compute; reflexivity).
  split; [exact H1|]. split; [exact H2|]. split; [exact H3|].
  exact (proj2 (optimize_summary_twice "engineer at ACME" "" _ H1 H2 H3)).
Defined.

Lemma lower_capitalize s : Str.lower (Str.capitalize s) = Str.lower s.
Proof.
  destruct s as [|c t]; [done|]. unfold Str.capitalize.
  by rewrite !lower_cons, lower_upper_chr, lower_idemp.
Qed.

Lemma action_verbs_lower verb : verb ∈ action_verbs → Str.lower verb = verb.
Proof.
  assert (Forall (λ verb, Str.lower verb = verb) action_verbs) as H.
  { apply (bool_decide_unpack _). vm_compute. exact I. }
  intros Hv. by eapply Forall_forall in H.
Qed.

Lemma context_verb_cases text :
  context_verb context_verbs text
  ∈ ["Managed"; "Developed"; "Analyzed"; "Improved"; "Implemented"].
Proof.
  unfold context_verbs. cbn [context_verb].
  repeat match goal with |- context [search ?r text] => destruct (search r text) end;
    rewrite !elem_of_cons; auto 10.
Qed.

Lemma context_verb_is_action_verb text :
  Str.lower (context_verb context_verbs text) ∈ action_verbs.
Proof.
  pose proof (context_verb_cases text) as H.
  rewrite !elem_of_cons, elem_of_nil in H.
  destruct H as [->|[->|[->|[->|[->|[]]]]]];
    apply (bool_decide_unpack _); vm_compute; exact I.
Qed.

Lemma upper_not_lower c : Chr.islower (Chr.upper c) = false.
Proof. destruct c as [[] [] [] [] [] [] [] []]; reflexivity. Qed.

(** The last two steps of [_improve_bullet_point] keep what the text
    contains up to case. *)
Lemma finished_contains verb improved :
  Str.contains verb (Str.lower improved) = true →
  Str.contains verb
    (Str.lower (match search quantified (Str.capitalize improved) with
                | Some _ => Str.capitalize improved
                | None => Str.capitalize improved +:+ advice
                end)) = true.
Proof.
  intros H. destruct (search _ _).
  - by rewrite lower_capitalize.
  - rewrite lower_app, lower_capitalize. by apply contains_app_l.
Qed.

(** X16: the rewritten bullet contains an action verb of the optimizer's
    list, up to case, whatever the bullet was. *)
Theorem improve_bullet_has_action_verb bullet :
  ∃ verb, verb ∈ action_verbs ∧
    Str.contains verb (Str.lower (_improve_bullet_point bullet)) = true.
Proof.
  unfold _improve_bullet_point.
  set (improved := foldl _ _ weak_phrases).
  destruct (bool_decide _) eqn:E.
  - apply bool_decide_eq_true in E. apply Exists_exists in E as (verb & Hv & Hc).
    exists verb. split; [done|]. apply finished_contains.
    rewrite <- (action_verbs_lower verb Hv). by apply contains_lower.
  - exists (Str.lower (context_verb context_verbs improved)).
    split; [apply context_verb_is_action_verb|].
    apply finished_contains. rewrite lower_app. apply contains_app_l, contains_refl.
Qed.

(** X17: for a bullet of ASCII text the rewritten bullet is not empty, does
    not begin with a lower-case letter, and has no upper-case letter after
    its first character: the capitals of names and acronyms in the bullet
    are lost.  (Outside ASCII, [str.capitalize] can leave a lower-case
    letter first or put a capital later.) *)
Theorem improve_bullet_casing bullet :
  Str.isascii bullet = true →
  ∃ c rest, _improve_bullet_point bullet = String c rest ∧
            Chr.islower c = false ∧ Str.lower rest = rest.
Proof.
  intros _. unfold _improve_bullet_point.
  set (improved := foldl _ _ weak_phrases).
  assert (∀ text, text ≠ "" →
    ∃ c rest, match search quantified (Str.capitalize text) with
              | Some _ => Str.capitalize text
              | None => Str.capitalize text +:+ advice
              end = String c rest ∧ Chr.islower c = false ∧ Str.lower rest = rest)
    as Hfinish.
  { intros [|c t] Hne; [done|]. unfold Str.capitalize.
    destruct (search _ _).
    - eexists _, _. split; [reflexivity|]. split; [apply upper_not_lower|apply lower_idemp].
    - rewrite app_cons. eexists _, _. split; [reflexivity|].
      split; [apply upper_not_lower|]. by rewrite lower_app, lower_idemp. }
  apply Hfinish. destruct (bool_decide _) eqn:E.
  - intros Himp. rewrite Himp in E. revert E. vm_compute. discriminate.
  - pose proof (context_verb_cases improved) as H.
    rewrite !elem_of_cons, elem_of_nil in H.
    destruct H as [->|[->|[->|[->|[->|[]]]]]]; discriminate.
Qed.

Lemma improve_bullet_casing_witness :
  Str.isascii "Deployed the API on AWS" = true ∧
  ∃ c rest, _improve_bullet_point "Deployed the API on AWS" = String c rest ∧
            Chr.islower c = false ∧ Str.lower rest = rest.
Proof.
  split; [reflexivity|].
  exact (improve_bullet_casing "Deployed the API on AWS" eq_refl).
Defined.

End Suggestions.

(** ** The parser's sections, jobs, degrees, projects and dates *)

Section Parser.
Import ResumeParser Re.

(** The text of a match of a pattern that ends with four digits. *)
Lemma date_match a prev s n :
  match_len (Cat a (digits 4 4)) (Cursor prev s) = Some n →
  ∃ before year, Str.take n s = before +:+ year ∧ Str.len year = 4 ∧
                 Stated.all_in Chr.isdigit year = true.
Proof.
  unfold match_len. cbn [run].
  destruct (run a _ _) as [e|] eqn:E; [|done]. intros [= <-].
  apply run_consumes in E as (m & q & Hs & E). cbn [rest] in Hs. subst s.
  unfold digits in E. cbn [run] in E.
  apply rep_max_bound in E as (year & q' & Hq & Hlo & Hhi & Hyear & [= ->]).
  specialize (Hhi 4 eq_refl). exists m, year. rewrite Hq.
  split; [|split; [lia|done]].
  rewrite <- app_assoc_str, !len_app.
  replace (Str.len m + Str.len year + Str.len (rest e) - Str.len (rest e))
    with (Str.len (m +:+ year)) by (rewrite len_app; lia).
  apply take_app.
Qed.

(** X18: every date extracted from a text is a piece of the text that ends
    with four digits. *)
Theorem extract_dates_spec text date :
  date ∈ _extract_dates text →
  Str.contains date text = true ∧
  ∃ before year, date = before +:+ year ∧ Str.len year = 4 ∧
                 Stated.all_in Chr.isdigit year = true.
Proof.
  unfold _extract_dates. rewrite list_elem_of_join.
  intros (found & Hdate & Hfound).
  apply list_elem_of_fmap in Hfound as (pattern & -> & Hpattern).
  split; [by eapply findall_contains|].
  apply (hits_match pattern
           (λ date, ∃ before year, date = before +:+ year ∧ Str.len year = 4 ∧
                                   Stated.all_in Chr.isdigit year = true))
    in Hdate; [done|].
  intros prev s n.
  unfold date_patterns in Hpattern.
  rewrite !elem_of_cons, elem_of_nil in Hpattern.
  destruct Hpattern as [->|[->|[->|[]]]].
  - intros H.
    apply (date_match
             (seq [WordB;
                   alts (lit <$> ["Jan"; "Feb"; "Mar"; "Apr"; "May"; "Jun";
                                  "Jul"; "Aug"; "Sep"; "Oct"; "Nov"; "Dec"]);
                   star Chr.islower; chr " "]) prev s n).
    exact H.
  - intros H. apply (date_match (seq [WordB; digits 1 2; chr "/"]) prev s n).
    exact H.
  - apply (date_match WordB).
Qed.

Lemma extract_dates_spec_witness :
  "Mar 2021" ∈ _extract_dates "Engineer, Mar 2021 to 2023" ∧
  Str.contains "Mar 2021" "Engineer, Mar 2021 to 2023" = true ∧
  ∃ before year, "Mar 2021" = before +:+ year ∧ Str.len year = 4 ∧
                 Stated.all_in Chr.isdigit year = true.
Proof.
  assert ("Mar 2021" ∈ _extract_dates "Engineer, Mar 2021 to 2023") as H.
  { vm_compute. apply list_elem_of_here. }
  split; [exact H|].
  exact (extract_dates_spec "Engineer, Mar 2021 to 2023" "Mar 2021" H).
Defined.

Lemma no_title_in_empty_line : is_job_title "" = false.
Proof. vm_compute. reflexivity. Qed.

Lemma job_step_titles line state :
  title <$> flush (job_step state line)
  = (title <$> flush state)
    ++ filter (λ l, is_job_title l = true) [Str.strip line].
Proof.
  destruct state as [jobs current]. unfold job_step.
  destruct (String.eqb_spec (Str.strip line) "") as [->|Hne].
  { rewrite filter_cons_False by (rewrite no_title_in_empty_line; discriminate).
    by rewrite app_nil_r. }
  destruct (is_job_title (Str.strip line)) eqn:Ht.
  - rewrite filter_cons_True by done. rewrite filter_nil.
    destruct current as [j|]; cbn [flush]; by rewrite !fmap_app.
  - rewrite filter_cons_False by congruence. rewrite filter_nil, app_nil_r.
    destruct current as [j|]; [|done].
    destruct (10 <? Str.len (Str.strip line)); [|done].
    cbn [flush]. by rewrite !fmap_app.
Qed.

Lemma job_step_shape (P : job → Prop) line state :
  (∀ l, is_job_title l = true → P (Job l "" (_extract_dates l) [])) →
  (∀ j l, P j → is_job_title l = false → (10 < Str.len l)%nat →
          P (Job (title j) (company j) (dates j) (description j ++ [l]))) →
  Forall P (flush state) → Forall P (flush (job_step state line)).
Proof.
  intros Hnew Hadd. destruct state as [jobs current]. unfold job_step.
  destruct (String.eqb (Str.strip line) ""); [done|].
  destruct (is_job_title (Str.strip line)) eqn:Ht.
  - intros H. cbn [flush]. apply Forall_app. split; [|by repeat constructor; auto].
    by destruct current.
  - destruct current as [j|]; [|done].
    destruct (10 <? Str.len (Str.strip line)) eqn:El; [|done].
    cbn [flush]. rewrite !Forall_app, !Forall_singleton. intros [? ?].
    split; [done|]. apply Hadd; [done..|]. by apply Nat.ltb_lt.
Qed.

Lemma foldl_job_step_titles lines : ∀ state,
  title <$> flush (foldl job_step state lines)
  = (title <$> flush state)
    ++ filter (λ l, is_job_title l = true) (Str.strip <$> lines).
Proof.
  induction lines as [|line lines IH]; intros state; cbn [foldl fmap list_fmap].
  - by rewrite filter_nil, app_nil_r.
  - rewrite IH, job_step_titles, <- app_assoc. f_equal.
    by rewrite <- filter_app.
Qed.

Lemma foldl_job_step_shape (P : job → Prop) lines :
  (∀ l, is_job_title l = true → P (Job l "" (_extract_dates l) [])) →
  (∀ j l, P j → is_job_title l = false → (10 < Str.len l)%nat →
          P (Job (title j) (company j) (dates j) (description j ++ [l]))) →
  ∀ state, Forall P (flush state) → Forall P (flush (foldl job_step state lines)).
Proof.
  intros Hnew Hadd. induction lines as [|line lines IH]; intros state H; [done|].
  cbn [foldl]. apply IH. by apply job_step_shape.
Qed.

(** X19: the jobs parsed from a section are, in order, its stripped lines
    that contain a title word; a job has an empty company and the dates of
    its title line, and its description consists of lines longer than ten
    characters that contain no title word. *)
Theorem parse_jobs_spec text :
  title <$> _parse_jobs text
  = filter (λ line, is_job_title line = true)
           (Str.strip <$> Str.split_on Chr.newline text) ∧
  Forall (λ j, company j = "" ∧ dates j = _extract_dates (title j) ∧
               Forall (λ line, 10 < Str.len line ∧ is_job_title line = false)
                      (description j))
         (_parse_jobs text).
Proof.
  unfold _parse_jobs. split; [by rewrite foldl_job_step_titles|].
  apply foldl_job_step_shape; [| |by constructor].
  - intros l Hl. by repeat split.
  - intros j l (Hc & Hd & Hlines) Hl Hlen. cbn. repeat split; [done..|].
    apply Forall_app. split; [done|]. by repeat constructor.
Qed.

(** The lines of the jobs, each title followed by its description. *)
Lemma job_step_lines line jobs j :
  ∃ jobs' j',
    job_step (jobs, Some j) line = (jobs', Some j') ∧
    mjoin ((λ j, title j :: description j) <$> (jobs' ++ [j']))
    = mjoin ((λ j, title j :: description j) <$> (jobs ++ [j]))
      ++ filter (λ l, is_job_title l = true ∨ 10 < Str.len l) [Str.strip line].
Proof.
  unfold job_step.
  destruct (String.eqb_spec (Str.strip line) "") as [->|Hne].
  { exists jobs, j. split; [done|].
    rewrite filter_cons_False, filter_nil, app_nil_r; [done|].
    rewrite no_title_in_empty_line. cbn. intros [?|?]; [done|lia]. }
  destruct (is_job_title (Str.strip line)) eqn:Ht.
  - eexists _, _. split; [reflexivity|].
    rewrite filter_cons_True by (by left). rewrite filter_nil.
    rewrite (fmap_app _ (jobs ++ [j])), join_app. by cbn.
  - destruct (10 <? Str.len (Str.strip line)) eqn:El.
    + eexists _, _. split; [reflexivity|]. apply Nat.ltb_lt in El.
      rewrite filter_cons_True by (by right). rewrite filter_nil.
      rewrite !fmap_app, !join_app. cbn. rewrite !app_nil_r.
      by rewrite <- !app_assoc.
    + exists jobs, j. split; [done|]. apply Nat.ltb_ge in El.
      rewrite filter_cons_False, filter_nil, app_nil_r; [done|].
      intros [?|?]; [congruence|lia].
Qed.

Lemma foldl_job_step_lines lines : ∀ jobs j,
  mjoin ((λ j, title j :: description j)
           <$> flush (foldl job_step (jobs, Some j) lines))
  = mjoin ((λ j, title j :: description j) <$> (jobs ++ [j]))
    ++ filter (λ l, is_job_title l = true ∨ 10 < Str.len l) (Str.strip <$> lines).
Proof.
  induction lines as [|line lines IH]; intros jobs j; cbn [foldl fmap list_fmap].
  - by rewrite filter_nil, app_nil_r.
  - destruct (job_step_lines line jobs j) as (jobs' & j' & -> & Hstep).
    rewrite IH, Hstep, <- app_assoc. f_equal. by rewrite <- filter_app.
Qed.

Lemma foldl_job_step_idle lines : ∀ jobs,
  Forall (λ l, is_job_title l = false) (Str.strip <$> lines) →
  foldl job_step (jobs, None) lines = (jobs, None).
Proof.
  induction lines as [|line lines IH]; intros jobs; [done|].
  cbn [foldl fmap list_fmap]. intros [Hl Hrest]%Forall_cons.
  replace (job_step (jobs, None) line) with (jobs, @None job); [by apply IH|].
  unfold job_step. destruct (String.eqb _ _); [done|]. by rewrite Hl.
Qed.

(** X20: the lines before the first title line are dropped; from there on
    the jobs hold, in order, every title line and every other line longer
    than ten characters, each under the last title before it. *)
Theorem parse_jobs_grouping text before first after :
  Str.split_on Chr.newline text = before ++ first :: after →
  Forall (λ line, is_job_title line = false) (Str.strip <$> before) →
  is_job_title (Str.strip first) = true →
  mjoin ((λ j, title j :: description j) <$> _parse_jobs text)
  = Str.strip first
    :: filter (λ line, is_job_title line = true ∨ 10 < Str.len line)
              (Str.strip <$> after).
Proof.
  intros Hsplit Hbefore Hfirst. unfold _parse_jobs.
  rewrite Hsplit, foldl_app, foldl_job_step_idle by done. cbn [foldl].
  assert (job_step ([], None) first
          = ([], Some (Job (Str.strip first) "" (_extract_dates (Str.strip first)) [])))
    as ->.
  { unfold job_step. rewrite Hfirst.
    destruct (String.eqb_spec (Str.strip first) "") as [E|]; [|done].
    rewrite E, no_title_in_empty_line in Hfirst. done. }
  by rewrite foldl_job_step_lines.
Qed.

Lemma parse_jobs_grouping_witness :
  let text := Str.join nl [ "Experience"; "Senior Engineer 2020";
                            "Built the billing service"; "short" ] in
  Str.split_on Chr.newline text
    = ["Experience"] ++ "Senior Engineer 2020" :: ["Built the billing service"; "short"] ∧
  Forall (λ line, is_job_title line = false) (Str.strip <$> ["Experience"]) ∧
  is_job_title (Str.strip "Senior Engineer 2020") = true ∧
  mjoin ((λ j, title j :: description j) <$> _parse_jobs text)
  = Str.strip "Senior Engineer 2020"
    :: filter (λ line, is_job_title line = true ∨ 10 < Str.len line)
              (Str.strip <$> ["Built the billing service"; "short"]).
Proof.
  intros text.
  assert (Str.split_on Chr.newline text
          = ["Experience"] ++ "Senior Engineer 2020"
              :: ["Built the billing service"; "short"]) as H1 by reflexivity.
  assert (Forall (λ line, is_job_title line = false) (Str.strip <$> ["Experience"]))
    as H2 by (repeat constructor).
  assert (is_job_title (Str.strip "Senior Engineer 2020") = true) as H3
    by (vm_compute; reflexivity).
  split; [exact H1|]. split; [exact H2|]. split; [exact H3|].
  exact (parse_jobs_grouping text _ _ _ H1 H2 H3).
Defined.

(** X21: a line is taken for a job title exactly when its lower-casing
    contains one of eight words anywhere, also inside another word. *)
Theorem is_job_title_iff line :
  is_job_title line = true ↔
  ∃ word, word ∈ [ "senior"; "junior"; "lead"; "manager"; "director";
                   "engineer"; "developer"; "analyst" ] ∧
          Str.contains word (Str.lower line) = true.
Proof.
  unfold is_job_title, title_pattern. rewrite bool_decide_eq_true.
  apply search_words. repeat constructor; discriminate.
Qed.

Lemma no_degree_in_empty_line : is_degree "" = false.
Proof. vm_compute. reflexivity. Qed.

Lemma degree_step_names line state :
  degree_name <$> flush (degree_step state line)
  = (degree_name <$> flush state)
    ++ filter (λ l, is_degree l = true) [Str.strip line].
Proof.
  destruct state as [done current]. unfold degree_step.
  destruct (String.eqb_spec (Str.strip line) "") as [->|Hne].
  { rewrite filter_cons_False by (rewrite no_degree_in_empty_line; discriminate).
    by rewrite app_nil_r. }
  destruct (is_degree (Str.strip line)) eqn:Ht.
  - rewrite filter_cons_True by done. rewrite filter_nil.
    destruct current as [e|]; cbn [flush]; by rewrite !fmap_app.
  - rewrite filter_cons_False by congruence. rewrite filter_nil, app_nil_r.
    destruct current as [e|]; [|done].
    destruct (5 <? Str.len (Str.strip line)); [|done].
    cbn [flush]. by rewrite !fmap_app.
Qed.

Lemma degree_step_shape (P : degree → Prop) line state :
  (∀ l, is_degree l = true → P (Degree l "" (_extract_dates l) [])) →
  (∀ e l, P e → is_degree l = false → (5 < Str.len l)%nat →
          P (Degree (degree_name e) (institution e) (degree_dates e)
               (degree_details e ++ [l]))) →
  Forall P (flush state) → Forall P (flush (degree_step state line)).
Proof.
  intros Hnew Hadd. destruct state as [done current]. unfold degree_step.
  destruct (String.eqb (Str.strip line) ""); [done|].
  destruct (is_degree (Str.strip line)) eqn:Ht.
  - intros H. cbn [flush]. apply Forall_app. split; [|by repeat constructor; auto].
    by destruct current.
  - destruct current as [e|]; [|done].
    destruct (5 <? Str.len (Str.strip line)) eqn:El; [|done].
    cbn [flush]. rewrite !Forall_app, !Forall_singleton. intros [? ?].
    split; [done|]. apply Hadd; [done..|]. by apply Nat.ltb_lt.
Qed.

Lemma foldl_degree_step_names lines : ∀ state,
  degree_name <$> flush (foldl degree_step state lines)
  = (degree_name <$> flush state)
    ++ filter (λ l, is_degree l = true) (Str.strip <$> lines).
Proof.
  induction lines as [|line lines IH]; intros state; cbn [foldl fmap list_fmap].
  - by rewrite filter_nil, app_nil_r.
  - rewrite IH, degree_step_names, <- app_assoc. f_equal.
    by rewrite <- filter_app.
Qed.

Lemma foldl_degree_step_shape (P : degree → Prop) lines :
  (∀ l, is_degree l = true → P (Degree l "" (_extract_dates l) [])) →
  (∀ e l, P e → is_degree l = false → (5 < Str.len l)%nat →
          P (Degree (degree_name e) (institution e) (degree_dates e)
               (degree_details e ++ [l]))) →
  ∀ state, Forall P (flush state) → Forall P (flush (foldl degree_step state lines)).
Proof.
  intros Hnew Hadd. induction lines as [|line lines IH]; intros state H; [done|].
  cbn [foldl]. apply IH. by apply degree_step_shape.
Qed.

(** X22: the degrees parsed from a section are, in order, its stripped
    lines that match the degree pattern; a degree has an empty institution
    and the dates of its line, and its details are lines longer than five
    characters that do not match the pattern. *)
Theorem parse_education_institutions_spec text :
  degree_name <$> _parse_education_institutions text
  = filter (λ line, is_degree line = true)
           (Str.strip <$> Str.split_on Chr.newline text) ∧
  Forall (λ e, institution e = "" ∧
               degree_dates e = _extract_dates (degree_name e) ∧
               Forall (λ line, 5 < Str.len line ∧ is_degree line = false)
                      (degree_details e))
         (_parse_education_institutions text).
Proof.
  unfold _parse_education_institutions.
  split; [by rewrite foldl_degree_step_names|].
  apply foldl_degree_step_shape; [| |by constructor].
  - intros l Hl. by repeat split.
  - intros e l (Hc & Hd & Hlines) Hl Hlen. cbn. repeat split; [done..|].
    apply Forall_app. split; [done|]. by repeat constructor.
Qed.

Lemma project_step_names line state :
  project_name <$> flush (project_step state line)
  = (project_name <$> flush state)
    ++ filter (λ l, l ≠ "" ∧ is_project_title l = true) [Str.strip line].
Proof.
  destruct state as [done current]. unfold project_step.
  destruct (String.eqb_spec (Str.strip line) "") as [->|Hne].
  { rewrite filter_cons_False by (by intros [? _]). by rewrite app_nil_r. }
  destruct (is_project_title (Str.strip line)) eqn:Ht.
  - rewrite filter_cons_True by done. rewrite filter_nil.
    destruct current as [p|]; cbn [flush]; by rewrite !fmap_app.
  - rewrite filter_cons_False by (intros [_ ?]; congruence).
    rewrite filter_nil, app_nil_r.
    destruct current as [p|]; [|done].
    destruct (10 <? Str.len (Str.strip line)); [|done].
    cbn [flush]. by rewrite !fmap_app.
Qed.

Lemma project_step_shape (P : project → Prop) line state :
  (∀ l, P (Project l [])) →
  (∀ p l, P p → is_project_title l = false → (10 < Str.len l)%nat →
          P (Project (project_name p) (project_description p ++ [l]))) →
  Forall P (flush state) → Forall P (flush (project_step state line)).
Proof.
  intros Hnew Hadd. destruct state as [done current]. unfold project_step.
  destruct (String.eqb (Str.strip line) ""); [done|].
  destruct (is_project_title (Str.strip line)) eqn:Ht.
  - intros H. cbn [flush]. apply Forall_app. split; [|by repeat constructor; auto].
    by destruct current.
  - destruct current as [p|]; [|done].
    destruct (10 <? Str.len (Str.strip line)) eqn:El; [|done].
    cbn [flush]. rewrite !Forall_app, !Forall_singleton. intros [? ?].
    split; [done|]. apply Hadd; [done..|]. by apply Nat.ltb_lt.
Qed.

Lemma foldl_project_step_names lines : ∀ state,
  project_name <$> flush (foldl project_step state lines)
  = (project_name <$> flush state)
    ++ filter (λ l, l ≠ "" ∧ is_project_title l = true) (Str.strip <$> lines).
Proof.
  induction lines as [|line lines IH]; intros state; cbn [foldl fmap list_fmap].
  - by rewrite filter_nil, app_nil_r.
  - rewrite IH, project_step_names, <- app_assoc. f_equal.
    by rewrite <- filter_app.
Qed.

Lemma foldl_project_step_shape (P : project → Prop) lines :
  (∀ l, P (Project l [])) →
  (∀ p l, P p → is_project_title l = false → (10 < Str.len l)%nat →
          P (Project (project_name p) (project_description p ++ [l]))) →
  ∀ state, Forall P (flush state) → Forall P (flush (foldl project_step state lines)).
Proof.
  intros Hnew Hadd. induction lines as [|line lines IH]; intros state H; [done|].
  cbn [foldl]. apply IH. by apply project_step_shape.
Qed.

(** X23: the projects parsed from a section are named, in order, by its
    non-empty stripped lines that are shorter than 100 characters and begin
    neither with a hyphen nor with the mis-encoded bullet; a description
    line is longer than ten characters, and has at least 100 or begins with
    one of the two. *)
Theorem parse_project_entries_spec text :
  project_name <$> _parse_project_entries text
  = filter (λ line, line ≠ "" ∧ Str.len line < 100 ∧
                    Str.startswith "-" line = false ∧
                    Str.startswith misread_bullet line = false)
           (Str.strip <$> Str.split_on Chr.newline text) ∧
  Forall (λ p, Forall (λ line, 10 < Str.len line ∧
                               (100 ≤ Str.len line ∨
                                Str.startswith "-" line = true ∨
                                Str.startswith misread_bullet line = true))
                      (project_description p))
         (_parse_project_entries text).
Proof.
  unfold _parse_project_entries. split.
  - rewrite foldl_project_step_names. apply list_filter_iff. intros line.
    unfold is_project_title.
    rewrite andb_true_iff, Nat.ltb_lt, negb_true_iff, orb_false_iff. tauto.
  - apply foldl_project_step_shape; [| |by constructor].
    + intros l. constructor.
    + intros p l Hp Hl Hlen. cbn. apply Forall_app. split; [done|].
      apply Forall_singleton. split; [done|]. unfold is_project_title in Hl.
      apply andb_false_iff in Hl as [Hl|Hl].
      * left. by apply Nat.ltb_ge.
      * right. by apply negb_false_iff, orb_true_iff in Hl.
Qed.

Lemma findall_section_pattern keyword stops text :
  Str.contains (Str.lower keyword) (Str.lower text) = false →
  findall (section_pattern keyword stops) text = [].
Proof.
  intros H. unfold findall, tokens.
  rewrite (scan_without_literal (Str.lower keyword)); [done| |done].
  intros p e. unfold section_pattern. cbn [seq run]. apply run_lit_i.
Qed.

Lemma sections_without_keywords keywords stops text :
  Forall (λ keyword, Str.contains (Str.lower keyword) (Str.lower text) = false)
         keywords →
  sections ((λ keyword, section_pattern keyword stops) <$> keywords) text = [].
Proof.
  unfold sections. induction 1 as [|keyword keywords Hk _ IH]; [done|].
  rewrite !fmap_cons.
  change (findall (section_pattern keyword stops) text
          ++ mjoin ((λ pattern, findall pattern text)
                      <$> ((λ keyword, section_pattern keyword stops) <$> keywords))
          = []).
  by rewrite findall_section_pattern, IH.
Qed.

(** X24: no experience is extracted from an ASCII text that contains none
    of [experience], [work], [employment] in any case; no education without
    [education] or [academic]; no project without [projects] or
    [portfolio].  (Outside ASCII a keyword can match through a letter that
    only the pattern's case folding relates to it.) *)
Theorem sections_need_keywords text :
  Str.isascii text = true →
  (Forall (λ keyword, Str.contains keyword (Str.lower text) = false)
          ["experience"; "work"; "employment"] →
   _extract_experience text = []) ∧
  (Forall (λ keyword, Str.contains keyword (Str.lower text) = false)
          ["education"; "academic"] →
   _extract_education text = []) ∧
  (Forall (λ keyword, Str.contains keyword (Str.lower text) = false)
          ["projects"; "portfolio"] →
   _extract_projects text = []).
Proof.
  intros _.
  unfold _extract_experience, _extract_education, _extract_projects.
  unfold experience_patterns, education_patterns, project_patterns.
  assert (∀ keywords : list string,
            Forall (λ keyword, Str.lower keyword = keyword) keywords →
            Forall (λ keyword, Str.contains keyword (Str.lower text) = false) keywords →
            Forall (λ keyword, Str.contains (Str.lower keyword) (Str.lower text) = false)
                   keywords) as Hlower.
  { intros keywords Hl Hk. apply Forall_forall. intros keyword Hin.
    rewrite Forall_forall in Hl, Hk. rewrite Hl by done. by apply Hk. }
  repeat split; intros H; rewrite sections_without_keywords; try done;
    apply Hlower; try done; repeat constructor.
Qed.

Lemma sections_need_keywords_witness :
  Str.isascii "Jane Doe" = true ∧
  Forall (λ keyword, Str.contains keyword (Str.lower "Jane Doe") = false)
         ["experience"; "work"; "employment"] ∧
  _extract_experience "Jane Doe" = [].
Proof.
  assert (Forall (λ keyword, Str.contains keyword (Str.lower "Jane Doe") = false)
                 ["experience"; "work"; "employment"]) as H
    by (repeat constructor).
  split; [reflexivity|]. split; [exact H|].
  exact (proj1 (sections_need_keywords "Jane Doe" eq_refl) H).
Defined.

Lemma run_letters (a b c1 c2 : ascii) prev line :
  Chr.lower c1 = Chr.lower a → Chr.lower c2 = Chr.lower b →
  Chr.eqb "." c2 = false →
  is_Some (run (letters a b) (Cursor prev (String c1 (String c2 line))) Some).
Proof.
  intros H1 H2 Hdot. unfold letters, dot.
  cbn [seq run rest before chr_i rep_max].
  rewrite H1, chr_eqb_refl, Hdot. cbn [andb rest]. rewrite H2, chr_eqb_refl.
  apply rep_max_zero.
Qed.

(** X25: the degree pattern has no closing word boundary, so a line whose
    first word, or a word after a space, begins with B or M followed by A or
    S, in either case, is taken for a degree: [Major], [Based], [Massachusetts]. *)
Theorem is_degree_by_two_letters (c1 c2 : ascii) line :
  c1 ∈ ["B"; "b"; "M"; "m"]%char → c2 ∈ ["A"; "a"; "S"; "s"]%char →
  is_degree (String c1 (String c2 line)) = true ∧
  ∀ a, is_degree (a +:+ " " +:+ String c1 (String c2 line)) = true.
Proof.
  intros H1 H2.
  assert (∀ prev, word_at prev = false →
            is_Some (run degree_pattern
                       (Cursor prev (String c1 (String c2 line))) Some))
    as Hrun.
  { intros prev Hprev. unfold degree_pattern.
    change (seq [WordB; ?r]) with (Cat WordB r). cbn [run before rest next].
    rewrite Hprev.
    assert (word_at (Some c1) = true) as ->.
    { rewrite !elem_of_cons, elem_of_nil in H1.
      by destruct H1 as [->|[->|[->|[->|[]]]]]. }
    cbn [xorb].
    assert (∃ a b, letters a b ∈ [ letters "B" "S"; letters "B" "A";
                                    letters "M" "S"; letters "M" "A" ] ∧
                   Chr.lower c1 = Chr.lower a ∧ Chr.lower c2 = Chr.lower b ∧
                   Chr.eqb "." c2 = false) as (a & b & Hab & Ha & Hb & Hdot).
    { rewrite !elem_of_cons, elem_of_nil in H1, H2.
      destruct H1 as [->|[->|[->|[->|[]]]]], H2 as [->|[->|[->|[->|[]]]]];
        first [ exists "B"%char, "S"%char; split; [set_solver|done]
              | exists "B"%char, "A"%char; split; [set_solver|done]
              | exists "M"%char, "S"%char; split; [set_solver|done]
              | exists "M"%char, "A"%char; split; [set_solver|done] ]. }
    apply (run_alts_here _ _ _ (letters a b)); [|by apply run_letters].
    rewrite !elem_of_cons, elem_of_nil in Hab. rewrite !elem_of_cons. tauto. }
  assert (∀ text, hits (scan degree_pattern 0 None text) ≠ [] →
                  is_degree text = true) as Hfound.
  { intros text H. unfold is_degree, search, findall, tokens.
    apply bool_decide_eq_true. by destruct (hits _). }
  split.
  - apply Hfound, scan_hit, Hrun. done.
  - intros a. apply Hfound, scan_after. intros prev.
    change (" " +:+ String c1 (String c2 line))
      with (String " " (String c1 (String c2 line))).
    apply scan_after_char, scan_hit, Hrun. done.
Qed.

Lemma is_degree_by_two_letters_witness :
  "M"%char ∈ ["B"; "b"; "M"; "m"]%char ∧ "a"%char ∈ ["A"; "a"; "S"; "s"]%char ∧
  is_degree "Major in Physics" = true ∧
  is_degree ("Dean's list, " +:+ " " +:+ "Major in Physics") = true.
Proof.
  assert ("M"%char ∈ ["B"; "b"; "M"; "m"]%char) as H1 by set_solver.
  assert ("a"%char ∈ ["A"; "a"; "S"; "s"]%char) as H2 by set_solver.
  split; [exact H1|]. split; [exact H2|].
  destruct (is_degree_by_two_letters "M" "a" "jor in Physics" H1 H2) as [Ha Hb].
  split; [exact Ha|]. exact (Hb "Dean's list, ").
Defined.

End Parser.

(** ** The optimizer's objects *)

Section Objects.
Import Py ResumeOptimizer.

Implicit Types (h g : heap) (l : loc) (v : value) (d : gmap string value).

Ltac binds := unfold mbind, mret, store_bind, store_ret.
Ltac step H := rewrite (bind_ok _ _ _ _ _ H).

Lemma unique_skills_sub s : ∀ (names : list string) seen,
  s ∈ unique_skills seen names → s ∈ names ∧ Str.lower s ∉ seen.
Proof.
  induction names as [|x names IH]; intros seen; cbn [unique_skills].
  - by intros ?%elem_of_nil.
  - destruct (decide (Str.lower x ∈ seen)) as [Hx|Hx].
    + intros [? ?]%IH. split; [by apply list_elem_of_further|done].
    + intros [->|[? Hs]%IH]%elem_of_cons; [split; [apply list_elem_of_here|done]|].
      split; [by apply list_elem_of_further|]. set_solver.
Qed.

Lemma unique_skills_nodup : ∀ (names : list string) seen,
  NoDup (Str.lower <$> unique_skills seen names).
Proof.
  induction names as [|x names IH]; intros seen; cbn [unique_skills]; [constructor|].
  destruct (decide (Str.lower x ∈ seen)) as [Hx|Hx]; [apply IH|].
  rewrite fmap_cons. constructor; [|apply IH].
  intros (y & Hy & Hin)%list_elem_of_fmap.
  apply unique_skills_sub in Hin as [_ Hin]. rewrite <- Hy in Hin. set_solver.
Qed.

Lemma unique_skills_covers s : ∀ (names : list string) seen,
  s ∈ names → Str.lower s ∈ seen ∨ Str.lower s ∈ Str.lower <$> unique_skills seen names.
Proof.
  induction names as [|x names IH]; intros seen; cbn [unique_skills].
  - by intros ?%elem_of_nil.
  - intros [->|Hs]%elem_of_cons.
    + destruct (decide (Str.lower x ∈ seen)); [by left|right].
      rewrite fmap_cons. apply list_elem_of_here.
    + destruct (decide (Str.lower x ∈ seen)); [by apply IH|].
      destruct (IH (seen ∪ {[Str.lower x]}) Hs) as [Hseen|Hin].
      * apply elem_of_union in Hseen as [?|Hsame]; [by left|right].
        apply elem_of_singleton in Hsame as ->.
        rewrite fmap_cons. apply list_elem_of_here.
      * right. rewrite fmap_cons. by apply list_elem_of_further.
Qed.

(** X26: [_enhance_skills] returns a new list and leaves the store it
    started from as it was; no two skills of the new list agree up to case,
    every skill of the resume is in it up to case, and it holds nothing but
    skills of the resume and suggested skills. *)
Theorem enhance_skills_spec k (current : list string) jd h :
  h !! k = Some (List (VStr <$> current)) →
  ∃ u h' enhanced,
    _enhance_skills k jd h = Ok (u, h') ∧ h !! u = None ∧ h ⊆ h' ∧
    h' !! u = Some (List (VStr <$> enhanced)) ∧
    NoDup (Str.lower <$> enhanced) ∧
    (∀ s, s ∈ current → Str.lower s ∈ Str.lower <$> enhanced) ∧
    (∀ s, s ∈ enhanced → s ∈ current ∨ s ∈ _suggest_skills current jd).
Proof.
  intros Hk.
  destruct (enhance_skills_ok k current jd h h (reflexivity _) Hk)
    as (u & h' & g' & Hrun & Hu & Hh & _ & Hg & _ & Hread).
  exists u, h', (enhanced_skills current jd).
  split; [done|]. split; [done|]. split; [done|]. split.
  { apply strs_inv in Hread as (l & [= <-] & Hl). by eapply lookup_weaken. }
  unfold enhanced_skills. split; [apply unique_skills_nodup|]. split.
  - intros s Hs.
    destruct (unique_skills_covers s
                (current ++ (if negb (String.eqb jd "")
                             then _suggest_skills current jd else [])) ∅)
      as [?|?]; [|set_solver|done].
    apply elem_of_app. by left.
  - intros s [Hs _]%unique_skills_sub. apply elem_of_app in Hs as [?|Hs]; [by left|].
    right. destruct (negb _); [done|]. by apply elem_of_nil in Hs.
Qed.

Lemma enhance_skills_spec_witness :
  let h : heap := {[ 1%positive := List (VStr <$> ["Python"; "python"; "SQL"]) ]} in
  h !! 1%positive = Some (List (VStr <$> ["Python"; "python"; "SQL"])) ∧
  ∃ u h' enhanced,
    _enhance_skills 1%positive "docker and sql" h = Ok (u, h') ∧
    h !! u = None ∧ h ⊆ h' ∧
    h' !! u = Some (List (VStr <$> enhanced)) ∧
    NoDup (Str.lower <$> enhanced) ∧
    (∀ s, s ∈ ["Python"; "python"; "SQL"] → Str.lower s ∈ Str.lower <$> enhanced) ∧
    (∀ s, s ∈ enhanced →
          s ∈ ["Python"; "python"; "SQL"]
          ∨ s ∈ _suggest_skills ["Python"; "python"; "SQL"] "docker and sql").
Proof.
  intros h.
  assert (h !! 1%positive = Some (List (VStr <$> ["Python"; "python"; "SQL"]))) as H
    by reflexivity.
  split; [exact H|].
  exact (enhance_skills_spec 1%positive ["Python"; "python"; "SQL"] "docker and sql" h H).
Defined.

Lemma region_lookup (us uk ind : value) region :
  default us (({[ "US" := us; "UK" := uk; "India" := ind ]} : gmap string value) !! region)
  = if decide (region = "UK") then uk
    else if decide (region = "India") then ind else us.
Proof.
  destruct (decide (region = "UK")) as [->|N1]; [by simplify_map_eq|].
  destruct (decide (region = "India")) as [->|N2]; [by simplify_map_eq|].
  destruct (decide (region = "US")) as [->|N3]; by simplify_map_eq.
Qed.

(** The formats of a region: those of the US unless the region is the UK or
    India, spelled exactly so. *)
Lemma regional_formatting_run o region d h :
  h !! o = Some (Dict d) →
  ∃ h' l,
    _apply_regional_formatting o region h = Ok (o, h') ∧
    h' !! o = Some (Dict (<["regional_format" := VRef l]> d)) ∧
    h !! l = None ∧
    h' !! l = Some (if bool_decide (region ∈ ["UK"; "India"])
                    then region_info "colour" "DD/MM/YYYY"
                    else region_info "color" "MM/DD/YYYY") ∧
    (∀ g, g ⊆ h → g !! o = None → g ⊆ h').
Proof.
  intros Ho.
  destruct (alloc_ok (region_info "color" "MM/DD/YYYY") h) as (us & Hus & Fus).
  set (h1 := <[us := _]> h) in *.
  destruct (alloc_ok (region_info "colour" "DD/MM/YYYY") h1) as (uk & Huk & Fuk).
  set (h2 := <[uk := _]> h1) in *.
  destruct (alloc_ok (region_info "colour" "DD/MM/YYYY") h2) as (ind & Hind & Find).
  set (h3 := <[ind := _]> h2) in *.
  set (table := ({[ "US" := VRef us; "UK" := VRef uk; "India" := VRef ind ]}
                 : gmap string value)).
  destruct (alloc_ok (Dict table) h3) as (rc & Hrc & Frc).
  set (h4 := <[rc := Dict table]> h3) in *.
  assert (h ⊆ h4) as Hsub.
  { etrans; [by apply insert_subseteq|]. etrans; [by apply insert_subseteq|].
    etrans; [by apply insert_subseteq|]. by apply insert_subseteq. }
  assert (us ≠ uk) as Nuk by (intros ->; unfold h1 in Fuk; by rewrite lookup_insert_eq in Fuk).
  assert (h2 !! us = Some (region_info "color" "MM/DD/YYYY")) as H2us.
  { unfold h2, h1. rewrite lookup_insert_ne by done. apply lookup_insert_eq. }
  assert (h2 !! uk = Some (region_info "colour" "DD/MM/YYYY")) as H2uk
    by apply lookup_insert_eq.
  assert (h2 ⊆ h4) as H24.
  { etrans; [by apply insert_subseteq|]. by apply insert_subseteq. }
  assert (h4 !! ind = Some (region_info "colour" "DD/MM/YYYY")) as H4ind.
  { eapply lookup_weaken; [apply lookup_insert_eq|]. by apply insert_subseteq. }
  assert (∀ l o', l ≠ o → h4 !! l = Some o' →
            <[o := Dict (<["regional_format" := VRef l]> d)]> h4 !! l = Some o')
    as Hkeep by (intros; by rewrite lookup_insert_ne).
  assert (∀ l, h !! l = None → l ≠ o) as Hfresh by (intros l Hl ->; congruence).
  assert (h !! uk = None) as Fuk0.
  { unfold h1 in Fuk. apply lookup_insert_None in Fuk. tauto. }
  assert (h !! ind = None) as Find0.
  { unfold h2, h1 in Find. rewrite !lookup_insert_None in Find. tauto. }
  set (v := default (VRef us) (table !! region)).
  assert (∃ l, v = VRef l ∧ h !! l = None ∧
               h4 !! l = Some (if bool_decide (region ∈ ["UK"; "India"])
                               then region_info "colour" "DD/MM/YYYY"
                               else region_info "color" "MM/DD/YYYY"))
    as (l & Hv & Fl & Hl).
  { unfold v, table. rewrite region_lookup.
    destruct (decide (region = "UK")) as [->|N1].
    { exists uk. split; [done|]. split; [done|]. by eapply lookup_weaken. }
    destruct (decide (region = "India")) as [->|N2]; [by exists ind|].
    rewrite bool_decide_eq_false_2 by set_solver.
    exists us. split; [done|]. split; [done|]. by eapply lookup_weaken. }
  exists (<[o := Dict (<["regional_format" := VRef l]> d)]> h4), l. split.
  { unfold _apply_regional_formatting. binds.
    step Hus. step Huk. step Hind. fold table. step Hrc.
    step (dict_getitem_ok rc "US" table (VRef us) h4
            ltac:(apply lookup_insert_eq) ltac:(apply lookup_insert_eq)).
    step (dict_get_ok rc region (VRef us) table h4 ltac:(apply lookup_insert_eq)).
    fold v. rewrite Hv.
    by step (dict_setitem_ok o "regional_format" (VRef l) d h4
               (lookup_weaken _ _ _ _ Ho Hsub)). }
  split; [apply lookup_insert_eq|]. split; [done|].
  split; [apply Hkeep; [by apply Hfresh|done]|].
  intros g Hg Hgo. apply insert_subseteq_r; [done|]. by etrans.
Qed.

(** The dict that [optimize_resume] returns: the entries of its argument
    with three of them replaced and one added. *)
Lemma optimize_resume_run p prof jd region h d :
  h !! p = Some (Dict d) → Load.profile_of h d = Some prof →
  ∃ r h' s' oe u l,
    optimize_resume p jd region h = Ok (r, h') ∧
    h' !! r = Some (Dict (<["regional_format" := VRef l]>
                            (<["skills" := VRef u]>
                               (<["experience" := VRef oe]>
                                  (<["summary" := VStr s']> d))))) ∧
    _optimize_summary (summary prof) jd = Ok s' ∧
    h !! r = None ∧ h !! oe = None ∧ h !! u = None ∧ h !! l = None ∧
    h' !! l = Some (if bool_decide (region ∈ ["UK"; "India"])
                    then region_info "colour" "DD/MM/YYYY"
                    else region_info "color" "MM/DD/YYYY").
Proof.
  intros Hp Hd.
  apply profile_of_inv in Hd as (Frt & Fsk & Fex & Fed & Fpr & Fpe & Fsu).
  destruct (field_inv _ _ _ _ Fsu) as (vsu & Dsu & Hsu).
  apply str_inv in Hsu as ->.
  destruct (field_inv _ _ _ _ Fex) as (vex & Dex & Hex).
  apply jobs_at_inv in Hex as (e & jobs & -> & He & Hjobs).
  destruct (field_inv _ _ _ _ Fsk) as (vsk & Dsk & Hsk).
  apply strs_inv in Hsk as (k & -> & Hk).
  destruct (optimize_summary_ok (summary prof) jd) as (s' & Hs').
  destruct (dict_copy_ok _ _ _ Hp) as (o & Hcopy & Fo).
  set (h1 := <[o := Dict d]> h) in *.
  assert (p ≠ o) as Npo by (intros ->; congruence).
  assert (h1 !! p = Some (Dict d)) as H1p by (unfold h1; by rewrite lookup_insert_ne).
  set (d1 := <["summary" := VStr s']> d).
  set (h2 := <[o := Dict d1]> h).
  assert (<[o := Dict d1]> h1 = h2) as E2 by apply insert_insert_eq.
  assert (h ⊆ h2) as Hh2 by (by apply insert_subseteq).
  pose proof (lookup_weaken _ _ _ _ Hp Hh2) as H2p.
  destruct (optimize_experience_ok e jobs (experience prof) h2 h Hh2 He Hjobs)
    as (oe & h3 & g3 & Hexp & Foe & Hh23 & Hg3 & Hg3h3 & Hfresh3 & Hread3).
  assert (g3 !! o = None) as G3o.
  { apply Hfresh3; [|done]. unfold h2. rewrite lookup_insert_eq. by eexists. }
  set (d2 := <["experience" := VRef oe]> d1).
  set (h4 := <[o := Dict d2]> h3).
  assert (h3 !! o = Some (Dict d1)) as H3o.
  { eapply lookup_weaken; [|exact Hh23]. apply lookup_insert_eq. }
  assert (g3 ⊆ h4) as Hg3h4 by (by apply insert_subseteq_r).
  pose proof (lookup_weaken _ _ _ _ (lookup_weaken _ _ _ _ Hp Hg3) Hg3h4) as H4p.
  destruct (enhance_skills_ok k (skills prof) jd h4 g3 Hg3h4
              (lookup_weaken _ _ _ _ Hk Hg3))
    as (u & h5 & g5 & Hskills & Fu & Hh45 & Hg5 & Hg5h5 & Hfresh5 & Hread5).
  assert (g5 !! o = None) as G5o.
  { apply Hfresh5; [|done]. unfold h4. rewrite lookup_insert_eq. by eexists. }
  set (d3 := <["skills" := VRef u]> d2).
  set (h6 := <[o := Dict d3]> h5).
  assert (h5 !! o = Some (Dict d2)) as H5o.
  { eapply lookup_weaken; [|exact Hh45]. apply lookup_insert_eq. }
  assert (g5 ⊆ h6) as Hg5h6 by (by apply insert_subseteq_r).
  destruct (regional_formatting_run o region d3 h6)
    as (h7 & l & Hreg & H7o & Fl & H7l & Hframe7); [apply lookup_insert_eq|].
  assert (h ⊆ h6) as Hh6 by (etrans; [exact Hg3|]; by etrans).
  exists o, h7, s', oe, u, l. split.
  { unfold optimize_resume. binds. step Hcopy.
    step (dict_getitem_ok p "summary" d _ h1 H1p Dsu). cbn [as_str].
    rewrite (bind_ok _ _ h1 (summary prof) h1) by done.
    rewrite (bind_ok (lift (_optimize_summary (summary prof) jd)) _ h1 s' h1)
      by (unfold lift; by rewrite Hs').
    step (dict_setitem_ok o "summary" (VStr s') d h1 ltac:(apply lookup_insert_eq)).
    fold d1. rewrite E2.
    step (dict_getitem_ok p "experience" d _ h2 H2p Dex). cbn [as_ref].
    rewrite (bind_ok _ _ h2 e h2) by done.
    step Hexp.
    step (dict_setitem_ok o "experience" (VRef oe) d1 h3 H3o).
    fold d2. fold h4.
    step (dict_getitem_ok p "skills" d _ h4 H4p Dsk). cbn [as_ref].
    rewrite (bind_ok _ _ h4 k h4) by done.
    step Hskills.
    step (dict_setitem_ok o "skills" (VRef u) d2 h5 H5o).
    fold d3. fold h6.
    by step Hreg. }
  split; [done|]. split; [done|]. split; [done|].
  split; [exact (lookup_None_weaken h h2 oe Foe Hh2)|].
  split; [apply (lookup_None_weaken h h4 u Fu); etrans; [exact Hg3|exact Hg3h4]|].
  split; [exact (lookup_None_weaken h h6 l Fl Hh6)|exact H7l].
Qed.

(** X27: [_apply_regional_formatting] updates the dict it is given in
    place and returns it; the entry [regional_format] refers to a new dict
    with the British spelling and day-first dates when the region is exactly
    [UK] or [India], and with the formats of the US for every other region,
    known or not. *)
Theorem apply_regional_formatting_spec o region d h :
  h !! o = Some (Dict d) →
  ∃ h' l,
    _apply_regional_formatting o region h = Ok (o, h') ∧
    h' !! o = Some (Dict (<["regional_format" := VRef l]> d)) ∧
    h !! l = None ∧
    h' !! l = Some (if bool_decide (region ∈ ["UK"; "India"])
                    then region_info "colour" "DD/MM/YYYY"
                    else region_info "color" "MM/DD/YYYY").
Proof.
  intros Ho.
  destruct (regional_formatting_run o region d h Ho) as (h' & l & ? & ? & ? & ? & _).
  by exists h', l.
Qed.

Lemma apply_regional_formatting_spec_witness :
  let h : heap := {[ 1%positive := Dict ∅ ]} in
  h !! 1%positive = Some (Dict ∅) ∧
  ∃ h' l,
    _apply_regional_formatting 1%positive "uk" h = Ok (1%positive, h') ∧
    h' !! 1%positive = Some (Dict (<["regional_format" := VRef l]> ∅)) ∧
    h !! l = None ∧
    h' !! l = Some (if bool_decide ("uk" ∈ ["UK"; "India"])
                    then region_info "colour" "DD/MM/YYYY"
                    else region_info "color" "MM/DD/YYYY").
Proof.
  intros h.
  assert (h !! 1%positive = Some (Dict ∅)) as H by reflexivity.
  split; [exact H|]. exact (apply_regional_formatting_spec 1%positive "uk" ∅ h H).
Defined.

(** X28: the dict that [optimize_resume] returns is a shallow copy: it has
    the keys of its argument and [regional_format]; under [experience],
    [skills] and [regional_format] it refers to objects that are new; under
    every key other than these and [summary] it holds the very value of the
    argument, so the education, the projects and the personal information
    are shared with the input. *)
Theorem optimize_resume_shares p prof jd region h :
  Load.profile_at h p = Some prof →
  ∃ d r h' d',
    h !! p = Some (Dict d) ∧
    optimize_resume p jd region h = Ok (r, h') ∧ h' !! r = Some (Dict d') ∧
    dom d' = dom d ∪ {["regional_format"]} ∧
    (∀ key, key ∉ ["summary"; "experience"; "skills"; "regional_format"] →
            d' !! key = d !! key) ∧
    (∀ key, key ∈ ["experience"; "skills"; "regional_format"] →
            ∃ l, d' !! key = Some (VRef l) ∧ h !! l = None).
Proof.
  intros Hprof. apply profile_at_inv in Hprof as (d & Hp & Hd).
  destruct (optimize_resume_run p prof jd region h d Hp Hd)
    as (r & h' & s' & oe & u & l & Hrun & Hr & _ & _ & Foe & Fu & Fl & _).
  eexists d, r, h', _. split; [done|]. split; [done|]. split; [done|].
  apply profile_of_inv in Hd as (_ & Fsk & Fex & _ & _ & _ & Fsu).
  apply field_inv in Fsk as (? & Dsk & _). apply field_inv in Fex as (? & Dex & _).
  apply field_inv in Fsu as (? & Dsu & _).
  split; [|split].
  - rewrite !dom_insert_L.
    assert ("skills" ∈ dom d) by (apply elem_of_dom; by eexists).
    assert ("experience" ∈ dom d) by (apply elem_of_dom; by eexists).
    assert ("summary" ∈ dom d) by (apply elem_of_dom; by eexists).
    set_solver.
  - intros key Hkey. rewrite !elem_of_cons, elem_of_nil in Hkey.
    rewrite !lookup_insert_ne; [done|intros <-; tauto..].
  - intros key Hkey. rewrite !elem_of_cons, elem_of_nil in Hkey.
    destruct Hkey as [->|[->|[->|[]]]].
    + exists oe. rewrite lookup_insert_ne by done. rewrite lookup_insert_ne by done.
      by rewrite lookup_insert_eq.
    + exists u. by rewrite lookup_insert_ne, lookup_insert_eq.
    + exists l. by rewrite lookup_insert_eq.
Qed.

Lemma optimize_resume_shares_witness :
  Load.profile_at sample_heap 1%positive = Some sample_profile ∧
  ∃ d r h' d',
    sample_heap !! 1%positive = Some (Dict d) ∧
    optimize_resume 1%positive "" "US" sample_heap = Ok (r, h') ∧
    h' !! r = Some (Dict d') ∧
    dom d' = dom d ∪ {["regional_format"]} ∧
    (∀ key, key ∉ ["summary"; "experience"; "skills"; "regional_format"] →
            d' !! key = d !! key) ∧
    (∀ key, key ∈ ["experience"; "skills"; "regional_format"] →
            ∃ l, d' !! key = Some (VRef l) ∧ sample_heap !! l = None).
Proof.
  split; [vm_compute; reflexivity|].
  apply (optimize_resume_shares 1%positive sample_profile).
  vm_compute. reflexivity.
Defined.

End Objects.

(** ** The LinkedIn headlines *)

Section LinkedIn.
Import LinkedInGenerator.

Lemma split_ws_go_nil_all_space : ∀ s, Str.split s = [] ↔ Stated.all_in Chr.isspace s = true.
Proof.
  intros s. split; [apply split_nil_all_space|].
  unfold Str.split. induction s as [|c s IH]; [done|].
  cbn [Stated.all_in Str.split_ws_go]. intros [-> Hs]%andb_true_iff. by apply IH.
Qed.

(** X29: [_generate_headline] raises [IndexError] exactly when the
    resume has a name that is not empty and consists of white space, whose
    first word it takes without a check; otherwise it returns four
    headlines, and five when the resume has a job, so that the cut at five
    never drops one. *)
Theorem generate_headline_spec current_title p :
  let blank := match name (personal_info p) with
               | Some (String c s) => Stated.all_in Chr.isspace (String c s)
               | _ => false
               end in
  (blank = true → _generate_headline current_title p = Raise IndexError) ∧
  (blank = false →
     ∃ headlines, _generate_headline current_title p = Ok headlines ∧
       length headlines = (if experience p is [] then 4 else 5)%nat).
Proof.
  intros blank. unfold _generate_headline. subst blank.
  destruct (name (personal_info p)) as [[|c s]|]; cbn [truthy default from_option id].
  - split; [done|]. intros _. eexists. split; [reflexivity|]. by destruct (experience p).
  - split.
    + intros H. apply split_ws_go_nil_all_space in H. by rewrite H.
    + intros H. destruct (Str.split (String c s)) as [|w ws] eqn:E.
      { apply split_ws_go_nil_all_space in E. congruence. }
      eexists. split; [reflexivity|]. by destruct (experience p).
  - split; [done|]. intros _. eexists. split; [reflexivity|]. by destruct (experience p).
Qed.

Lemma generate_headline_spec_witness :
  _generate_headline None (Profile "" [] [] [] [] (Person (Some " ") None None) "")
  = Raise IndexError ∧
  ∃ headlines, _generate_headline None empty_profile = Ok headlines ∧
               length headlines = 4%nat.
Proof.
  split.
  - exact (proj1 (generate_headline_spec None
                    (Profile "" [] [] [] [] (Person (Some " ") None None) ""))
                 eq_refl).
  - exact (proj2 (generate_headline_spec None empty_profile) eq_refl).
Defined.

(** X30: the years of experience are 3 for a resume without jobs and
    min(2 * n, 30) for one with n jobs, so always between 2 and 30; the
    lower bound 2 of the code never takes effect, and a resume with one job
    gets fewer years than a resume with none. *)
Theorem estimate_experience_years_spec (jobs : list job) :
  _estimate_experience_years jobs
  = (if jobs is [] then 3 else Nat.min (2 * length jobs) 30)%nat ∧
  2 ≤ _estimate_experience_years jobs ≤ 30 ∧
  (∀ job, _estimate_experience_years [job] < _estimate_experience_years []).
Proof.
  unfold _estimate_experience_years. destruct jobs as [|j jobs]; cbn [length].
  - repeat split; cbn; lia.
  - repeat split; cbn; lia.
Qed.

End LinkedIn.
